(** * The repository generator ([_repo_generator.py]) in Rocq

    A shallow embedding of the [Generator] class: the Python helpers it
    relies on, the XML element tree, the part of the disk it reads and
    writes, and each of its methods, followed by the properties of the
    synchronisation run.

    Conventions of the model.
    - Text is [string]; a path is the list of its components below the
      release directory, on a POSIX system (separator [/], line end
      [\n]).  File names are single components.  An id or a version
      joined into a path is taken as one component; this is what
      [os.path.join] does when the id is not empty, is neither [.] nor
      [..] and holds no separator, and the version holds no separator
      ([folder_name]); with another id or version the joined path is
      not the place the model writes to.
    - A file referenced by a declaration is followed when its path is
      relative.  A path that leaves the add-on folder through [..] is
      followed as long as it stays in the release directory; an absolute
      path, or one that leaves the release directory, names a place the
      world of the model does not hold and is passed over.  The
      properties of the copy are about paths that stay inside the
      add-on folder ([inside]).
    - A directory is the list of its entries in enumeration order
      ([os.listdir], [os.walk]); names are unique within one directory.
    - Exceptions are values of [exn]; a method is a function from the world
      to a result and the world it leaves behind, so that what was written
      before an exception stays written, as in Python.
    - What the operating system may refuse (removing or writing a file) is
      an oracle of the environment [env].
    - The path expression built from an id ([addon[@id='{}']]) is modelled
      for ids without an apostrophe ([plain_id]); with an apostrophe the
      expression is another one, or none, and is not modelled. *)

From Stdlib Require Import List String Ascii Bool Arith Lia Permutation Sorted.
From Stdlib Require Import NArith DecimalString.
Import ListNotations.
Local Open Scope string_scope.
Local Open Scope list_scope.

Set Implicit Arguments.
Set Warnings "-register-all".

(* ================================================================== *)
(** ** Python helpers *)
(* ================================================================== *)

Module Py.

(** [s.startswith(p)] *)
Definition startswith (s p : string) : bool := String.prefix p s.

(** [s.endswith(p)] *)
Definition endswith (s p : string) : bool :=
  Nat.leb (String.length p) (String.length s) &&
  String.eqb (substring (String.length s - String.length p) (String.length p) s) p.

(** [p in s] for strings *)
Fixpoint contains (s p : string) : bool :=
  String.prefix p s ||
  match s with
  | EmptyString => false
  | String _ s' => contains s' p
  end.

Definition lower_ascii (c : ascii) : ascii :=
  let n := nat_of_ascii c in
  if Nat.leb 65 n && Nat.leb n 90 then ascii_of_nat (n + 32) else c.

(** [s.lower()], on the ASCII letters (no letter of the words tested in
    this program is the lower case of a character outside ASCII). *)
Fixpoint lower (s : string) : string :=
  match s with
  | EmptyString => EmptyString
  | String c s' => String (lower_ascii c) (lower s')
  end.

(** [x in l] for a list of strings *)
Definition mem (x : string) (l : list string) : bool :=
  existsb (String.eqb x) l.

(** [l.remove(x)]: drops the first occurrence ([ValueError] when there is
    none, which every call site swallows). *)
Fixpoint remove (x : string) (l : list string) : list string :=
  match l with
  | [] => []
  | y :: l' => if String.eqb x y then l' else y :: remove x l'
  end.

(** [str(x)] of an optional string: [None] prints as the word None. *)
Definition str (x : option string) : string :=
  match x with Some s => s | None => "None" end.

(** [a != b] on optional strings *)
Definition opt_eqb (a b : option string) : bool :=
  match a, b with
  | Some x, Some y => String.eqb x y
  | None, None => true
  | _, _ => false
  end.

(** [l.insert(i, x)] for [0 <= i]: before index [i], at the end when
    [i] is past it. *)
Fixpoint insert {A} (i : nat) (x : A) (l : list A) : list A :=
  match i, l with
  | O, _ => x :: l
  | S i', y :: l' => y :: insert i' x l'
  | S _, [] => [x]
  end.

(** [del l[i]] *)
Fixpoint delete {A} (i : nat) (l : list A) : list A :=
  match i, l with
  | _, [] => []
  | O, _ :: l' => l'
  | S i', y :: l' => y :: delete i' l'
  end.

(** [l[:-1]] *)
Definition but_last {A} (l : list A) : list A := removelast l.

Section Sorted.
Variables (A K : Type) (key : A -> K) (leb : K -> K -> bool).

(** [x] goes before the first element whose key is not smaller. *)
Fixpoint insert_sorted (x : A) (l : list A) : list A :=
  match l with
  | [] => [x]
  | y :: l' =>
      if leb (key x) (key y) then x :: y :: l'
      else y :: insert_sorted x l'
  end.

(** [sorted(l, key=key)] when every comparison of keys succeeds.
    Python's sort is stable, and a stable sort has one possible
    result; it is computed here by insertion from the right, which
    keeps elements of equal keys in their order. *)
Definition sorted (l : list A) : list A :=
  fold_right insert_sorted [] l.
End Sorted.

End Py.

(* ================================================================== *)
(** ** XML elements ([xml.etree.ElementTree]) *)
(* ================================================================== *)

Module ET.

Inductive Element : Type :=
  mkElement { tag : string;
              attrib : list (string * string);
              text : option string;
              children : list Element }.

(** [Element(tag)] *)
Definition new (t : string) : Element := mkElement t [] None [].

Fixpoint assoc (k : string) (l : list (string * string)) : option string :=
  match l with
  | [] => None
  | (k', v) :: l' => if String.eqb k k' then Some v else assoc k l'
  end.

(** [e.get(k)] *)
Definition get (e : Element) (k : string) : option string := assoc k (attrib e).

(** [e.findall(t)]: the direct children tagged [t], in document order. *)
Definition findall (e : Element) (t : string) : list Element :=
  filter (fun c => String.eqb (tag c) t) (children e).

(** [e.find(t)] *)
Definition find (e : Element) (t : string) : option Element :=
  hd_error (findall e t).

(** The predicate of the path [t[@k='v']] on one child. *)
Definition selects (t k v : string) (c : Element) : bool :=
  String.eqb (tag c) t && Py.opt_eqb (get c k) (Some v).

(** [e.find("t[@k='v']")]: the first direct child tagged [t] whose
    attribute [k] is [v].  An element is an object: it is returned with
    its position among the children, which stands for its identity. *)
Fixpoint find_attr (t k v : string) (kids : list Element) : option (nat * Element) :=
  match kids with
  | [] => None
  | c :: kids' =>
      if selects t k v c then Some (0, c)
      else match find_attr t k v kids' with
           | Some (i, e) => Some (S i, e)
           | None => None
           end
  end.

(** [e.findall(t).index(c)] for the child [c] at position [pos]: the
    number of children tagged [t] before it. *)
Definition index_in_findall (t : string) (kids : list Element) (pos : nat) : nat :=
  List.length (filter (fun c => String.eqb (tag c) t) (firstn pos kids)).

(** [bool(e)]: an element without children is false. *)
Definition truthy (e : option Element) : bool :=
  match e with
  | Some c => match children c with [] => false | _ => true end
  | None => false
  end.

Definition set_children (e : Element) (kids : list Element) : Element :=
  mkElement (tag e) (attrib e) (text e) kids.

End ET.
Import ET.

(* ================================================================== *)
(** ** The disk *)
(* ================================================================== *)

Definition path := list string.

(** What a file holds: a well-formed XML document (given by its root),
    an archive (given by the names of its entries), or any other text. *)
Inductive content : Type :=
| Blob (s : string)
| XmlDoc (root : Element)
| ZipArchive (names : list path).

Inductive node : Type :=
| File (mtime : nat) (data : content)
| Dir (mtime : nat) (entries : list (string * node)).

Definition listing := list (string * node).

Definition getmtime (n : node) : nat :=
  match n with File m _ => m | Dir m _ => m end.

Definition is_dir (n : node) : bool :=
  match n with Dir _ _ => true | File _ _ => false end.

Module FS.

Fixpoint assoc (name : string) (l : listing) : option node :=
  match l with
  | [] => None
  | (k, n) :: l' => if String.eqb name k then Some n else assoc name l'
  end.

(** The entry [name] becomes [n]: in place when it exists, as a new last
    entry otherwise. *)
Fixpoint set (name : string) (n : node) (l : listing) : listing :=
  match l with
  | [] => [(name, n)]
  | (k, n') :: l' =>
      if String.eqb name k then (k, n) :: l' else (k, n') :: set name n l'
  end.

Fixpoint del (name : string) (l : listing) : listing :=
  match l with
  | [] => []
  | (k, n') :: l' =>
      if String.eqb name k then l' else (k, n') :: del name l'
  end.

(** The node at path [p] from the node [n]; the empty path is [n]. *)
Fixpoint lookup_node (p : path) (n : node) : option node :=
  match p with
  | [] => Some n
  | x :: p' =>
      match n with
      | Dir _ l =>
          match assoc x l with
          | Some c => lookup_node p' c
          | None => None
          end
      | File _ _ => None
      end
  end.

(** The node at path [p] below the directory whose entries are [l]. *)
Definition lookup (p : path) (l : listing) : option node :=
  lookup_node p (Dir 0 l).

(** The node at [p] becomes [n]; the directory holding it must exist. *)
Fixpoint put (p : path) (n : node) (l : listing) : option listing :=
  match p with
  | [] => None
  | [x] => Some (set x n l)
  | x :: p' =>
      match assoc x l with
      | Some (Dir m sub) =>
          match put p' n sub with
          | Some sub' => Some (set x (Dir m sub') l)
          | None => None
          end
      | _ => None
      end
  end.

(** A chain of new directories [p], stamped [t]. *)
Fixpoint chain (t : nat) (p : path) : listing :=
  match p with
  | [] => []
  | x :: p' => [(x, Dir t (chain t p'))]
  end.

(** [os.makedirs(p)]: creates the missing directories of [p]; fails
    when [p] exists already or a file is in the way. *)
Fixpoint makedirs (t : nat) (p : path) (l : listing) : option listing :=
  match p with
  | [] => None
  | x :: p' =>
      match assoc x l with
      | Some (Dir m sub) =>
          match makedirs t p' sub with
          | Some sub' => Some (set x (Dir m sub') l)
          | None => None
          end
      | Some (File _ _) => None
      | None => Some (set x (Dir t (chain t p')) l)
      end
  end.

(** The entry at [p] disappears. *)
Fixpoint rm (p : path) (l : listing) : listing :=
  match p with
  | [] => l
  | [x] => del x l
  | x :: p' =>
      match assoc x l with
      | Some (Dir m sub) => set x (Dir m (rm p' sub)) l
      | _ => l
      end
  end.

Definition names (l : listing) : list string := map fst l.

(** The two lists [os.walk] builds from one directory. *)
Definition dirnames (l : listing) : list string :=
  map fst (filter (fun e => is_dir (snd e)) l).
Definition filenames (l : listing) : list string :=
  map fst (filter (fun e => negb (is_dir (snd e))) l).

End FS.

(* ================================================================== *)
(** ** Exceptions, output, environment and world *)
(* ================================================================== *)

Inductive exn : Type :=
| ParseError      (* [ElementTree.parse] on text that is no XML document *)
| TypeError       (* [None] where a string is needed *)
| UnicodeError    (* reading as text a file that holds none *)
| OSError.        (* a file-system call that fails *)

Inductive res (A : Type) : Type :=
| Ok (a : A)
| Raise (e : exn).
Arguments Ok {A} a.
Arguments Raise {A} e.

(** A place on disk: below the release directory, or in the directory of
    the script ([root_path]). *)
Inductive loc : Type :=
| InRelease (p : path)
| InRoot (name : string).

(** The lines the program prints, without their colours. *)
Inductive msg : Type :=
| RemovedCompiled (p : path)
| FailedRemoveCompiled (p : path)
| RemovedCache (p : path)
| FailedRemoveCache (p : path)
| Excluding (p : path) (e : exn)
| ZipCreated (id version : string)
| UpdatedAddonsXml
| ErrorUpdatingAddonsXml (e : exn)
| UpdatedMd5
| ErrorUpdatingMd5 (e : exn)
| ErrorSaving (e : exn)
| RemovedOldZip (p : path)
| FailedRemoveOldZip (p : path) (e : exn)
| NoRepositoryZip
| RemovedRootZip (name : string)
| FailedRemoveRootZip (name : string) (e : exn)
| CopiedToRoot (name : string)
| UpdatedIndex (name : string)
| IndexUpToDate.

(** What the program does not decide: which removals and writes the
    operating system refuses, the clock, the digest function and the name
    of the directory the script lives in. *)
Record env : Type :=
  mkEnv { deny_remove : loc -> bool;
          deny_write : loc -> bool;
          now : nat;
          xml_text : Element -> string;     (* the text of a document *)
          md5_hexdigest : string -> string;
          home_id : string }.

Record world : Type :=
  mkWorld { release : listing;               (* below [release_path] *)
            root : listing;                  (* the entries of [root_path] *)
            latest_repo_zip_name : option string;  (* [self._latest_repo_zip_name] *)
            stdout : list msg }.

Definition with_release (w : world) (r : listing) : world :=
  mkWorld r (root w) (latest_repo_zip_name w) (stdout w).
Definition with_root (w : world) (r : listing) : world :=
  mkWorld (release w) r (latest_repo_zip_name w) (stdout w).
Definition with_latest (w : world) (z : option string) : world :=
  mkWorld (release w) (root w) z (stdout w).
Definition with_stdout (w : world) (o : list msg) : world :=
  mkWorld (release w) (root w) (latest_repo_zip_name w) o.

(** A computation on the world that returns or raises; the world is kept
    in both cases. *)
Definition M (A : Type) : Type := world -> res A * world.

Definition ret {A} (a : A) : M A := fun w => (Ok a, w).
Definition raise {A} (e : exn) : M A := fun w => (Raise e, w).
Definition bind {A B} (m : M A) (k : A -> M B) : M B :=
  fun w => match m w with
           | (Ok a, w') => k a w'
           | (Raise e, w') => (Raise e, w')
           end.
(** [try: m except Exception as e: h e] *)
Definition try_except {A} (m : M A) (h : exn -> M A) : M A :=
  fun w => match m w with
           | (Ok a, w') => (Ok a, w')
           | (Raise e, w') => h e w'
           end.

Declare Scope m_scope.
Delimit Scope m_scope with M.
Notation "x <- m ;; k" := (bind m (fun x => k))
  (at level 61, m at next level, right associativity) : m_scope.
Notation "m ;; k" := (bind m (fun _ => k))
  (at level 61, right associativity) : m_scope.
Local Open Scope m_scope.

Definition print (m : msg) : M unit :=
  fun w => (Ok tt, with_stdout w (stdout w ++ [m])).

(** [for x in l: body x] over a list fixed before the loop. *)
Fixpoint for_each {A} (l : list A) (body : A -> M unit) : M unit :=
  match l with
  | [] => ret tt
  | x :: l' => body x ;; for_each l' body
  end.

(** A loop that carries local variables [s]. *)
Fixpoint for_fold {A S} (l : list A) (body : S -> A -> M S) (s : S) : M S :=
  match l with
  | [] => ret s
  | x :: l' => s' <- body s x ;; for_fold l' body s'
  end.

(* ================================================================== *)
(** ** File-system calls *)
(* ================================================================== *)

Section Generator.

Variable E : env.

Definition is_some {A} (o : option A) : bool :=
  match o with Some _ => true | None => false end.

(** [os.path.exists(p)] *)
Definition exists_ (p : path) : M bool :=
  fun w => (Ok (is_some (FS.lookup p (release w))), w).

(** [os.path.isdir(p)] *)
Definition isdir (p : path) : M bool :=
  fun w => (Ok (match FS.lookup p (release w) with
                | Some (Dir _ _) => true
                | _ => false
                end), w).

(** The entries of the directory [p], with their nodes
    ([os.listdir(p)] gives their names). *)
Definition scandir (p : path) : M listing :=
  fun w => match FS.lookup p (release w) with
           | Some (Dir _ l) => (Ok l, w)
           | _ => (Raise OSError, w)
           end.

Definition listdir (p : path) : M (list string) :=
  l <- scandir p ;; ret (FS.names l).

(** [ElementTree.parse(p).getroot()] *)
Definition parse (p : path) : M Element :=
  fun w => match FS.lookup p (release w) with
           | Some (File _ (XmlDoc r)) => (Ok r, w)
           | Some (File _ _) => (Raise ParseError, w)
           | _ => (Raise OSError, w)
           end.

Definition text_of (c : content) : res string :=
  match c with
  | Blob s => Ok s
  | XmlDoc r => Ok (xml_text E r)
  | ZipArchive _ => Raise UnicodeError
  end.

(** [open(p, "r", encoding="utf-8").read()] *)
Definition read_text (p : path) : M string :=
  fun w => match FS.lookup p (release w) with
           | Some (File _ c) => (text_of c, w)
           | _ => (Raise OSError, w)
           end.

(** [os.makedirs(p)] *)
Definition makedirs (p : path) : M unit :=
  fun w => if deny_write E (InRelease p) then (Raise OSError, w)
           else match FS.makedirs (now E) p (release w) with
                | Some r => (Ok tt, with_release w r)
                | None => (Raise OSError, w)
                end.

(** Writing the whole of a file: [open(p, "w")] and what follows it. *)
Definition write_file (p : path) (c : content) : M unit :=
  fun w => if deny_write E (InRelease p) then (Raise OSError, w)
           else match FS.lookup p (release w) with
                | Some (Dir _ _) => (Raise OSError, w)
                | _ => match FS.put p (File (now E) c) (release w) with
                       | Some r => (Ok tt, with_release w r)
                       | None => (Raise OSError, w)
                       end
                end.

(** [os.remove(p)]: a file only. *)
Definition remove (p : path) : M unit :=
  fun w => match FS.lookup p (release w) with
           | Some (File _ _) =>
               if deny_remove E (InRelease p) then (Raise OSError, w)
               else (Ok tt, with_release w (FS.rm p (release w)))
           | _ => (Raise OSError, w)
           end.

(** [shutil.copy(src, dst)]: into [dst] when [dst] is a directory. *)
Definition copy (src dst : path) : M unit :=
  fun w => match FS.lookup src (release w) with
           | Some (File _ c) =>
               match FS.lookup dst (release w) with
               | Some (Dir _ _) => write_file (dst ++ [last src EmptyString]) c w
               | _ => write_file dst c w
               end
           | _ => (Raise OSError, w)
           end.

Definition zips_path : path := ["zips"].

(** [os.path.join(base, x)] for an optional name: [None] is no path
    (a [TypeError]).  The name is appended as one component, which is
    the joined path for a name that is a folder name. *)
Definition join_opt (base : path) (x : option string) : M path :=
  match x with
  | Some s => ret (base ++ [s])
  | None => raise TypeError
  end.

(* ================================================================ *)
(** ** [_remove_binaries] *)
(* ================================================================ *)

Definition is_compiled (fn : string) : bool :=
  Py.endswith (Py.lower fn) "pyo" || Py.endswith (Py.lower fn) "pyc".

Definition is_cache (d : string) : bool :=
  Py.contains (Py.lower d) "pycache".

(** One directory of the walk and, top down, the directories below it.
    Returns the entries that remain and the lines printed: for the files
    of this directory, for its directories, and by the walk below.
    [shutil.rmtree] is taken to remove all of a tree or, when refused,
    nothing of it.  A directory that was removed is not walked (its scan
    fails and [os.walk] passes on); one that could not be removed is. *)
Fixpoint remove_binaries_in (parent : path) (n : node) : node * list msg :=
  match n with
  | File _ _ => (n, [])
  | Dir m entries =>
      let '(kept, mf, md, mw) :=
        (fix go (es : listing) : listing * list msg * list msg * list msg :=
           match es with
           | [] => ([], [], [], [])
           | (name, c) :: es' =>
               let '(kept, mf, md, mw) := go es' in
               let here := parent ++ [name] in
               match c with
               | File _ _ =>
                   if is_compiled name then
                     if deny_remove E (InRelease here)
                     then ((name, c) :: kept, FailedRemoveCompiled here :: mf, md, mw)
                     else (kept, RemovedCompiled here :: mf, md, mw)
                   else ((name, c) :: kept, mf, md, mw)
               | Dir _ _ =>
                   if is_cache name then
                     if deny_remove E (InRelease here)
                     then let '(c', ms) := remove_binaries_in here c in
                          ((name, c') :: kept, mf, FailedRemoveCache here :: md, ms ++ mw)
                     else (kept, mf, RemovedCache here :: md, mw)
                   else let '(c', ms) := remove_binaries_in here c in
                        ((name, c') :: kept, mf, md, ms ++ mw)
               end
           end) entries in
      (Dir m kept, mf ++ md ++ mw)
  end.

Definition _remove_binaries : M unit :=
  fun w =>
    match remove_binaries_in [] (Dir 0 (release w)) with
    | (Dir _ r, ms) => (Ok tt, with_stdout (with_release w r) (stdout w ++ ms))
    | (File _ _, _) => (Ok tt, w)
    end.

(* ================================================================ *)
(** ** [_get_addon_folders] *)
(* ================================================================ *)

Definition has_addon_xml (l : listing) : bool :=
  is_some (FS.assoc "addon.xml" l).

(** The inner loop: the add-ons of a nested project's [repo] folder. *)
Definition nested_addons (base : path) (l : listing) : list path :=
  flat_map (fun e =>
              match snd e with
              | Dir _ sub =>
                  if negb (String.eqb (fst e) "zips")
                     && negb (Py.startswith (fst e) ".")
                     && has_addon_xml sub
                  then [base ++ [fst e]] else []
              | File _ _ => []
              end) l.

Definition get_addon_folders (l : listing) : list path :=
  flat_map (fun e =>
              match snd e with
              | File _ _ => []
              | Dir _ sub =>
                  if String.eqb (fst e) "zips" || Py.startswith (fst e) "." then []
                  else if has_addon_xml sub then [[fst e]]
                  else match FS.assoc "repo" sub with
                       | Some (Dir _ nested) => nested_addons [fst e; "repo"] nested
                       | _ => []
                       end
              end) l.

Definition _get_addon_folders : M (list path) :=
  fun w => (Ok (get_addon_folders (release w)), w).

(* ================================================================ *)
(** ** [_create_zip] *)
(* ================================================================ *)

Definition IGNORE : list string :=
  [".git"; ".github"; ".gitignore"; ".DS_Store"; "thumbs.db"; ".idea"; "venv"].

(** [for f in files: if f.startswith(i): files.remove(f)].
    The loop reads [files] by index while the body shortens it: [idx] is
    the position of the iterator.  Each round advances [idx], and the
    loop ends when [idx] is past the end of the current list. *)
Fixpoint remove_matching (fuel idx : nat) (i : string) (files : list string)
  : option (list string) :=
  match nth_error files idx with
  | None => Some files
  | Some f =>
      match fuel with
      | O => None
      | S fuel' =>
          if Py.startswith f i
          then remove_matching fuel' (S idx) i (Py.remove f files)
          else remove_matching fuel' (S idx) i files
      end
  end.

Definition remove_ignored_files (i : string) (files : list string) : list string :=
  match remove_matching (List.length files) 0 i files with
  | Some l => l
  | None => files
  end.

(** The body of [for i in IGNORE] on the two lists of one directory. *)
Definition prune_step (st : list string * list string) (i : string)
  : list string * list string :=
  let '(dirs, files) := st in
  ((if Py.mem i dirs then Py.remove i dirs else dirs),
   remove_ignored_files i files).

Definition prune (dirs files : list string) : list string * list string :=
  fold_left prune_step IGNORE (dirs, files).

(** The names written to the archive by the walk of one directory
    [archive_root] and of the directories below it that were left in
    [dirs]; [archive_root] starts at the name of the add-on folder. *)
Fixpoint archive_names (archive_root : path) (n : node) : list path :=
  match n with
  | File _ _ => []
  | Dir _ entries =>
      let '(dirs, files) := prune (FS.dirnames entries) (FS.filenames entries) in
      map (fun f => archive_root ++ [f]) files ++
      (fix below (es : listing) : list path :=
         match es with
         | [] => []
         | (name, c) :: es' =>
             (if is_dir c && Py.mem name dirs
              then archive_names (archive_root ++ [name]) c else [])
             ++ below es'
         end) entries
  end.

Definition zip_name (id : string) (version : option string) : string :=
  (id ++ "-" ++ Py.str version ++ ".zip")%string.

Definition _create_zip (addon_folder : path) (addon_id version : option string)
  : M unit :=
  zip_folder <- join_opt zips_path addon_id ;;
  ex <- exists_ zip_folder ;;
  (if ex then ret tt else makedirs zip_folder) ;;
  let id := Py.str addon_id in
  let final_zip := zip_folder ++ [zip_name id version] in
  ex <- exists_ final_zip ;;
  if ex then ret tt
  else
    src <- (fun w => (Ok (FS.lookup addon_folder (release w)), w)) ;;
    let names := match src with
                 | Some n => archive_names [last addon_folder EmptyString] n
                 | None => []
                 end in
    write_file final_zip (ZipArchive names) ;;
    print (ZipCreated id (Py.str version)).

(* ================================================================ *)
(** ** [_copy_meta_files] *)
(* ================================================================ *)

(** [s.split("/")] *)
Fixpoint split_slash (s : string) : list string :=
  match s with
  | EmptyString => [EmptyString]
  | String c s' =>
      let r := split_slash s' in
      if Ascii.eqb c "/"%char then EmptyString :: r
      else match r with
           | h :: t => String c h :: t
           | [] => [String c EmptyString]
           end
  end.

(** The loop of [posixpath.normpath] over the components of a relative
    path; [acc] is [new_comps], last component first. *)
Fixpoint norm_comps (comps acc : list string) : list string :=
  match comps with
  | [] => rev acc
  | comp :: comps' =>
      if String.eqb comp EmptyString || String.eqb comp "." then norm_comps comps' acc
      else if negb (String.eqb comp "..") then norm_comps comps' (comp :: acc)
      else match acc with
           | [] => norm_comps comps' (comp :: acc)
           | top :: acc' =>
               if String.eqb top ".." then norm_comps comps' (comp :: acc)
               else norm_comps comps' acc'
           end
  end.

(** [os.path.normpath(t)] as components; [None] for an absolute path,
    which names a place outside the release directory. *)
Definition normpath (t : string) : option path :=
  if Py.startswith t "/" then None else Some (norm_comps (split_slash t) []).

(** [os.path.join(base, file)] as a place below the release directory:
    each leading [..] of [file] drops one component of [base].  [None]
    when the place is outside the release directory; the model does not
    see such places and takes them as missing. *)
Fixpoint resolve_rev (base_rev : path) (file : path) {struct file} : option path :=
  match file with
  | x :: file' =>
      if String.eqb x ".." then
        match base_rev with
        | [] => None
        | _ :: base_rev' => resolve_rev base_rev' file'
        end
      else Some (rev base_rev ++ file)
  | [] => Some (rev base_rev)
  end.

Definition resolve (base : path) (file : option path) : option path :=
  match file with
  | Some f => resolve_rev (rev base) f
  | None => None
  end.

Definition metadata_points : list string :=
  ["xbmc.addon.metadata"; "kodi.addon.metadata"].

Definition is_metadata (ext : Element) : bool :=
  match get ext "point" with
  | Some p => Py.mem p metadata_points
  | None => false
  end.

(** [[a for a in assets if a.text]] and their normalised paths *)
Definition art_paths (assets : Element) : list (option path) :=
  flat_map (fun a => match text a with
                     | Some t => if String.eqb t EmptyString then [] else [normpath t]
                     | None => []
                     end) (children assets).

Definition copyfiles_of (root : Element) : list (option path) :=
  Some ["addon.xml"] ::
  flat_map (fun ext =>
              if is_metadata ext then
                let assets := find ext "assets" in
                if negb (truthy assets) then []
                else match assets with
                     | Some a => art_paths a
                     | None => []
                     end
              else []) (findall root "extension").

(** The body of [for file in copyfiles].  [asset_path] is the head of
    the joined path: the folder it lies in, and the destination folder
    itself for the path [.] (joined as [dest_folder/.]). *)
Definition copy_one (src_addon_folder dest_folder : path) (file : option path)
  : M unit :=
  match resolve src_addon_folder file, resolve dest_folder file with
  | Some addon_path, Some zips_file =>
      ex <- exists_ addon_path ;;
      if negb ex then ret tt
      else
        let asset_path := match file with
                          | Some [] => zips_file
                          | _ => removelast zips_file
                          end in
        ex <- exists_ asset_path ;;
        (if ex then ret tt else makedirs asset_path) ;;
        copy addon_path zips_file
  | _, _ => ret tt
  end.

Definition _copy_meta_files (src_addon_folder : path) (addon_id : option string)
  : M unit :=
  root <- parse (src_addon_folder ++ ["addon.xml"]) ;;
  let copyfiles := copyfiles_of root in
  dest_folder <- join_opt zips_path addon_id ;;
  for_each copyfiles (copy_one src_addon_folder dest_folder).

(* ================================================================ *)
(** ** [_generate_addons_file] *)
(* ================================================================ *)

Definition addons_xml_path : path := zips_path ++ ["addons.xml"].
Definition md5_path : path := zips_path ++ ["addons.xml.md5"].

(** The merge of one declaration into the children of the manifest root
    (lines 335 to 349); the flag is [updated].  The entry is looked up
    by tag and id, which is what the path expression selects for an id
    without an apostrophe. *)
Definition merge (kids : list Element) (addon_root : Element)
  : list Element * bool :=
  let id := get addon_root "id" in
  let version := get addon_root "version" in
  match find_attr "addon" "id" (Py.str id) kids with
  | Some (pos, addon_entry) =>
      if negb (Py.opt_eqb (get addon_entry "version") version) then
        let index := index_in_findall "addon" kids pos in
        (Py.insert index addon_root (Py.delete pos kids), true)
      else (kids, false)
  | None => (kids ++ [addon_root], true)
  end.

(** The body of [for addon_path in addon_folders].  The local variables
    are the children of [addons_root] and [changed]; what the body did to
    them before an exception stays done. *)
Definition process_addon (st : list Element * bool) (addon_path : path)
  : M (list Element * bool) :=
  fun w =>
    match parse (addon_path ++ ["addon.xml"]) w with
    | (Raise e, w1) => (print (Excluding addon_path e) ;; ret st) w1
    | (Ok addon_root, w1) =>
        let id := get addon_root "id" in
        let version := get addon_root "version" in
        let '(kids, updated) := merge (fst st) addon_root in
        let st' := (kids, snd st || updated) in
        if updated then
          try_except
            (_create_zip addon_path id version ;;
             _copy_meta_files addon_path id ;;
             ret st')
            (fun e => print (Excluding addon_path e) ;; ret st') w1
        else (Ok st', w1)
    end.

Definition id_key (e : Element) : string := Py.str (get e "id").

(** [sorted(addons_root, key=lambda addon: addon.get('id'))].  Strings
    compare by code point; [None] compares with nothing, so the call
    raises as soon as one comparison involves an element without id,
    which is when there are two elements or more. *)
Definition sorted_by_id (kids : list Element) : res (list Element) :=
  match kids with
  | [] | [_] => Ok kids
  | _ => if forallb (fun e => is_some (get e "id")) kids
         then Ok (Py.sorted id_key String.leb kids)
         else Raise TypeError
  end.

Definition lift {A} (r : res A) : M A := fun w => (r, w).

(** Returns [True], or falls off the end ([None], here [false]). *)
Definition _generate_addons_file : M bool :=
  ex <- exists_ addons_xml_path ;;
  addons_root <- (if ex then parse addons_xml_path else ret (ET.new "addons")) ;;
  addon_folders <- _get_addon_folders ;;
  st <- for_fold addon_folders process_addon (children addons_root, false) ;;
  let '(kids, changed) := st in
  if changed then
    kids' <- lift (sorted_by_id kids) ;;
    try_except
      (write_file addons_xml_path (XmlDoc (set_children addons_root kids')) ;;
       ret true)
      (fun e => print (ErrorUpdatingAddonsXml e) ;; ret false)
  else ret false.

(* ================================================================ *)
(** ** [_generate_md5_file] and [_save_file] *)
(* ================================================================ *)

Definition _save_file (data : string) (file : path) : M unit :=
  try_except (write_file file (Blob data))
             (fun e => print (ErrorSaving e)).

Definition _generate_md5_file : M bool :=
  try_except
    (t <- read_text addons_xml_path ;;
     _save_file (md5_hexdigest E t) md5_path ;;
     ret true)
    (fun e => print (ErrorUpdatingMd5 e) ;; ret false).

(* ================================================================ *)
(** ** [_cleanup_old_zips] *)
(* ================================================================ *)

(** [[f for f in os.listdir(d) if f.endswith(".zip")]], with the nodes *)
Definition zips_in (l : listing) : listing :=
  filter (fun e => Py.endswith (fst e) ".zip") l.

(** [sorted(zips, key=os.path.getmtime)] *)
Definition sorted_by_mtime (l : listing) : list string :=
  map fst (Py.sorted (fun e => getmtime (snd e)) Nat.leb l).

Definition remove_old_zip (addon_zip_folder : path) (old_zip : string) : M unit :=
  let old_path := addon_zip_folder ++ [old_zip] in
  try_except (remove old_path ;; print (RemovedOldZip old_path))
             (fun e => print (FailedRemoveOldZip old_path e)).

Definition cleanup_folder (addon_id : string) : M unit :=
  let addon_zip_folder := zips_path ++ [addon_id] in
  d <- isdir addon_zip_folder ;;
  if negb d then ret tt
  else
    l <- scandir addon_zip_folder ;;
    let zips := sorted_by_mtime (zips_in l) in
    for_each (Py.but_last zips) (remove_old_zip addon_zip_folder).

Definition _cleanup_old_zips : M unit :=
  ex <- exists_ zips_path ;;
  if negb ex then ret tt
  else
    names <- listdir zips_path ;;
    for_each names cleanup_folder.

(* ================================================================ *)
(** ** [_copy_repo_zip_to_root] *)
(* ================================================================ *)

(** A candidate: [(addon_id, zip_name, zip_src)]. *)
Definition candidate : Type := (string * string * path)%type.

(** The loop over the extensions: the first one whose point is the
    repository point ends the loop. *)
Definition is_repository (root : Element) : bool :=
  existsb (fun ext => Py.opt_eqb (get ext "point") (Some "xbmc.addon.repository"))
          (findall root "extension").

(** The body of [for addon_id in os.listdir(self.zips_path)]: the
    candidate this folder contributes, if any. *)
Definition candidate_of (addon_id : string) : M (list candidate) :=
  let addon_zip_folder := zips_path ++ [addon_id] in
  d <- isdir addon_zip_folder ;;
  if negb d then ret []
  else
    let addon_xml_path := addon_zip_folder ++ ["addon.xml"] in
    ex <- exists_ addon_xml_path ;;
    if negb ex then ret []
    else
      try_except
        (root <- parse addon_xml_path ;;
         if is_repository root then
           l <- scandir addon_zip_folder ;;
           match rev (sorted_by_mtime (zips_in l)) with
           | newest :: _ => ret [(addon_id, newest, addon_zip_folder ++ [newest])]
           | [] => ret []
           end
         else ret [])
        (fun _ => ret []).

Definition collect_candidates (names : list string) : M (list candidate) :=
  for_fold names (fun acc addon_id => c <- candidate_of addon_id ;; ret (acc ++ c)) [].

(** [(preferred or candidates)[0]] *)
Definition choose (candidates : list candidate) : option candidate :=
  let preferred :=
    filter (fun c => String.eqb (fst (fst c)) (home_id E)) candidates in
  match preferred with
  | [] => hd_error candidates
  | c :: _ => Some c
  end.

(** [os.remove] of an entry of the root directory *)
Definition remove_root (f : string) : M unit :=
  fun w => match FS.assoc f (root w) with
           | Some (File _ _) =>
               if deny_remove E (InRoot f) then (Raise OSError, w)
               else (Ok tt, with_root w (FS.del f (root w)))
           | _ => (Raise OSError, w)
           end.

Definition remove_root_zip (f : string) : M unit :=
  if Py.endswith f ".zip" then
    try_except (remove_root f ;; print (RemovedRootZip f))
               (fun e => print (FailedRemoveRootZip f e))
  else ret tt.

(** [shutil.copy(src, os.path.join(self.root_path, name))] *)
Definition copy_to_root (src : path) (name : string) : M unit :=
  fun w => match FS.lookup src (release w) with
           | Some (File _ c) =>
               if deny_write E (InRoot name) then (Raise OSError, w)
               else match FS.assoc name (root w) with
                    | Some (Dir m sub) =>
                        (Ok tt, with_root w
                           (FS.set name
                              (Dir m (FS.set (last src EmptyString) (File (now E) c) sub))
                              (root w)))
                    | _ => (Ok tt, with_root w (FS.set name (File (now E) c) (root w)))
                    end
           | _ => (Raise OSError, w)
           end.

Definition _copy_repo_zip_to_root : M unit :=
  ex <- exists_ zips_path ;;
  if negb ex then ret tt
  else
    names <- listdir zips_path ;;
    candidates <- collect_candidates names ;;
    match choose candidates with
    | None => print NoRepositoryZip
    | Some (chosen_id, repo_zip_name, repo_zip_src) =>
        root_names <- (fun w => (Ok (FS.names (root w)), w)) ;;
        for_each root_names remove_root_zip ;;
        copy_to_root repo_zip_src repo_zip_name ;;
        print (CopiedToRoot repo_zip_name) ;;
        (fun w => (Ok tt, with_latest w (Some repo_zip_name)))
    end.

(* ================================================================ *)
(** ** [_update_index_html] *)
(* ================================================================ *)

Definition dquote : string := String (ascii_of_nat 34) EmptyString.

(** The pieces of the pattern: a literal, or [[^c]*]. *)
Inductive re_item : Type :=
| Lit (s : string)
| StarNot (c : ascii).

(** The pattern of the link: the opening of an anchor with its href,
    any characters but a double quote, the archive extension and the end
    of the opening tag, any characters but an opening angle bracket, and
    the closing tag. *)
Definition anchor_pattern : list re_item :=
  [ Lit ("<a href=" ++ dquote)%string; StarNot (ascii_of_nat 34);
    Lit (".zip" ++ dquote ++ ">")%string; StarNot "<"%char; Lit "</a>" ].

Fixpoint strip_prefix (p s : string) : option string :=
  match p with
  | EmptyString => Some s
  | String a p' =>
      match s with
      | String b s' => if Ascii.eqb a b then strip_prefix p' s' else None
      | EmptyString => None
      end
  end.

(** A match of the pieces at the start of [s], as the engine finds it:
    a star takes as many characters as it can and gives them back one by
    one while what follows does not match.  Returns what is left of [s].
    (In Python a negated class also matches a line break.) *)
Fixpoint match_items (items : list re_item) (s : string) : option string :=
  match items with
  | [] => Some s
  | Lit l :: items' =>
      match strip_prefix l s with
      | Some s' => match_items items' s'
      | None => None
      end
  | StarNot c :: items' =>
      (fix star (s : string) : option string :=
         match s with
         | String x s' =>
             if Ascii.eqb x c then match_items items' s
             else match star s' with
                  | Some r => Some r
                  | None => match_items items' s
                  end
         | EmptyString => match_items items' s
         end) s
  end.

(** [re.sub(pattern, repl, s)] with a replacement that holds no
    backslash: from left to right, each match is replaced and the scan
    goes on after it.  [skip] counts the characters of a match still to
    pass over. *)
Fixpoint re_sub_from (items : list re_item) (repl : string) (skip : nat) (s : string)
  : string :=
  match s with
  | EmptyString => EmptyString
  | String c s' =>
      match skip with
      | S k => re_sub_from items repl k s'
      | O =>
          match match_items items s with
          | Some rest =>
              (repl ++ re_sub_from items repl
                         (String.length s - String.length rest - 1) s')%string
          | None => String c (re_sub_from items repl 0 s')
          end
      end
  end.

Definition re_sub (items : list re_item) (repl s : string) : string :=
  re_sub_from items repl 0 s.

(** The new anchor: [zip_name] as its href and as its text. *)
Definition new_link (zip_name : string) : string :=
  ("<a href=" ++ dquote ++ zip_name ++ dquote ++ ">" ++ zip_name ++ "</a>")%string.

(** Reading in text mode ([open(path, "r", encoding="utf-8")], without a
    [newline] argument) translates the line ends: a carriage return,
    alone or followed by a line feed, is read as one line feed.
    [after_cr] tells that the character before was a carriage return. *)
Fixpoint translate_newlines (after_cr : bool) (s : string) : string :=
  match s with
  | EmptyString => EmptyString
  | String c s' =>
      if Ascii.eqb c (ascii_of_nat 13) then
        String (ascii_of_nat 10) (translate_newlines true s')
      else if after_cr && Ascii.eqb c (ascii_of_nat 10) then
        translate_newlines false s'
      else String c (translate_newlines false s')
  end.

Definition universal_newlines (s : string) : string :=
  translate_newlines false s.

(** The page is read in text mode and, when the substitution changed it,
    written in text mode, where a line feed is written as it is. *)
Definition _update_index_html : M unit :=
  fun w =>
    match latest_repo_zip_name w with
    | None => (Ok tt, w)
    | Some zip_name =>
        if String.eqb zip_name EmptyString then (Ok tt, w)
        else
          match FS.assoc "index.html" (root w) with
          | None => (Ok tt, w)
          | Some (Dir _ _) => (Raise OSError, w)
          | Some (File _ c) =>
              match text_of c with
              | Raise e => (Raise e, w)
              | Ok stored =>
                  let content := universal_newlines stored in
                  let updated := re_sub anchor_pattern (new_link zip_name) content in
                  if negb (String.eqb updated content) then
                    if deny_write E (InRoot "index.html") then (Raise OSError, w)
                    else print (UpdatedIndex zip_name)
                           (with_root w (FS.set "index.html"
                                           (File (now E) (Blob updated)) (root w)))
                  else print IndexUpToDate w
              end
          end
    end.

(* ================================================================ *)
(** ** [__init__]: one run of the synchroniser *)
(* ================================================================ *)

(** Lines 154 to 160. *)
Definition update_manifest : M unit :=
  ok <- _generate_addons_file ;;
  if ok then
    print UpdatedAddonsXml ;;
    ok' <- _generate_md5_file ;;
    if ok' then print UpdatedMd5 else ret tt
  else ret tt.

Definition later_stages : M unit :=
  _cleanup_old_zips ;;
  _copy_repo_zip_to_root ;;
  _update_index_html.

(** A new object has no [_latest_repo_zip_name] yet. *)
Definition new_object : M unit :=
  fun w => (Ok tt, with_latest w None).

Definition __init__ : M unit :=
  new_object ;;
  ex <- exists_ zips_path ;;
  (if ex then ret tt else makedirs zips_path) ;;
  _remove_binaries ;;
  update_manifest ;;
  later_stages.

End Generator.

(* ================================================================== *)
(** * The vocabulary of the properties *)
(* ================================================================== *)

Section Vocabulary.

Variable E : env.

(** An environment that refuses nothing. *)
Definition permissive (home : string) : env :=
  mkEnv (fun _ => false) (fun _ => false) 0
        (fun _ => "<addons/>") (fun _ => "0123456789abcdef") home.

Definition empty_file : node := File 0 (Blob EmptyString).

Definition declaration (attrs : list (string * string)) (exts : list Element) : Element :=
  mkElement "addon" attrs None exts.

(** An id that the path expression takes as it stands. *)
Definition plain_id (i : string) : bool := negb (Py.contains i "'").

(** The entry of an id: a child tagged [addon] whose attribute [id] is
    that id. *)
Definition is_entry (i : string) (e : Element) : bool := selects "addon" "id" i e.

(** The rebuild of one add-on inside the loop, with the handler of the
    loop around it. *)
Definition rebuild (addon_path : path) (id version : option string)
           (st : list Element * bool) : M (list Element * bool) :=
  try_except
    (_create_zip E addon_path id version ;;
     _copy_meta_files E addon_path id ;;
     ret st)
    (fun e => print (Excluding addon_path e) ;; ret st).

(** The entries of the release directory other than the output folder. *)
Definition nonzips (l : listing) : listing :=
  filter (fun e => negb (String.eqb (fst e) "zips")) l.

(** A computation that leaves everything outside the output folder as it
    is, whatever it returns. *)
Definition keeps_sources {A} (m : M A) : Prop :=
  forall w, nonzips (release (snd (m w))) = nonzips (release w).

(** A referenced file that does not lead out of the add-on folder
    through [..]; an absolute path is not followed at all. *)
Definition stays_below (file : option path) : bool :=
  match file with
  | Some (x :: _) => negb (String.eqb x "..")
  | _ => true
  end.

(** What parsing the declaration of the add-on folder [p] gives. *)
Definition declared (l : listing) (p : path) : res Element :=
  match FS.lookup (p ++ ["addon.xml"]) l with
  | Some (File _ (XmlDoc r)) => Ok r
  | Some (File _ _) => Raise ParseError
  | _ => Raise OSError
  end.

(** The declarations that parse, in the order of the folders. *)
Definition declarations (l : listing) (folders : list path) : list Element :=
  flat_map (fun p => match declared l p with Ok d => [d] | Raise _ => [] end) folders.

(** One round of the loop on the local variables. *)
Definition merge_step (st : list Element * bool) (d : Element)
  : list Element * bool :=
  let '(kids, updated) := merge (fst st) d in (kids, snd st || updated).

Definition merge_all (st : list Element * bool) (ds : list Element)
  : list Element * bool :=
  fold_left merge_step ds st.

(** A declaration as the merge expects it: the root is tagged [addon],
    carries a plain id, and its assets stay below the add-on folder. *)
Definition wf_decl (d : Element) : bool :=
  String.eqb (tag d) "addon"
  && match get d "id" with Some i => plain_id i | None => false end
  && forallb stays_below (copyfiles_of d).

Fixpoint distinct (l : list string) : bool :=
  match l with
  | [] => true
  | x :: l' => negb (Py.mem x l') && distinct l'
  end.

(** A well-formed release tree: every add-on folder holds a well-formed
    declaration, and no two declare the same id. *)
Definition well_formed (l : listing) : bool :=
  forallb (fun p => match declared l p with
                    | Ok d => wf_decl d
                    | Raise _ => false
                    end) (get_addon_folders l)
  && distinct (map id_key (declarations l (get_addon_folders l))).

Definition source_folder (l : listing) (p : path) : Prop :=
  exists x q d,
    p = x :: q /\ x <> "zips" /\ declared l p = Ok d /\ wf_decl d = true.

(** The entries of the id [i], in the order of the manifest; [find]
    returns the first. *)
Definition entries (i : string) (kids : list Element) : list Element :=
  filter (is_entry i) kids.

(** The three outcomes of [merge] for a declaration of id [i]. *)
Inductive merged (i : string) (kids : list Element) (d : Element)
  : list Element * bool -> Prop :=
| merged_same e :
    hd_error (entries i kids) = Some e ->
    get e "version" = get d "version" ->
    merged i kids d (kids, false)
| merged_new :
    entries i kids = [] ->
    merged i kids d (kids ++ [d], true)
| merged_replaced pre e post k :
    kids = pre ++ e :: post ->
    entries i pre = [] ->
    is_entry i e = true ->
    k <= List.length pre ->
    merged i kids d (firstn k pre ++ d :: skipn k pre ++ post, true).

(** The root of the manifest as the run reads it: a new [addons] element
    when the file is missing. *)
Definition manifest_root (l : listing) : res Element :=
  match FS.lookup addons_xml_path l with
  | None => Ok (ET.new "addons")
  | Some (File _ (XmlDoc r)) => Ok r
  | Some (File _ _) => Raise ParseError
  | Some (Dir _ _) => Raise OSError
  end.

(** Lines 361 to 374: sort and write when something changed. *)
Definition write_back (addons_root : Element) (st : list Element * bool)
  : M bool :=
  let '(kids, changed) := st in
  if changed then
    kids' <- lift (sorted_by_id kids) ;;
    try_except
      (write_file E addons_xml_path (XmlDoc (set_children addons_root kids')) ;;
       ret true)
      (fun e => print (ErrorUpdatingAddonsXml e) ;; ret false)
  else ret false.

Definition is_manifest_error (m : msg) : bool :=
  match m with ErrorUpdatingAddonsXml _ => true | _ => false end.

(** The order of a sort by key. *)
Definition key_le {A K} (key : A -> K) (leb : K -> K -> bool) (a b : A) : Prop :=
  leb (key a) (key b) = true.


Unset Implicit Arguments.

(** The candidate a folder of the output directory contributes, read off
    its node: it must be a directory holding a copied declaration that
    parses and carries the repository point, and one archive at least. *)
Definition candidate_in (addon_id : string) (n : node) : list candidate :=
  match n with
  | Dir _ l =>
      match FS.assoc "addon.xml" l with
      | Some (File _ (XmlDoc r)) =>
          if is_repository r then
            match rev (sorted_by_mtime (zips_in l)) with
            | newest :: _ => [(addon_id, newest, zips_path ++ [addon_id; newest])]
            | [] => []
            end
          else []
      | _ => []
      end
  | File _ _ => []
  end.

Definition candidates_in (zl : listing) : list candidate :=
  flat_map (fun e => candidate_in (fst e) (snd e)) zl.

Definition candidate_id (c : candidate) : string := fst (fst c).

(** Whether [os.remove] of the entry [e] of [folder] goes through. *)
Definition removable (folder : path) (e : string * node) : bool :=
  match snd e with
  | File _ _ => negb (deny_remove E (InRelease (folder ++ [fst e])))
  | Dir _ _ => false
  end.

Definition removal_report (folder : path) (f : string) (n : option node) : msg :=
  match n with
  | Some c => if removable folder (f, c) then RemovedOldZip (folder ++ [f])
              else FailedRemoveOldZip (folder ++ [f]) OSError
  | None => FailedRemoveOldZip (folder ++ [f]) OSError
  end.

(** The loop over the old archives of one folder, on its entries. *)
Fixpoint clean_list (folder : path) (olds : list string) (l : listing)
  : listing * list msg :=
  match olds with
  | [] => (l, [])
  | f :: olds' =>
      let l1 := match FS.assoc f l with
                | Some c => if removable folder (f, c) then FS.del f l else l
                | None => l
                end in
      let '(l', ms) := clean_list folder olds' l1 in
      (l', removal_report folder f (FS.assoc f l) :: ms)
  end.

Definition clean_folder (id : string) (l : listing) : listing * list msg :=
  clean_list (zips_path ++ [id]) (Py.but_last (sorted_by_mtime (zips_in l))) l.

Definition clean_node (id : string) (n : node) : node :=
  match n with
  | Dir mt l => Dir mt (fst (clean_folder id l))
  | File _ _ => n
  end.

Definition clean_msgs (id : string) (n : node) : list msg :=
  match n with
  | Dir _ l => snd (clean_folder id l)
  | File _ _ => []
  end.

Definition put_folder (w : world) (m : nat) (zl : listing) (id : string) (n : node)
  : world :=
  with_release w (FS.set "zips" (Dir m (FS.set id n zl)) (release w)).

(** An entry stays unless it is one of the old archives and its removal
    goes through. *)
Definition stays (folder : path) (olds : list string) (e : string * node) : bool :=
  negb (Py.mem (fst e) olds && removable folder e).

Definition by_mtime (a b : string * node) : Prop :=
  Nat.leb (getmtime (snd a)) (getmtime (snd b)) = true.

(** The loop of [remove_binaries_in] over the entries of one directory. *)
Definition rb_entries (parent : path) (entries : listing)
  : listing * list msg * list msg * list msg :=
  (fix go (es : listing) : listing * list msg * list msg * list msg :=
     match es with
     | [] => ([], [], [], [])
     | (name, c) :: es' =>
         let '(kept, mf, md, mw) := go es' in
         let here := parent ++ [name] in
         match c with
         | File _ _ =>
             if is_compiled name then
               if deny_remove E (InRelease here)
               then ((name, c) :: kept, FailedRemoveCompiled here :: mf, md, mw)
               else (kept, RemovedCompiled here :: mf, md, mw)
             else ((name, c) :: kept, mf, md, mw)
         | Dir _ _ =>
             if is_cache name then
               if deny_remove E (InRelease here)
               then let '(c', ms) := remove_binaries_in E here c in
                    ((name, c') :: kept, mf, FailedRemoveCache here :: md, ms ++ mw)
               else (kept, mf, RemovedCache here :: md, mw)
             else let '(c', ms) := remove_binaries_in E here c in
                  ((name, c') :: kept, mf, md, ms ++ mw)
         end
     end) entries.

(** A node of the tree that the removal was meant for. *)
Definition targeted (name : string) (n : node) : bool :=
  match n with
  | File _ _ => is_compiled name
  | Dir _ _ => is_cache name
  end.

Definition failure (p : path) (n : node) : msg :=
  match n with
  | File _ _ => FailedRemoveCompiled p
  | Dir _ _ => FailedRemoveCache p
  end.

(** What is left below [n] after the walk: a node the removal was meant
    for is there only because its removal was refused, and is
    reported. *)
Definition left_behind (parent : path) (n : node) (ms : list msg) : Prop :=
  forall p x c,
    FS.lookup_node (p ++ [x]) n = Some c ->
    targeted x c = true ->
    deny_remove E (InRelease (parent ++ p ++ [x])) = true
    /\ In (failure (parent ++ p ++ [x]) c) ms.

(** The same for the entries kept of one directory. *)
Definition entries_left_behind (parent : path)
           (r : listing * list msg * list msg * list msg) : Prop :=
  let '(kept, mf, md, mw) := r in
  forall name c',
    In (name, c') kept ->
    (targeted name c' = true ->
     deny_remove E (InRelease (parent ++ [name])) = true
     /\ In (failure (parent ++ [name]) c') (mf ++ md))
    /\ left_behind (parent ++ [name]) c' mw.

(** A path along which nothing is meant for removal. *)
Fixpoint spared (p : path) (n : node) : Prop :=
  match p with
  | [] => True
  | x :: p' =>
      match n with
      | Dir _ l =>
          match FS.assoc x l with
          | Some c => targeted x c = false /\ spared p' c
          | None => False
          end
      | File _ _ => False
      end
  end.

(** The first steps of a run: a new object and the output folder. *)
Definition prepare : M unit :=
  new_object ;;
  ex <- exists_ zips_path ;;
  if ex then ret tt else makedirs E zips_path.


End Vocabulary.

Section NodeInduction.

Variable P : node -> Prop.
Hypothesis P_file : forall m c, P (File m c).
Hypothesis P_dir : forall m l, Forall (fun e => P (snd e)) l -> P (Dir m l).

Fixpoint node_induction (n : node) : P n :=
  match n with
  | File m c => P_file m c
  | Dir m l =>
      P_dir m l
        ((fix all (l : listing) : Forall (fun e => P (snd e)) l :=
            match l with
            | [] => Forall_nil _
            | (k, c) :: l' =>
                Forall_cons (k, c) (node_induction c) (all l')
            end) l)
  end.

End NodeInduction.

Section Pages.

Local Open Scope string_scope.

Fixpoint has_char (c : ascii) (s : string) : bool :=
  match s with
  | EmptyString => false
  | String x s' => Ascii.eqb x c || has_char c s'
  end.

(** The anchor of an archive: [stem] is its href without the extension. *)
Definition anchor (stem text : string) : string :=
  "<a href=" ++ dquote ++ stem ++ ".zip" ++ dquote ++ ">" ++ text ++ "</a>".

Definition link_open : string := "<a href=" ++ dquote.
Definition link_mid : string := ".zip" ++ dquote ++ ">".
Definition link_close : string := "</a>".

(** Text in which no anchor opens: an opening angle bracket is followed,
    in the text, by a character other than the letter a. *)
Fixpoint quiet (s : string) : bool :=
  match s with
  | EmptyString => true
  | String c s' =>
      (if Ascii.eqb "<"%char c then
         match s' with
         | String d _ => negb (Ascii.eqb "a"%char d)
         | EmptyString => false
         end
       else true)
      && quiet s'
  end.

(** A page as a sequence of plain text and of anchors to archives. *)
Inductive piece : Type :=
| Plain (s : string)
| ArchiveLink (stem text : string).

Definition wf_piece (p : piece) : bool :=
  match p with
  | Plain s => quiet s
  | ArchiveLink stem text =>
      negb (has_char (ascii_of_nat 34) stem) && negb (has_char "<"%char text)
  end.

Fixpoint render (ps : list piece) : string :=
  match ps with
  | [] => EmptyString
  | Plain s :: ps' => s ++ render ps'
  | ArchiveLink stem text :: ps' => anchor stem text ++ render ps'
  end.

(** The page with every anchor to an archive replaced by [link]. *)
Fixpoint relinked (link : string) (ps : list piece) : string :=
  match ps with
  | [] => EmptyString
  | Plain s :: ps' => s ++ relinked link ps'
  | ArchiveLink _ _ :: ps' => link ++ relinked link ps'
  end.

(** The text [t] opens with an anchor to an archive, written with its
    href as only attribute: no double quote in the stem, no opening
    angle bracket in the text of the anchor. *)
Definition opens_anchor (t : string) : Prop :=
  exists stem text rest,
    has_char (ascii_of_nat 34) stem = false
    /\ has_char "<"%char text = false
    /\ t = anchor stem text ++ rest.

(** The text [s], followed by [rest], at no character of which such an
    anchor opens.  Any other text may stand there, anchors of another
    form included. *)
Fixpoint calm (s rest : string) : Prop :=
  match s with
  | EmptyString => True
  | String c s' => ~ opens_anchor (String c s' ++ rest) /\ calm s' rest
  end.

(** A page cut, from left to right, into its anchors to archives and the
    text between them. *)
Fixpoint page_shape (ps : list piece) : Prop :=
  match ps with
  | [] => True
  | Plain s :: ps' => calm s (render ps') /\ page_shape ps'
  | ArchiveLink stem text :: ps' =>
      has_char (ascii_of_nat 34) stem = false
      /\ has_char "<"%char text = false
      /\ page_shape ps'
  end.

End Pages.

(** ** Sample trees *)

Module IgnoreList.

(** An add-on whose folder lists two version-control files one after
    the other. *)
Definition tree : listing :=
  [("plugin.test",
    Dir 0 [("addon.xml",
            File 0 (XmlDoc (declaration [("id", "plugin.test"); ("version", "1.0.0")] [])));
           (".gitignore", empty_file);
           (".gitmodules", empty_file);
           (".git", Dir 0 [("config", empty_file)])])].

Definition w0 : world := mkWorld tree [] None [].

Definition archive : path := ["zips"; "plugin.test"; "plugin.test-1.0.0.zip"].

End IgnoreList.

Module MissingId.

(** Two add-ons; the declaration of the first has no id. *)
Definition tree : listing :=
  [("plugin.a",
    Dir 0 [("addon.xml", File 0 (XmlDoc (declaration [("version", "1.0")] [])))]);
   ("plugin.b",
    Dir 0 [("addon.xml",
            File 0 (XmlDoc (declaration [("id", "plugin.b"); ("version", "1.0")] [])))])].

Definition w0 : world := mkWorld tree [] None [].

End MissingId.

Module Sample.

Definition E : env := permissive "repository.home".

Definition decl_b : Element := declaration [("id", "plugin.b"); ("version", "1.0")] [].
Definition decl_a : Element := declaration [("id", "plugin.a"); ("version", "2.0")] [].
Definition decl_a_old : Element := declaration [("id", "plugin.a"); ("version", "1.9")] [].

(** Two add-ons, enumerated out of order; no manifest yet. *)
Definition tree : listing :=
  [("plugin.b", Dir 0 [("addon.xml", File 0 (XmlDoc decl_b))]);
   ("plugin.a", Dir 0 [("addon.xml", File 0 (XmlDoc decl_a))])].

Definition w0 : world := mkWorld tree [] None [].

(** The world the first run leaves when it has written the manifest. *)
Definition w1 : world := snd (_generate_addons_file E w0).



End Sample.

Module TwoLinks.

Definition E : env := permissive "repository.home".

Definition page : list piece :=
  [ArchiveLink "repository.home-1.0" "repository.home-1.0.zip";
   Plain " or ";
   ArchiveLink "mirror-1.0" "mirror-1.0.zip"].

Definition w0 : world :=
  mkWorld [] [("index.html", File 0 (Blob (render page)))]
          (Some "repository.home-2.0.zip") [].

Definition link : string := new_link "repository.home-2.0.zip".

End TwoLinks.

Module Output.

Definition E : env := permissive "repository.home".

Definition repository_point : Element :=
  mkElement "extension" [("point", "xbmc.addon.repository")] None [].

Definition home_decl : Element :=
  declaration [("id", "repository.home"); ("version", "2.0")] [repository_point].
Definition other_decl : Element :=
  declaration [("id", "repository.other"); ("version", "1.0")] [repository_point].

Definition other_folder : listing :=
  [("addon.xml", File 3 (XmlDoc other_decl));
   ("repository.other-1.0.zip", File 3 (ZipArchive []))].

(** The home folder holds an old archive next to the new one. *)
Definition home_folder : listing :=
  [("repository.home-2.0.zip", File 5 (ZipArchive []));
   ("addon.xml", File 5 (XmlDoc home_decl));
   ("repository.home-1.0.zip", File 2 (ZipArchive []))].

Definition zl : listing :=
  [("repository.other", Dir 3 other_folder);
   ("addons.xml", File 5 (XmlDoc (ET.new "addons")));
   ("repository.home", Dir 5 home_folder)].

Definition w0 : world := mkWorld [("zips", Dir 0 zl)] [] None [].

Definition home_candidate : candidate :=
  ("repository.home", "repository.home-2.0.zip",
   ["zips"; "repository.home"; "repository.home-2.0.zip"]).

End Output.

Module Assets.

Definition E : env := permissive "repository.home".

Definition metadata : Element :=
  mkElement "extension" [("point", "xbmc.addon.metadata")] None
    [mkElement "assets" [] None
       [mkElement "icon" [] (Some "icon.png") [];
        mkElement "fanart" [] (Some "resources/fanart.jpg") []]].

Definition decl : Element :=
  declaration [("id", "plugin.a"); ("version", "1.0")] [metadata].

(** The icon is there, the fanart is not. *)
Definition w0 : world :=
  mkWorld [("plugin.a", Dir 0 [("addon.xml", File 0 (XmlDoc decl));
                               ("icon.png", File 0 (Blob "png"))]);
           ("zips", Dir 0 [])] [] None [].

End Assets.

Ltac distinct_names :=
  repeat (constructor; [cbn; intuition discriminate|]); constructor.


(* ================================================================== *)
(** * The size of an archive ([convert_bytes]) *)
(* ================================================================== *)

Definition UNITS : list string := ["bytes"; "KB"; "MB"; "GB"; "TB"].

(** [num] is an [int], the size of a file.  The first test compares it
    as it is; the first division by [1024.0] makes a float of it, and
    after some rounds [num] is the quotient of the size [n] by a power
    [d] of 1024.  A float holds that quotient exactly whenever the size
    is below [2^53], and a larger size stays above every threshold of
    the loop, so that the tests and the number printed are those of the
    exact quotient. *)

(** What a call comes to: the text returned, the end of the loop without
    a return ([None]), or the [OverflowError] of the division. *)
Inductive converted : Type :=
| Text (s : string)
| NoUnit
| Overflow.

(** The least integer that no float holds: converted to a float it would
    round to [2^1024].  The division of such an [int] by [1024.0]
    raises. *)
Definition float_limit : N := (2 ^ 1024 - 2 ^ 970)%N.

(** The quotient [n/d] rounded to tenths, a tie going to the even
    tenth, as [%.1f] rounds the float it is given. *)
Definition tenths (n d : N) : N :=
  let q := (10 * n / d)%N in
  let r := (10 * n mod d)%N in
  if (2 * r <? d)%N then q
  else if (d <? 2 * r)%N then (q + 1)%N
  else if N.even q then q else (q + 1)%N.

Definition decimal (n : N) : string := NilZero.string_of_uint (N.to_uint n).

(** ["%3.1f" % num] for the number of tenths [t]: the width 3 is that of
    the shortest output. *)
Definition format_tenths (t : N) : string :=
  (decimal (t / 10) ++ "." ++ decimal (t mod 10))%string.

(** [for x in [...]: if num < 1024.0: return ...; num /= 1024.0] with
    [num = n/d].  While [d] is 1, [num] is still the [int], and the
    division raises when no float holds it; the later divisions are
    those of a float by [1024.0]. *)
Fixpoint convert_loop (n d : N) (units : list string) : converted :=
  match units with
  | [] => NoUnit
  | x :: units' =>
      if (n <? 1024 * d)%N
      then Text (format_tenths (tenths n d) ++ " " ++ x)%string
      else if (d =? 1)%N && (float_limit <=? n)%N then Overflow
      else convert_loop n (1024 * d) units'
  end.

Definition convert_bytes (num : N) : converted :=
  convert_loop num 1 UNITS.

(* ================================================================== *)
(** * The entry point (lines 531 to 533) *)
(* ================================================================== *)








(* ================================================================== *)
(** * Further vocabulary *)
(* ================================================================== *)

(** A name that [os.path.join] appends to a directory as one component
    of its own: not empty, neither [.] nor [..], and without a
    separator. *)
Definition folder_name (s : string) : bool :=
  negb (String.eqb s EmptyString)
  && negb (String.eqb s ".") && negb (String.eqb s "..")
  && negb (has_char "/"%char s).

(** A referenced path that is relative and does not lead out of the
    add-on folder. *)
Definition inside (file : option path) : bool :=
  is_some file && stays_below file.

(** A declaration that names places of its own only: its id is a folder
    name, its version holds no separator, and the files it refers to are
    inside its folder. *)
Definition contained_decl (d : Element) : bool :=
  match get d "id" with Some i => folder_name i | None => false end
  && negb (has_char "/"%char (Py.str (get d "version")))
  && forallb inside (copyfiles_of d).

(** A release tree whose declarations, where they parse, are of that
    kind. *)
Definition contained (l : listing) : bool :=
  forallb (fun p => match declared l p with
                    | Ok d => contained_decl d
                    | Raise _ => true
                    end) (get_addon_folders l).


(** A name the discovery passes over: the output folder and the hidden
    entries. *)
Definition reserved (x : string) : bool :=
  String.eqb x "zips" || Py.startswith x ".".

(** The loop over [files] for one prefix, read on the list as it was
    before the loop: a file that is tested and matches is removed, and
    the file that followed it is passed over. *)
Fixpoint every_other (i : string) (files : list string) : list string :=
  match files with
  | [] => []
  | f :: rest =>
      if Py.startswith f i then
        match rest with
        | [] => []
        | g :: rest' => g :: every_other i rest'
        end
      else f :: every_other i rest
  end.

(** A tree in which no directory lists a name twice. *)
Fixpoint unique_names (n : node) : Prop :=
  match n with
  | File _ _ => True
  | Dir _ l =>
      NoDup (FS.names l)
      /\ (fix all (es : listing) : Prop :=
            match es with
            | [] => True
            | (_, c) :: es' => unique_names c /\ all es'
            end) l
  end.

(** The part of [archive_names] that walks the directories left in
    [dirs]. *)
Definition archive_below (archive_root : path) (dirs : list string) (es : listing)
  : list path :=
  flat_map (fun e => if is_dir (snd e) && Py.mem (fst e) dirs
                     then archive_names (archive_root ++ [fst e]) (snd e)
                     else []) es.

(** The files of the ignore loop, prefix after prefix. *)
Definition pruned_files (ignore files : list string) : list string :=
  fold_left (fun fs i => remove_ignored_files i fs) ignore files.

(** A name that starts with no prefix of the ignore list. *)
Definition unignored (f : string) : bool :=
  forallb (fun i => negb (Py.startswith f i)) IGNORE.

(** The output directory after the cleanup: every folder cleaned, where
    it stood. *)
Definition cleaned (E : env) (zl : listing) : listing :=
  map (fun e => (fst e, clean_node E (fst e) (snd e))) zl.

Definition cleanup_report (E : env) (zl : listing) : list msg :=
  flat_map (fun e => clean_msgs E (fst e) (snd e)) zl.

(** Whether the promotion removes the entry [e] of the root directory:
    its name ends in [.zip], it is a file, and its removal is not
    refused. *)
Definition swept (E : env) (e : string * node) : bool :=
  Py.endswith (fst e) ".zip" && negb (is_dir (snd e))
  && negb (deny_remove E (InRoot (fst e))).

Definition sweep_report (E : env) (e : string * node) : list msg :=
  if Py.endswith (fst e) ".zip" then
    if swept E e then [RemovedRootZip (fst e)]
    else [FailedRemoveRootZip (fst e) OSError]
  else [].

(** The root directory once the old archives are removed. *)
Definition sweep (E : env) (rt : listing) : listing :=
  filter (fun e => negb (swept E e)) rt.

(** A page in which every anchor to an archive is the anchor of
    [stem].zip with the text [text]. *)
Definition relink_piece (stem text : string) (p : piece) : piece :=
  match p with
  | Plain s => Plain s
  | ArchiveLink _ _ => ArchiveLink stem text
  end.

(** A tree in which the removal of compiled files finds nothing. *)
Fixpoint no_target (n : node) : bool :=
  match n with
  | File _ _ => true
  | Dir _ l =>
      (fix all (es : listing) : bool :=
         match es with
         | [] => true
         | (name, c) :: es' => negb (targeted name c) && no_target c && all es'
         end) l
  end.

(** Whether the walk removes the directory [x] of [parent] as a cache. *)
Definition cache_removed (E : env) (parent : path) (x : string) : bool :=
  is_cache x && negb (deny_remove E (InRelease (parent ++ [x]))).

(** Whether the walk removes a directory on the path [p] below
    [parent]. *)
Fixpoint vanishes (E : env) (parent p : path) : bool :=
  match p with
  | [] => false
  | x :: p' => cache_removed E parent x || vanishes E (parent ++ [x]) p'
  end.

(** What the walk keeps of one entry of the directory [parent]. *)
Definition walked_entry (E : env) (parent : path) (e : string * node) : listing :=
  match snd e with
  | File _ _ =>
      if is_compiled (fst e) && negb (deny_remove E (InRelease (parent ++ [fst e])))
      then [] else [e]
  | Dir _ _ =>
      if cache_removed E parent (fst e) then []
      else [(fst e, fst (remove_binaries_in E (parent ++ [fst e]) (snd e)))]
  end.

(** An entry as the manifest format has it: tagged [addon], with an
    id. *)
Definition is_addon (e : Element) : bool :=
  String.eqb (tag e) "addon" && is_some (get e "id").

(** The entries of an id once a declaration [d] of that id is merged:
    the first gives way to [d] unless it has the version of [d]. *)
Definition merge_class (d : Element) (es : list Element) : list Element :=
  match es with
  | [] => [d]
  | e :: rest =>
      if Py.opt_eqb (get e "version") (get d "version") then es else d :: rest
  end.

(** Whether the merge of [d] changes the entries of its id. *)
Definition class_updated (d : Element) (es : list Element) : bool :=
  match es with
  | [] => true
  | e :: _ => negb (Py.opt_eqb (get e "version") (get d "version"))
  end.

(** The elements of one key. *)
Definition class {A} (key : A -> string) (j : string) (l : list A) : list A :=
  filter (fun a => String.eqb (key a) j) l.

(** ** More sample trees *)

Module Packed.

Definition decl : Element :=
  declaration [("id", "plugin.test"); ("version", "1.0.0")] [].

(** An add-on with a folder of resources and a version-control
    directory. *)
Definition folder : node :=
  Dir 0 [("addon.xml", File 0 (XmlDoc decl));
         ("resources", Dir 0 [("icon.png", empty_file); ("thumbs.db", empty_file)]);
         (".git", Dir 0 [("config", empty_file)])].

Definition w0 : world := mkWorld [("plugin.test", folder)] [] None [].

End Packed.

Module Screens.

Definition metadata : Element :=
  mkElement "extension" [("point", "xbmc.addon.metadata")] None
    [mkElement "assets" [] None
       [mkElement "screenshot" [] (Some "resources") [];
        mkElement "icon" [] (Some "icon.png") []]].

Definition decl : Element :=
  declaration [("id", "plugin.a"); ("version", "1.0")] [metadata].

(** The first asset names a directory; the icon is there. *)
Definition w0 : world :=
  mkWorld [("plugin.a", Dir 0 [("addon.xml", File 0 (XmlDoc decl));
                               ("resources", Dir 0 [("shot.png", File 0 (Blob "png"))]);
                               ("icon.png", File 0 (Blob "png"))]);
           ("zips", Dir 0 [])] [] None [].

End Screens.

Module Broken.

(** The first declaration is cut short; the second is in order. *)
Definition tree : listing :=
  [("plugin.bad", Dir 0 [("addon.xml", File 0 (Blob "<addon"))]);
   ("plugin.b", Dir 0 [("addon.xml", File 0 (XmlDoc Sample.decl_b))])].

Definition w0 : world := mkWorld tree [] None [].

End Broken.

Module Stale.

Definition gone : Element :=
  declaration [("id", "plugin.gone"); ("version", "0.9")] [].

Definition manifest : Element :=
  mkElement "addons" [] None [gone].

(** The manifest lists an add-on that the sources no longer hold. *)
Definition tree : listing :=
  [("plugin.a", Dir 0 [("addon.xml", File 0 (XmlDoc Sample.decl_a))]);
   ("zips", Dir 0 [("addons.xml", File 0 (XmlDoc manifest))])].

Definition w0 : world := mkWorld tree [] None [].

(** The manifest is no XML document. *)
Definition w_corrupt : world :=
  mkWorld [("plugin.a", Dir 0 [("addon.xml", File 0 (XmlDoc Sample.decl_a))]);
           ("zips", Dir 0 [("addons.xml", File 0 (Blob "<addons>"))])]
          [] None [].

End Stale.

Module ReadOnly.

(** An environment that refuses every write at the root, and one that
    refuses the write of the checksum. *)
Definition no_root_write : env :=
  mkEnv (fun _ => false)
        (fun l => match l with InRoot _ => true | InRelease _ => false end)
        0 (fun _ => "<addons/>") (fun _ => "0123456789abcdef") "repository.home".


End ReadOnly.

Module Root.

(** The output directory of [Output], with an old archive, a note and
    the index page at the root. *)
Definition listed : listing :=
  [("repository.home-1.0.zip", File 2 (ZipArchive []));
   ("README.md", empty_file);
   ("index.html", File 2 (Blob (render TwoLinks.page)))].

Definition w0 : world := mkWorld [("zips", Dir 0 Output.zl)] listed None [].

End Root.

Module Compiled.

(** A release directory with a compiled file and a cache directory. *)
Definition tree : listing :=
  [("plugin.a", Dir 0 [("addon.xml", File 0 (XmlDoc Sample.decl_a));
                       ("main.pyc", empty_file);
                       ("__pycache__", Dir 0 [("main.cpython-311.pyc", empty_file)])])].

Definition w0 : world := mkWorld tree [] None [].

(** Two add-ons; the folder of the second is named like a cache. *)
Definition caches : listing :=
  [("plugin.a", Dir 0 [("addon.xml", File 0 (XmlDoc Sample.decl_a))]);
   ("plugin.pycache", Dir 0 [("addon.xml", File 0 (XmlDoc Sample.decl_b))])].

Definition w_caches : world := mkWorld caches [] None [].

End Compiled.

Module Channels.


Definition E (r : string) : env := permissive "repository.home".

End Channels.

(* ================================================================== *)
(** * Properties *)
(* ================================================================== *)

Set Implicit Arguments.

(* ------------------------------------------------------------------ *)
(** ** The ignore list of the archive *)
(* ------------------------------------------------------------------ *)

Lemma remove_length x l : List.length (Py.remove x l) <= List.length l.
Proof.
  induction l as [|y l IH]; simpl; [lia|].
  destruct (String.eqb x y); simpl; lia.
Qed.

(** The loop over the files ends: the length of the list is fuel
    enough. *)
Lemma remove_matching_ends i :
  forall fuel idx files,
    List.length files - idx <= fuel ->
    remove_matching fuel idx i files <> None.
Proof.
  induction fuel as [|fuel IH]; intros idx files Hlen; simpl.
  - destruct (nth_error files idx) eqn:Hn; [|discriminate].
    assert (idx < List.length files) by (apply nth_error_Some; congruence).
    lia.
  - destruct (nth_error files idx) eqn:Hn; [|discriminate].
    assert (idx < List.length files) by (apply nth_error_Some; congruence).
    destruct (Py.startswith s i); apply IH.
    + pose proof (remove_length s files). lia.
    + lia.
Qed.

Lemma remove_ignored_files_ends i files :
  remove_matching (List.length files) 0 i files
  = Some (remove_ignored_files i files).
Proof.
  unfold remove_ignored_files.
  destruct (remove_matching (List.length files) 0 i files) eqn:H; [reflexivity|].
  exfalso. revert H. apply remove_matching_ends. lia.
Qed.

(** The loop over the files stops one short after each removal. *)
Lemma prune_skips_the_next_file :
  prune [".git"] ["addon.xml"; ".gitignore"; ".gitmodules"]
  = ([], ["addon.xml"; ".gitmodules"]).
Proof. reflexivity. Qed.

(** C2: the archive built for the add-on of [IgnoreList.tree] holds
    [.gitmodules], a file whose name starts with the ignore-list prefix
    [.git]: the file after a removed one is never tested.  The directory
    [.git] is left out. *)
Theorem create_zip_keeps_an_ignored_file :
  let run := _create_zip (permissive "home") ["plugin.test"]
                         (Some "plugin.test") (Some "1.0.0") IgnoreList.w0 in
  fst run = Ok tt
  /\ FS.lookup IgnoreList.archive (release (snd run))
     = Some (File 0 (ZipArchive [["plugin.test"; "addon.xml"];
                                 ["plugin.test"; ".gitmodules"]]))
  /\ Py.startswith ".gitmodules" ".git" = true
  /\ Py.mem ".git" IGNORE = true.
Proof. vm_compute. repeat split. Qed.

(* ------------------------------------------------------------------ *)
(** ** The manifest merge *)
(* ------------------------------------------------------------------ *)

Section FindAttr.

Variables t k v : string.

Lemma find_attr_none kids :
  (forall e, In e kids -> selects t k v e = false) ->
  find_attr t k v kids = None.
Proof.
  induction kids as [|c kids IH]; intros H; simpl; [reflexivity|].
  rewrite (H c (or_introl eq_refl)), IH; [reflexivity|].
  intros e He. apply H. now right.
Qed.

Lemma find_attr_first pre e post :
  (forall x, In x pre -> selects t k v x = false) ->
  selects t k v e = true ->
  find_attr t k v (pre ++ e :: post) = Some (List.length pre, e).
Proof.
  induction pre as [|c pre IH]; intros Hpre He; simpl.
  - now rewrite He.
  - rewrite (Hpre c (or_introl eq_refl)), IH; auto.
    intros x Hx. apply Hpre. now right.
Qed.

Lemma find_attr_some kids pos e :
  find_attr t k v kids = Some (pos, e) ->
  exists pre post,
    kids = pre ++ e :: post /\ List.length pre = pos
    /\ (forall x, In x pre -> selects t k v x = false)
    /\ selects t k v e = true.
Proof.
  revert pos. induction kids as [|c kids IH]; intros pos H; simpl in H; [discriminate|].
  destruct (selects t k v c) eqn:Hc.
  - inversion H; subst. exists [], kids. repeat split; auto. intros x [].
  - destruct (find_attr t k v kids) as [[j e']|] eqn:Hf; [|discriminate].
    inversion H; subst.
    destruct (IH j eq_refl) as (pre & post & -> & Hl & Hpre & He).
    exists (c :: pre), post. repeat split; simpl; auto.
    intros x [<-|Hx]; auto.
Qed.

(** What [find] returns, read off the children it selects. *)
Lemma find_attr_filter kids :
  option_map snd (find_attr t k v kids) = hd_error (filter (selects t k v) kids).
Proof.
  induction kids as [|c kids IH]; simpl; [reflexivity|].
  destruct (selects t k v c); simpl; [reflexivity|].
  rewrite <- IH. now destruct (find_attr t k v kids) as [[j e]|].
Qed.

End FindAttr.

Lemma delete_at_length {A} (pre : list A) e post :
  Py.delete (List.length pre) (pre ++ e :: post) = pre ++ post.
Proof. induction pre; simpl; congruence. Qed.

Lemma insert_at_length {A} (pre : list A) x post :
  Py.insert (List.length pre) x (pre ++ post) = pre ++ x :: post.
Proof.
  induction pre as [|a pre IH]; simpl; [now destruct post|]. now rewrite IH.
Qed.

Lemma index_in_findall_all t pre e post :
  Forall (fun x => tag x = t) pre ->
  index_in_findall t (pre ++ e :: post) (List.length pre) = List.length pre.
Proof.
  intros H. unfold index_in_findall.
  rewrite firstn_app, Nat.sub_diag, firstn_all. simpl. rewrite app_nil_r.
  induction H as [|x pre Hx _ IH]; simpl; [reflexivity|].
  rewrite Hx, String.eqb_refl. simpl. now rewrite IH.
Qed.

Lemma opt_eqb_eq a b : Py.opt_eqb a b = true <-> a = b.
Proof.
  destruct a, b; simpl; split; intros H; try congruence.
  - apply String.eqb_eq in H. congruence.
  - inversion H. apply String.eqb_refl.
Qed.

Lemma opt_eqb_neq a b : Py.opt_eqb a b = false <-> a <> b.
Proof.
  rewrite <- opt_eqb_eq. destruct (Py.opt_eqb a b); split; congruence.
Qed.

Section MergeCases.

Variable E : env.

Lemma merge_absent kids d i :
  get d "id" = Some i ->
  (forall e, In e kids -> is_entry i e = false) ->
  merge kids d = (kids ++ [d], true).
Proof.
  intros Hid Habs. unfold merge. rewrite Hid. simpl.
  now rewrite find_attr_none.
Qed.

Lemma merge_present kids d i pre e post :
  get d "id" = Some i ->
  kids = pre ++ e :: post ->
  (forall x, In x pre -> is_entry i x = false) ->
  is_entry i e = true ->
  merge kids d =
    if Py.opt_eqb (get e "version") (get d "version") then (kids, false)
    else (Py.insert (index_in_findall "addon" kids (List.length pre)) d (pre ++ post),
          true).
Proof.
  intros Hid -> Hpre He. unfold merge. rewrite Hid. simpl.
  rewrite (@find_attr_first _ _ _ pre e post Hpre He).
  destruct (Py.opt_eqb (get e "version") (get d "version")); simpl; [reflexivity|].
  now rewrite delete_at_length.
Qed.

End MergeCases.

(* ------------------------------------------------------------------ *)
(** ** What a rebuild leaves alone *)
(* ------------------------------------------------------------------ *)

Lemma nonzips_set n l : nonzips (FS.set "zips" n l) = nonzips l.
Proof.
  unfold nonzips.
  induction l as [|[k c] l IH]; [reflexivity|].
  cbn [FS.set].
  destruct (String.eqb_spec "zips" k) as [<-|Hk]; cbn [filter fst].
  - reflexivity.
  - now rewrite IH.
Qed.

Lemma put_under_zips q n l l' :
  FS.put ("zips" :: q) n l = Some l' -> nonzips l' = nonzips l.
Proof.
  cbn [FS.put]. destruct q as [|x q].
  - intros H; injection H as <-. apply nonzips_set.
  - destruct (FS.assoc "zips" l) as [[|m sub]|]; try discriminate.
    destruct (FS.put (x :: q) n sub); [|discriminate].
    intros H; injection H as <-. apply nonzips_set.
Qed.

Lemma makedirs_under_zips t q l l' :
  FS.makedirs t ("zips" :: q) l = Some l' -> nonzips l' = nonzips l.
Proof.
  cbn [FS.makedirs]. destruct (FS.assoc "zips" l) as [[|m sub]|]; try discriminate.
  - destruct (FS.makedirs t q sub); [|discriminate].
    intros H; injection H as <-. apply nonzips_set.
  - intros H; injection H as <-. apply nonzips_set.
Qed.

Lemma assoc_nonzips x l :
  x <> "zips" -> FS.assoc x (nonzips l) = FS.assoc x l.
Proof.
  intros Hx. unfold nonzips.
  induction l as [|[k c] l IH]; [reflexivity|].
  cbn [filter fst FS.assoc].
  destruct (String.eqb_spec k "zips") as [->|Hk]; cbn [negb FS.assoc].
  - destruct (String.eqb_spec x "zips"); [contradiction|]. exact IH.
  - destruct (String.eqb x k); [reflexivity|]. exact IH.
Qed.

Lemma lookup_nonzips x q l :
  x <> "zips" -> FS.lookup (x :: q) (nonzips l) = FS.lookup (x :: q) l.
Proof.
  intros Hx. unfold FS.lookup. cbn [FS.lookup_node]. now rewrite assoc_nonzips.
Qed.

Section KeepsSources.

Variable E : env.

Lemma keeps_ret A (a : A) : keeps_sources (ret a).
Proof. intros w. reflexivity. Qed.

Lemma keeps_raise A e : keeps_sources (@raise A e).
Proof. intros w. reflexivity. Qed.

Lemma keeps_print m : keeps_sources (print m).
Proof. intros w. reflexivity. Qed.

Lemma keeps_bind A B (m : M A) (k : A -> M B) :
  keeps_sources m -> (forall a, keeps_sources (k a)) -> keeps_sources (bind m k).
Proof.
  intros Hm Hk w. unfold bind. specialize (Hm w).
  destruct (m w) as [[a|e] w']; simpl in *; [|exact Hm].
  now rewrite Hk.
Qed.

Lemma keeps_try A (m : M A) (h : exn -> M A) :
  keeps_sources m -> (forall e, keeps_sources (h e)) -> keeps_sources (try_except m h).
Proof.
  intros Hm Hh w. unfold try_except. specialize (Hm w).
  destruct (m w) as [[a|e] w']; simpl in *; [exact Hm|].
  now rewrite Hh.
Qed.

Lemma keeps_for_each A (l : list A) (body : A -> M unit) :
  (forall x, In x l -> keeps_sources (body x)) -> keeps_sources (for_each l body).
Proof.
  induction l as [|x l IH]; intros H; simpl.
  - apply keeps_ret.
  - apply keeps_bind; [apply H; now left|].
    intros _. apply IH. intros y Hy. apply H. now right.
Qed.

Lemma keeps_exists p : keeps_sources (exists_ p).
Proof. intros w. reflexivity. Qed.

Lemma keeps_parse p : keeps_sources (parse p).
Proof.
  intros w. unfold parse.
  now destruct (FS.lookup p (release w)) as [[m [| |]|]|].
Qed.

Lemma keeps_if A (c : bool) (m1 m2 : M A) :
  keeps_sources m1 -> keeps_sources m2 -> keeps_sources (if c then m1 else m2).
Proof. now destruct c. Qed.

Lemma keeps_makedirs q : keeps_sources (makedirs E ("zips" :: q)).
Proof.
  intros w. unfold makedirs.
  destruct (deny_write E _); [reflexivity|].
  destruct (FS.makedirs _ _ _) eqn:H; [|reflexivity].
  simpl. eapply makedirs_under_zips; eauto.
Qed.

Lemma keeps_write_file q c : keeps_sources (write_file E ("zips" :: q) c).
Proof.
  intros w. unfold write_file.
  destruct (deny_write E _); [reflexivity|].
  destruct (FS.lookup _ _) as [[|]|];
    try reflexivity;
    (destruct (FS.put _ _ _) eqn:H; [|reflexivity];
     simpl; eapply put_under_zips; eauto).
Qed.

Lemma keeps_copy src q : keeps_sources (copy E src ("zips" :: q)).
Proof.
  intros w. unfold copy.
  destruct (FS.lookup src (release w)) as [[m c|]|]; try reflexivity.
  destruct (FS.lookup ("zips" :: q) (release w)) as [[|]|];
    apply keeps_write_file.
Qed.

Lemma bind_ret_l A B (a : A) (k : A -> M B) : bind (ret a) k = k a.
Proof. reflexivity. Qed.

Lemma bind_raise_l A B e (k : A -> M B) : bind (raise e) k = raise e.
Proof. reflexivity. Qed.

Lemma keeps_create_zip addon_folder addon_id version :
  keeps_sources (_create_zip E addon_folder addon_id version).
Proof.
  unfold _create_zip. destruct addon_id as [id|]; unfold join_opt.
  - rewrite bind_ret_l.
    apply keeps_bind; [apply keeps_exists|]. intros ex.
    apply keeps_bind; [apply keeps_if; [apply keeps_ret|apply keeps_makedirs]|].
    intros _. apply keeps_bind; [apply keeps_exists|]. intros ex0.
    apply keeps_if; [apply keeps_ret|].
    apply keeps_bind; [intros w; reflexivity|]. intros src.
    apply keeps_bind; [apply keeps_write_file|]. intros _. apply keeps_print.
  - rewrite bind_raise_l. apply keeps_raise.
Qed.

Lemma resolve_below base f :
  stays_below (Some f) = true -> resolve base (Some f) = Some (base ++ f).
Proof.
  unfold resolve, stays_below. destruct f as [|x f]; cbn [resolve_rev]; intros H.
  - now rewrite rev_involutive, app_nil_r.
  - destruct (String.eqb x ".."); [discriminate|]. now rewrite rev_involutive.
Qed.

Lemma keeps_copy_one src id file :
  stays_below file = true ->
  keeps_sources (copy_one E src (zips_path ++ [id]) file).
Proof.
  intros Hb. unfold copy_one. destruct file as [f|].
  - rewrite (resolve_below (zips_path ++ [id]) f Hb).
    destruct (resolve src (Some f)) as [addon_path|]; [|apply keeps_ret].
    apply keeps_bind; [apply keeps_exists|]. intros ex.
    apply keeps_if; [apply keeps_ret|].
    change ((zips_path ++ [id]) ++ f) with ("zips" :: id :: f).
    destruct f as [|x f].
    + apply keeps_bind; [apply keeps_exists|]. intros ex'.
      apply keeps_bind; [apply keeps_if; [apply keeps_ret|apply keeps_makedirs]|].
      intros _. apply keeps_copy.
    + change (removelast ("zips" :: id :: x :: f))
        with ("zips" :: removelast (id :: x :: f)).
      apply keeps_bind; [apply keeps_exists|]. intros ex'.
      apply keeps_bind; [apply keeps_if; [apply keeps_ret|apply keeps_makedirs]|].
      intros _. apply keeps_copy.
  - simpl. destruct (resolve src None); apply keeps_ret.
Qed.

End KeepsSources.

(* ------------------------------------------------------------------ *)
(** ** The merge loop as a function of the declarations *)
(* ------------------------------------------------------------------ *)

Lemma parse_declared p w :
  parse (p ++ ["addon.xml"]) w = (declared (release w) p, w).
Proof.
  unfold parse, declared.
  now destruct (FS.lookup (p ++ ["addon.xml"]) (release w)) as [[m [| |]|]|].
Qed.

Lemma declared_nonzips x q l :
  x <> "zips" -> declared (nonzips l) (x :: q) = declared l (x :: q).
Proof.
  intros Hx. unfold declared.
  change ((x :: q) ++ ["addon.xml"]) with (x :: (q ++ ["addon.xml"])).
  now rewrite lookup_nonzips.
Qed.

Section Loop.

Variable E : env.

Lemma keeps_copy_meta_files src id w d :
  declared (release w) src = Ok d ->
  forallb stays_below (copyfiles_of d) = true ->
  nonzips (release (snd (_copy_meta_files E src id w))) = nonzips (release w).
Proof.
  intros Hd Hb. unfold _copy_meta_files, bind at 1.
  rewrite parse_declared, Hd.
  destruct id as [id|]; unfold join_opt.
  - rewrite bind_ret_l. apply keeps_for_each.
    intros f Hf. apply keeps_copy_one.
    rewrite forallb_forall in Hb. now apply Hb.
  - reflexivity.
Qed.

Lemma rebuild_returns p id version st w :
  fst (rebuild E p id version st w) = Ok st.
Proof.
  unfold rebuild, try_except, bind, ret, print.
  destruct (_create_zip E p id version w) as [[[]|e] w1]; simpl; [|reflexivity].
  destruct (_copy_meta_files E p id w1) as [[[]|e] w2]; reflexivity.
Qed.

Lemma keeps_rebuild x q id version st w d :
  x <> "zips" ->
  declared (release w) (x :: q) = Ok d ->
  forallb stays_below (copyfiles_of d) = true ->
  nonzips (release (snd (rebuild E (x :: q) id version st w))) = nonzips (release w).
Proof.
  intros Hx Hd Hb. unfold rebuild, try_except, bind at 1.
  pose proof (keeps_create_zip E (x :: q) id version w) as H1.
  destruct (_create_zip E (x :: q) id version w) as [[[]|e] w1]; simpl in H1.
  - unfold bind at 1.
    assert (Hd1 : declared (release w1) (x :: q) = Ok d).
    { rewrite <- declared_nonzips, H1, declared_nonzips; auto. }
    pose proof (keeps_copy_meta_files (x :: q) id w1 Hd1 Hb) as H2.
    destruct (_copy_meta_files E (x :: q) id w1) as [[[]|e] w2]; simpl in *;
      congruence.
  - simpl. exact H1.
Qed.

(** One round of the loop on a declaration that parses. *)
Lemma process_addon_parsed st x q w d :
  x <> "zips" ->
  declared (release w) (x :: q) = Ok d ->
  forallb stays_below (copyfiles_of d) = true ->
  exists w',
    process_addon E st (x :: q) w = (Ok (merge_step st d), w')
    /\ nonzips (release w') = nonzips (release w).
Proof.
  intros Hx Hd Hb. unfold process_addon, merge_step.
  rewrite parse_declared, Hd.
  destruct (merge (fst st) d) as [kids updated]. destruct updated.
  - pose proof (rebuild_returns (x :: q) (get d "id") (get d "version")
                                (kids, snd st || true) w) as Hr.
    pose proof (keeps_rebuild q (get d "id") (get d "version")
                              (kids, snd st || true) w Hx Hd Hb) as Hk.
    unfold rebuild in Hr, Hk.
    destruct (try_except _ _ w) as [r w'] eqn:Ht. simpl in Hr, Hk. subst r.
    exists w'. split; [reflexivity|exact Hk].
  - exists w. split; reflexivity.
Qed.

(** A round that finds its entry up to date changes nothing at all. *)
Lemma process_addon_up_to_date st p w d :
  declared (release w) p = Ok d ->
  merge (fst st) d = (fst st, false) ->
  process_addon E st p w = (Ok st, w).
Proof.
  intros Hd Hm. unfold process_addon. rewrite parse_declared, Hd, Hm.
  destruct st as [kids changed]. simpl. now rewrite orb_false_r.
Qed.

Lemma wf_decl_below d : wf_decl d = true -> forallb stays_below (copyfiles_of d) = true.
Proof. unfold wf_decl. intros H. now apply andb_true_iff in H as [_ H]. Qed.

Lemma declarations_cons l p ps d :
  declared l p = Ok d -> declarations l (p :: ps) = d :: declarations l ps.
Proof. intros H. unfold declarations. simpl. now rewrite H. Qed.

Lemma loop_merges folders :
  forall st w,
    Forall (source_folder (nonzips (release w))) folders ->
    exists w',
      for_fold folders (process_addon E) st w
      = (Ok (merge_all st (declarations (nonzips (release w)) folders)), w')
      /\ nonzips (release w') = nonzips (release w).
Proof.
  induction folders as [|p folders IH]; intros st w Hf.
  - exists w. split; reflexivity.
  - inversion Hf as [|? ? (x & q & d & -> & Hx & Hd & Hwf) Hrest]; subst.
    assert (Hd' : declared (release w) (x :: q) = Ok d)
      by (rewrite <- declared_nonzips; auto).
    destruct (process_addon_parsed st q w Hx Hd' (wf_decl_below d Hwf))
      as (w1 & Hstep & Hk1).
    rewrite <- Hk1 in Hrest.
    destruct (IH (merge_step st d) w1 Hrest) as (w' & Hloop & Hk).
    exists w'. split; [|congruence].
    rewrite (@declarations_cons _ _ folders _ Hd).
    cbn [for_fold]. unfold bind at 1. rewrite Hstep, Hloop, Hk1. reflexivity.
Qed.

Lemma loop_up_to_date folders :
  forall kids w,
    Forall (fun p => exists d, declared (release w) p = Ok d
                               /\ merge kids d = (kids, false)) folders ->
    for_fold folders (process_addon E) (kids, false) w = (Ok (kids, false), w).
Proof.
  induction folders as [|p folders IH]; intros kids w Hf; [reflexivity|].
  inversion Hf as [|? ? (d & Hd & Hm) Hrest]; subst.
  simpl. unfold bind at 1.
  rewrite (process_addon_up_to_date (kids, false) p w Hd Hm).
  now apply IH.
Qed.

End Loop.

(* ------------------------------------------------------------------ *)
(** ** Discovery looks outside the output folder only *)
(* ------------------------------------------------------------------ *)

Lemma flat_map_filter {A B} (f : A -> list B) (g : A -> bool) l :
  (forall a, g a = false -> f a = []) ->
  flat_map f (filter g l) = flat_map f l.
Proof.
  intros H. induction l as [|a l IH]; simpl; [reflexivity|].
  destruct (g a) eqn:Hg; simpl; rewrite IH; [reflexivity|].
  now rewrite (H a Hg).
Qed.

Lemma get_addon_folders_nonzips l :
  get_addon_folders (nonzips l) = get_addon_folders l.
Proof.
  unfold get_addon_folders, nonzips. apply flat_map_filter.
  intros [k c] Hk. cbn [fst snd] in *.
  apply negb_false_iff in Hk. rewrite Hk. now destruct c.
Qed.

Lemma nested_addons_head base l p :
  In p (nested_addons base l) -> exists name, p = base ++ [name].
Proof.
  unfold nested_addons. rewrite in_flat_map. intros ([k c] & _ & Hp).
  cbn [fst snd] in Hp. destruct c as [|m sub]; [contradiction|].
  destruct (_ && _); [|contradiction].
  destruct Hp as [<-|[]]. now exists k.
Qed.

Lemma get_addon_folders_head l p :
  In p (get_addon_folders l) -> exists x q, p = x :: q /\ x <> "zips".
Proof.
  unfold get_addon_folders. rewrite in_flat_map. intros ([k c] & _ & Hp).
  cbn [fst snd] in Hp. destruct c as [|m sub]; [contradiction|].
  destruct (String.eqb_spec k "zips") as [->|Hk]; [contradiction|].
  cbn [orb] in Hp. destruct (Py.startswith k "."); [contradiction|].
  destruct (has_addon_xml sub).
  - destruct Hp as [<-|[]]. now exists k, [].
  - destruct (FS.assoc "repo" sub) as [[|m' nested]|]; try contradiction.
    apply nested_addons_head in Hp as (name & ->).
    now exists k, ["repo"; name].
Qed.

Lemma declarations_nonzips l folders :
  (forall p, In p folders -> exists x q, p = x :: q /\ x <> "zips") ->
  declarations (nonzips l) folders = declarations l folders.
Proof.
  intros H. unfold declarations.
  induction folders as [|p folders IH]; simpl; [reflexivity|].
  destruct (H p (or_introl eq_refl)) as (x & q & -> & Hx).
  rewrite declared_nonzips by assumption.
  rewrite IH; [reflexivity|]. intros p' Hp'. apply H. now right.
Qed.

Lemma well_formed_sources l :
  well_formed l = true ->
  Forall (source_folder (nonzips l)) (get_addon_folders l).
Proof.
  unfold well_formed. intros H. apply andb_true_iff in H as [H _].
  rewrite forallb_forall in H. apply Forall_forall. intros p Hp.
  destruct (get_addon_folders_head l p Hp) as (x & q & -> & Hx).
  specialize (H _ Hp).
  destruct (declared l (x :: q)) as [d|e] eqn:Hd; [|discriminate].
  exists x, q, d. repeat split; auto.
  now rewrite declared_nonzips.
Qed.

(* ------------------------------------------------------------------ *)
(** ** The entries of an id through merge and sort *)
(* ------------------------------------------------------------------ *)

Lemma is_entry_true i e :
  is_entry i e = true <-> tag e = "addon" /\ get e "id" = Some i.
Proof.
  unfold is_entry, selects. rewrite andb_true_iff, String.eqb_eq, opt_eqb_eq.
  reflexivity.
Qed.

Lemma is_entry_other i j e :
  get e "id" = Some j -> i <> j -> is_entry i e = false.
Proof.
  intros Hj Hij. destruct (is_entry i e) eqn:H; [|reflexivity].
  apply is_entry_true in H as [_ H]. congruence.
Qed.

Lemma insert_split {A} k (x : A) pre post :
  k <= List.length pre ->
  Py.insert k x (pre ++ post) = firstn k pre ++ x :: skipn k pre ++ post.
Proof.
  revert pre. induction k as [|k IH]; intros pre Hk; [reflexivity|].
  destruct pre as [|a pre]; simpl in Hk; [lia|].
  simpl. rewrite IH by lia. reflexivity.
Qed.

Lemma index_in_findall_le t pre e post :
  index_in_findall t (pre ++ e :: post) (List.length pre) <= List.length pre.
Proof.
  unfold index_in_findall.
  rewrite firstn_app, Nat.sub_diag, firstn_all. simpl. rewrite app_nil_r.
  apply filter_length_le.
Qed.

(** The index taken among the [addon] children counts those before the
    entry. *)
Lemma index_in_findall_count t pre e post :
  index_in_findall t (pre ++ e :: post) (List.length pre)
  = List.length (filter (fun x => String.eqb (tag x) t) pre).
Proof.
  unfold index_in_findall.
  rewrite firstn_app, Nat.sub_diag, firstn_all. simpl. now rewrite app_nil_r.
Qed.

Lemma filter_all_length {A} (f : A -> bool) l :
  Forall (fun x => f x = true) l -> List.length (filter f l) = List.length l.
Proof.
  induction 1 as [|x l Hx _ IH]; [reflexivity|].
  cbn [filter]. rewrite Hx. cbn [List.length]. now rewrite IH.
Qed.

(** C4, as the code has it: the three cases of the merge of one parsed
    declaration [d], of an id [i] without apostrophe, into the children
    [kids] of the manifest.  With no entry of that id the declaration is
    appended and the add-on is rebuilt.  With an entry [e] of another
    version, [e] is removed and [d] is inserted at the index that [e] has
    among the children tagged [addon], and the add-on is rebuilt: [d]
    stands where [e] stood when every child before [e] is tagged
    [addon], and further to the front otherwise.  With an entry of the
    same version the children, the flag and the world are left as they
    are. *)
Theorem merge_case_analysis
        (E : env) (kids : list Element) (changed : bool) (addon_path : path)
        (w : world) (d : Element) (i : string) :
  parse (addon_path ++ ["addon.xml"]) w = (Ok d, w) ->
  get d "id" = Some i ->
  plain_id i = true ->
  ((forall e, In e kids -> is_entry i e = false) ->
   process_addon E (kids, changed) addon_path w
   = rebuild E addon_path (Some i) (get d "version") (kids ++ [d], true) w)
  /\
  (forall pre e post,
      kids = pre ++ e :: post ->
      (forall x, In x pre -> is_entry i x = false) ->
      is_entry i e = true ->
      (get e "version" <> get d "version" ->
       let k := List.length (filter (fun x => String.eqb (tag x) "addon") pre) in
       process_addon E (kids, changed) addon_path w
       = rebuild E addon_path (Some i) (get d "version")
                 (firstn k pre ++ d :: skipn k pre ++ post, true) w
       /\ (Forall (fun x => tag x = "addon") pre ->
           firstn k pre ++ d :: skipn k pre ++ post = pre ++ d :: post))
      /\
      (get e "version" = get d "version" ->
       process_addon E (kids, changed) addon_path w = (Ok (kids, changed), w))).
Proof.
  intros Hparse Hid _. split.
  - intros Habs. unfold process_addon. rewrite Hparse. simpl fst; simpl snd.
    rewrite (@merge_absent kids d i Hid Habs), Hid.
    now rewrite orb_true_r.
  - intros pre e post Hk Hpre He.
    unfold process_addon. rewrite Hparse. simpl fst; simpl snd.
    rewrite (@merge_present kids d i pre e post Hid Hk Hpre He), Hid. split; intros Hv.
    + apply opt_eqb_neq in Hv. rewrite Hv, orb_true_r. subst kids.
      rewrite index_in_findall_count. cbv zeta.
      set (k := List.length (filter (fun x => String.eqb (tag x) "addon") pre)).
      split.
      * rewrite insert_split by apply filter_length_le. reflexivity.
      * intros Htag.
        assert (Hlen : k = List.length pre).
        { apply filter_all_length. rewrite Forall_forall in *.
          intros x Hx. rewrite (Htag x Hx). apply String.eqb_refl. }
        rewrite Hlen, firstn_all, skipn_all. reflexivity.
    + apply opt_eqb_eq in Hv. rewrite Hv, orb_false_r. reflexivity.
Qed.

Lemma entries_none i l :
  (forall x, In x l -> is_entry i x = false) <-> entries i l = [].
Proof.
  unfold entries. split.
  - intros H. induction l as [|a l IH]; simpl; [reflexivity|].
    rewrite (H a (or_introl eq_refl)). apply IH. intros x Hx. apply H. now right.
  - intros H x Hx. destruct (is_entry i x) eqn:Hix; [|reflexivity].
    assert (Hin : In x (filter (is_entry i) l)) by (apply filter_In; auto).
    rewrite H in Hin. contradiction.
Qed.

Lemma merge_merged kids d i :
  get d "id" = Some i -> merged i kids d (merge kids d).
Proof.
  intros Hid. unfold merge. rewrite Hid. cbn [Py.str].
  destruct (find_attr "addon" "id" i kids) as [[pos e]|] eqn:Hf.
  - apply find_attr_some in Hf as (pre & post & -> & <- & Hpre & He).
    destruct (Py.opt_eqb (get e "version") (get d "version")) eqn:Hv; cbn [negb].
    + apply merged_same with e.
      * unfold entries. rewrite filter_app.
        apply entries_none in Hpre. unfold entries in Hpre. rewrite Hpre.
        simpl. unfold is_entry in *. now rewrite He.
      * now apply opt_eqb_eq.
    + rewrite delete_at_length, insert_split by apply index_in_findall_le.
      eapply merged_replaced; eauto.
      * now apply entries_none.
      * apply index_in_findall_le.
  - apply merged_new. apply entries_none. intros x Hx.
    destruct (is_entry i x) eqn:Hix; [|reflexivity].
    apply in_split in Hx as (l1 & l2 & ->).
    assert (Hn : option_map snd (find_attr "addon" "id" i (l1 ++ x :: l2)) = None)
      by now rewrite Hf.
    rewrite find_attr_filter, filter_app in Hn. simpl in Hn.
    unfold is_entry in Hix. rewrite Hix in Hn.
    destruct (filter (selects "addon" "id" i) l1); discriminate.
Qed.

Lemma entries_firstn_skipn i k pre :
  entries i pre = [] -> entries i (firstn k pre) = [] /\ entries i (skipn k pre) = [].
Proof.
  intros H. rewrite <- (firstn_skipn k pre) in H. unfold entries in *.
  rewrite filter_app in H. now apply app_eq_nil in H.
Qed.

(** After its merge, the first entry of the id carries the version of
    the declaration. *)
Lemma merge_own i kids d :
  tag d = "addon" -> get d "id" = Some i ->
  exists e, hd_error (entries i (fst (merge kids d))) = Some e
            /\ get e "version" = get d "version".
Proof.
  intros Ht Hid.
  assert (Hd : is_entry i d = true) by (apply is_entry_true; auto).
  destruct (merge_merged kids d Hid) as [e He Hv|Hnone|pre e post k -> Hpre He Hk];
    cbn [fst].
  - now exists e.
  - exists d. unfold entries in *. rewrite filter_app, Hnone. simpl.
    now rewrite Hd.
  - exists d. destruct (@entries_firstn_skipn i k pre Hpre) as [H1 H2].
    unfold entries in *. rewrite filter_app, H1. simpl. now rewrite Hd.
Qed.

(** The merge of a declaration leaves the entries of every other id. *)
Lemma merge_other i j kids d :
  get d "id" = Some i -> j <> i ->
  entries j (fst (merge kids d)) = entries j kids.
Proof.
  intros Hid Hji.
  assert (Hd : is_entry j d = false) by (eapply is_entry_other; eauto).
  destruct (merge_merged kids d Hid) as [e He Hv|Hnone|pre e post k -> Hpre He Hk];
    cbn [fst].
  - reflexivity.
  - unfold entries. rewrite filter_app. simpl. rewrite Hd. apply app_nil_r.
  - apply is_entry_true in He as [_ He].
    assert (He' : is_entry j e = false) by (eapply is_entry_other; eauto).
    unfold entries. rewrite !filter_app. simpl. rewrite Hd, He'.
    rewrite filter_app, app_assoc, <- filter_app, firstn_skipn. reflexivity.
Qed.

Lemma merge_up_to_date i kids d e :
  get d "id" = Some i ->
  hd_error (entries i kids) = Some e ->
  get e "version" = get d "version" ->
  merge kids d = (kids, false).
Proof.
  intros Hid He Hv. unfold merge. rewrite Hid. cbn [Py.str].
  unfold entries, is_entry in He. rewrite <- find_attr_filter in He.
  destruct (find_attr "addon" "id" i kids) as [[pos e']|]; [|discriminate].
  simpl in He. injection He as ->.
  apply opt_eqb_eq in Hv. now rewrite Hv.
Qed.

Lemma merge_false kids d kids' :
  merge kids d = (kids', false) -> kids' = kids.
Proof.
  unfold merge.
  destruct (find_attr _ _ _ kids) as [[pos e]|]; [|discriminate].
  destruct (negb _); [discriminate|]. congruence.
Qed.

(** Sorting keeps the entries of an id in their order. *)
Section Stable.

Variables (A K : Type) (key : A -> K) (leb : K -> K -> bool).
Variables (f : A -> bool) (k0 : K).
Hypothesis f_key : forall y, f y = true -> key y = k0.
Hypothesis leb_refl : leb k0 k0 = true.

Lemma filter_insert_sorted x l :
  filter f (Py.insert_sorted key leb x l) = filter f (x :: l).
Proof.
  induction l as [|y l IH]; [reflexivity|].
  cbn [Py.insert_sorted].
  destruct (leb (key x) (key y)) eqn:Hxy; [reflexivity|].
  cbn [filter] in *. rewrite IH.
  destruct (f x) eqn:Hx, (f y) eqn:Hy; try reflexivity.
  rewrite (f_key Hx), (f_key Hy), leb_refl in Hxy. discriminate.
Qed.

Lemma filter_sorted l : filter f (Py.sorted key leb l) = filter f l.
Proof.
  induction l as [|x l IH]; [reflexivity|].
  unfold Py.sorted in *. cbn [fold_right].
  rewrite filter_insert_sorted. cbn [filter]. now rewrite IH.
Qed.

End Stable.

Lemma string_leb_refl s : String.leb s s = true.
Proof.
  now destruct (String.leb_total s s).
Qed.

Lemma sorted_by_id_ok kids kids' :
  sorted_by_id kids = Ok kids' -> kids' = Py.sorted id_key String.leb kids.
Proof.
  unfold sorted_by_id. destruct kids as [|a [|b kids]]; intros H.
  - now injection H as <-.
  - now injection H as <-.
  - destruct (forallb _ _); [|discriminate]. now injection H as <-.
Qed.

Lemma sorted_by_id_entries i kids kids' :
  sorted_by_id kids = Ok kids' -> entries i kids' = entries i kids.
Proof.
  intros H. rewrite (sorted_by_id_ok kids H).
  apply filter_sorted with (k0 := i).
  - intros y Hy. apply is_entry_true in Hy as [_ Hy]. unfold id_key. now rewrite Hy.
  - apply string_leb_refl.
Qed.

Lemma wf_decl_id d :
  wf_decl d = true -> tag d = "addon" /\ exists i, get d "id" = Some i /\ id_key d = i.
Proof.
  unfold wf_decl, id_key. intros H.
  apply andb_true_iff in H as [H _]. apply andb_true_iff in H as [Ht Hi].
  apply String.eqb_eq in Ht. split; [exact Ht|].
  destruct (get d "id") as [i|]; [|discriminate]. now exists i.
Qed.

Lemma distinct_cons x l :
  distinct (x :: l) = true -> ~ In x l /\ distinct l = true.
Proof.
  cbn [distinct]. intros H. apply andb_true_iff in H as [Hx Hl]. split; [|exact Hl].
  intros Hin. apply negb_true_iff in Hx. unfold Py.mem in Hx.
  assert (existsb (String.eqb x) l = true)
    by (apply existsb_exists; exists x; split; [exact Hin|apply String.eqb_refl]).
  congruence.
Qed.

Lemma merge_all_other j ds :
  forall st,
    (forall d, In d ds -> exists i, get d "id" = Some i /\ j <> i) ->
    entries j (fst (merge_all st ds)) = entries j (fst st).
Proof.
  induction ds as [|d ds IH]; intros st H; [reflexivity|].
  cbn [merge_all fold_left]. fold (merge_all (merge_step st d) ds).
  rewrite IH by (intros d' Hd'; apply H; now right).
  destruct (H d (or_introl eq_refl)) as (i & Hid & Hji).
  unfold merge_step.
  pose proof (merge_other (fst st) d Hid Hji) as Hm.
  now destruct (merge (fst st) d).
Qed.

(** After the loop every declaration finds, as the first entry of its
    id, one of its own version. *)
Lemma merge_all_own ds :
  forall st,
    Forall (fun d => wf_decl d = true) ds ->
    distinct (map id_key ds) = true ->
    Forall (fun d => exists e,
                hd_error (entries (id_key d) (fst (merge_all st ds))) = Some e
                /\ get e "version" = get d "version") ds.
Proof.
  induction ds as [|d ds IH]; intros st Hwf Hdis; [constructor|].
  inversion Hwf as [|? ? Hd Hds]; subst.
  cbn [map] in Hdis. apply distinct_cons in Hdis as [Hnotin Hdis].
  cbn [merge_all fold_left]. fold (merge_all (merge_step st d) ds).
  constructor; [|now apply IH].
  destruct (wf_decl_id d Hd) as (Ht & i & Hid & Hkey). rewrite Hkey.
  rewrite merge_all_other.
  - unfold merge_step.
    pose proof (merge_own (fst st) d Ht Hid) as Hm.
    now destruct (merge (fst st) d).
  - intros d' Hd'. rewrite Forall_forall in Hds.
    destruct (wf_decl_id d' (Hds d' Hd')) as (_ & i' & Hid' & Hkey').
    exists i'. split; [exact Hid'|]. intros <-.
    apply Hnotin. rewrite Hkey, <- Hkey'. now apply in_map.
Qed.

Lemma merge_all_unchanged ds :
  forall kids changed,
    snd (merge_all (kids, changed) ds) = false ->
    changed = false
    /\ merge_all (kids, changed) ds = (kids, false)
    /\ Forall (fun d => merge kids d = (kids, false)) ds.
Proof.
  induction ds as [|d ds IH]; intros kids changed H.
  - cbn in H. subst. repeat split. constructor.
  - cbn [merge_all fold_left] in *. fold (merge_all (merge_step (kids, changed) d) ds) in *.
    unfold merge_step in *. cbn [fst snd] in *.
    destruct (merge kids d) as [kids1 updated] eqn:Hm.
    destruct (IH _ _ H) as (Hc & Hall & Hrest).
    apply orb_false_iff in Hc as [-> ->].
    pose proof (merge_false kids d Hm) as ->.
    repeat split; [exact Hall|]. constructor; assumption.
Qed.

(* ------------------------------------------------------------------ *)
(** ** Two runs in a row *)
(* ------------------------------------------------------------------ *)

Lemma assoc_set_same x n l : FS.assoc x (FS.set x n l) = Some n.
Proof.
  induction l as [|[k c] l IH]; cbn [FS.set FS.assoc].
  - now rewrite String.eqb_refl.
  - destruct (String.eqb x k) eqn:Hk; cbn [FS.assoc]; rewrite Hk; auto.
Qed.

Lemma lookup_node_mtime p m m' l :
  p <> [] -> FS.lookup_node p (Dir m l) = FS.lookup_node p (Dir m' l).
Proof. destruct p; [congruence|reflexivity]. Qed.

Lemma put_step x y p n l :
  FS.put (x :: y :: p) n l =
  match FS.assoc x l with
  | Some (Dir m sub) =>
      match FS.put (y :: p) n sub with
      | Some sub' => Some (FS.set x (Dir m sub') l)
      | None => None
      end
  | _ => None
  end.
Proof. reflexivity. Qed.

Lemma lookup_put p :
  forall n l l', FS.put p n l = Some l' -> FS.lookup p l' = Some n.
Proof.
  unfold FS.lookup.
  induction p as [|x p IH]; intros n l l' H; [discriminate|].
  destruct p as [|y p].
  - cbn [FS.put] in H. injection H as <-.
    cbn [FS.lookup_node]. now rewrite assoc_set_same.
  - rewrite put_step in H.
    destruct (FS.assoc x l) as [[|m sub]|]; try discriminate.
    destruct (FS.put (y :: p) n sub) as [sub'|] eqn:Hp; [|discriminate].
    injection H as <-.
    change (FS.lookup_node (x :: y :: p) (Dir 0 (FS.set x (Dir m sub') l)))
      with (match FS.assoc x (FS.set x (Dir m sub') l) with
            | Some c => FS.lookup_node (y :: p) c
            | None => None
            end).
    rewrite assoc_set_same.
    rewrite (lookup_node_mtime m 0) by discriminate. eapply IH; eauto.
Qed.

Lemma write_file_lookup E p c w w' :
  write_file E p c w = (Ok tt, w') ->
  FS.lookup p (release w') = Some (File (now E) c).
Proof.
  unfold write_file. destruct (deny_write E _); [discriminate|].
  destruct (FS.lookup p (release w)) as [[|]|];
    try discriminate;
    (destruct (FS.put _ _ _) eqn:Hp; [|discriminate];
     intros H; injection H as <-; cbn; eapply lookup_put; eauto).
Qed.

Lemma generate_addons_file_unfold E w :
  _generate_addons_file E w =
  match manifest_root (release w) with
  | Raise e => (Raise e, w)
  | Ok addons_root =>
      match for_fold (get_addon_folders (release w)) (process_addon E)
                     (children addons_root, false) w with
      | (Ok st, wl) => write_back E addons_root st wl
      | (Raise e, wl) => (Raise e, wl)
      end
  end.
Proof.
  unfold _generate_addons_file, manifest_root, bind at 1, exists_.
  destruct (FS.lookup addons_xml_path (release w)) as [[m [| |]|]|] eqn:Hl;
    cbn [is_some]; unfold bind at 1; unfold parse; try rewrite Hl;
    try reflexivity;
    (unfold bind at 1, _get_addon_folders; unfold bind at 1;
     destruct (for_fold _ _ _ w) as [[[kids changed]|e] wl]; reflexivity).
Qed.

Lemma find_attr_of_entries i kids e :
  hd_error (entries i kids) = Some e ->
  exists pos, find_attr "addon" "id" i kids = Some (pos, e).
Proof.
  unfold entries, is_entry. rewrite <- find_attr_filter.
  destruct (find_attr "addon" "id" i kids) as [[pos e']|]; [|discriminate].
  simpl. intros H; injection H as ->. now exists pos.
Qed.

Lemma merge_up_to_date_found kids d :
  merge kids d = (kids, false) ->
  exists pos e,
    find_attr "addon" "id" (Py.str (get d "id")) kids = Some (pos, e)
    /\ get e "version" = get d "version".
Proof.
  unfold merge.
  destruct (find_attr _ _ _ kids) as [[pos e]|]; [|discriminate].
  destruct (Py.opt_eqb (get e "version") (get d "version")) eqn:Hv;
    [|discriminate].
  intros _. exists pos, e. split; [reflexivity|]. now apply opt_eqb_eq.
Qed.

Lemma sources_declarations l folders (P : Element -> Prop) :
  Forall (source_folder l) folders ->
  Forall P (declarations l folders) ->
  Forall (fun p => exists d, declared l p = Ok d /\ P d) folders.
Proof.
  induction folders as [|p folders IH]; intros Hs Hd; [constructor|].
  inversion Hs as [|? ? (x & q & d & -> & Hx & Hdecl & Hwf) Hrest]; subst.
  rewrite (@declarations_cons _ _ folders _ Hdecl) in Hd.
  inversion Hd; subst. constructor; [now exists d|]. now apply IH.
Qed.

Lemma sources_wf l folders :
  Forall (source_folder l) folders ->
  Forall (fun d => wf_decl d = true) (declarations l folders).
Proof.
  induction folders as [|p folders IH]; intros Hs; [constructor|].
  inversion Hs as [|? ? (x & q & d & -> & Hx & Hdecl & Hwf) Hrest]; subst.
  rewrite (@declarations_cons _ _ folders _ Hdecl). constructor; auto.
Qed.

Lemma sources_transport l l' folders (P : Element -> Prop) :
  nonzips l' = nonzips l ->
  Forall (source_folder (nonzips l)) folders ->
  Forall (fun p => exists d, declared (nonzips l) p = Ok d /\ P d) folders ->
  Forall (fun p => exists d, declared l' p = Ok d /\ P d) folders.
Proof.
  intros Hn Hs H. rewrite Forall_forall in *. intros p Hp.
  destruct (Hs p Hp) as (x & q & _ & -> & Hx & _).
  destruct (H _ Hp) as (d & Hd & HP). exists d. split; [|exact HP].
  now rewrite <- declared_nonzips, Hn.
Qed.

(** A run on a manifest in which every declaration finds its version. *)
Lemma run_up_to_date E w addons_root :
  manifest_root (release w) = Ok addons_root ->
  Forall (fun p => exists d, declared (release w) p = Ok d
                             /\ merge (children addons_root) d
                                = (children addons_root, false))
         (get_addon_folders (release w)) ->
  _generate_addons_file E w = (Ok false, w)
  /\ update_manifest E w = (Ok tt, w).
Proof.
  intros Hroot Hall.
  assert (H : _generate_addons_file E w = (Ok false, w)).
  { rewrite generate_addons_file_unfold, Hroot.
    now rewrite (@loop_up_to_date E _ _ _ Hall). }
  split; [exact H|]. unfold update_manifest, bind. now rewrite H.
Qed.

(** C1: a second run after a successful one writes nothing.  [w1] is the
    world in which the first run reaches the manifest and [w1'] the one
    in which it leaves it, without an exception and without an error on
    the manifest.  [w2] is the world of the second run: outside the
    output folder it is as in the first run, and the manifest is the file
    the first run left.  The second run then returns without having
    changed anything in the world: no file is written, the checksum is
    not computed, and each add-on finds the entry of its id with its own
    version. *)
Theorem second_run_changes_nothing (E E' : env) (w1 w1' w2 : world) (b : bool) :
  well_formed (release w1) = true ->
  _generate_addons_file E w1 = (Ok b, w1') ->
  existsb is_manifest_error (stdout w1') = false ->
  nonzips (release w2) = nonzips (release w1) ->
  FS.lookup addons_xml_path (release w2) = FS.lookup addons_xml_path (release w1') ->
  _generate_addons_file E' w2 = (Ok false, w2)
  /\ update_manifest E' w2 = (Ok tt, w2)
  /\ exists addons_root,
      manifest_root (release w2) = Ok addons_root
      /\ forall p, In p (get_addon_folders (release w2)) ->
           exists d pos e,
             declared (release w2) p = Ok d
             /\ find_attr "addon" "id" (Py.str (get d "id")) (children addons_root)
                = Some (pos, e)
             /\ get e "version" = get d "version".
Proof.
  intros Hwf Hrun Herr Hsame Hfile.
  pose proof (@well_formed_sources _ Hwf) as Hsrc.
  set (folders := get_addon_folders (release w1)) in *.
  set (ds := declarations (nonzips (release w1)) folders).
  assert (Hfolders : get_addon_folders (release w2) = folders).
  { unfold folders.
    now rewrite <- get_addon_folders_nonzips, Hsame, get_addon_folders_nonzips. }
  assert (Hdis : distinct (map id_key ds) = true).
  { unfold ds. rewrite declarations_nonzips
      by (intros p Hp; eapply get_addon_folders_head; exact Hp).
    unfold well_formed in Hwf. now apply andb_true_iff in Hwf as [_ Hwf]. }
  (* the second run finds every version in the manifest *)
  assert (Hup : exists addons_root,
             manifest_root (release w2) = Ok addons_root
             /\ Forall (fun d => merge (children addons_root) d
                                 = (children addons_root, false)) ds).
  { rewrite generate_addons_file_unfold in Hrun.
    change (get_addon_folders (release w1)) with folders in Hrun.
    destruct (manifest_root (release w1)) as [root0|e] eqn:Hroot; [|discriminate].
    unfold manifest_root. rewrite Hfile.
    destruct (@loop_merges E folders (children root0, false) w1 Hsrc) as (wl & Hloop & Hkl).
    rewrite Hloop in Hrun. fold ds in Hrun, Hloop.
    destruct (merge_all (children root0, false) ds) as [kidsN changed] eqn:Hall.
    unfold write_back in Hrun. destruct changed.
    - (* the first run changed the manifest and wrote it *)
      unfold bind at 1, lift in Hrun.
      destruct (sorted_by_id kidsN) as [kids'|e] eqn:Hs; [|discriminate].
      unfold try_except, bind at 1 in Hrun.
      destruct (write_file E addons_xml_path
                           (XmlDoc (set_children root0 kids')) wl)
        as [[[]|e] ww] eqn:Hw.
      + injection Hrun as <- <-.
        rewrite (@write_file_lookup _ _ _ _ _ Hw).
        exists (set_children root0 kids'). split; [reflexivity|]. cbn [children].
        pose proof (@merge_all_own ds (children root0, false)
                                   (sources_wf Hsrc) Hdis) as Hown.
        fold ds in Hown. rewrite Hall in Hown. cbn [fst] in Hown.
        pose proof (sources_wf Hsrc) as Hwfds. fold ds in Hwfds.
        rewrite Forall_forall in Hown, Hwfds. apply Forall_forall. intros d Hd.
        destruct (Hown d Hd) as (e & He & Hv).
        destruct (wf_decl_id d (Hwfds d Hd)) as (_ & i & Hid & Hkey).
        rewrite Hkey in He.
        rewrite <- (@sorted_by_id_entries i kidsN kids' Hs) in He.
        eapply merge_up_to_date; eauto.
      + exfalso. unfold bind, print, ret in Hrun. injection Hrun as _ <-.
        cbn [stdout with_stdout] in Herr.
        rewrite existsb_app in Herr. cbn in Herr.
        now rewrite orb_true_r in Herr.
    - (* the first run had nothing to change *)
      injection Hrun as _ <-.
      destruct (merge_all_unchanged ds (children root0) false) as (_ & _ & Hnoop).
      { now rewrite Hall. }
      pose proof (@sources_declarations _ _ _ Hsrc Hnoop) as Hp.
      pose proof (@sources_transport (release w1) (release w1) _ _ eq_refl Hsrc Hp) as Hp1.
      pose proof (@loop_up_to_date E _ (children root0) w1 Hp1) as Hloop'.
      fold folders in Hloop'. rewrite Hloop' in Hloop. injection Hloop as _ <-.
      fold (manifest_root (release w1)). rewrite Hroot.
      exists root0. split; [reflexivity|exact Hnoop]. }
  destruct Hup as (addons_root & Hroot2 & Hnoop).
  pose proof (@sources_declarations _ _ _ Hsrc Hnoop) as Hp.
  pose proof (@sources_transport (release w1) (release w2) _ _ Hsame Hsrc Hp) as Hp2.
  rewrite <- Hfolders in Hp2.
  destruct (@run_up_to_date E' w2 _ Hroot2 Hp2) as [Hgen Hupd].
  split; [exact Hgen|]. split; [exact Hupd|].
  exists addons_root. split; [exact Hroot2|].
  intros p Hin. rewrite Forall_forall in Hp2.
  destruct (Hp2 p Hin) as (d & Hd & Hm).
  destruct (@merge_up_to_date_found _ _ Hm) as (pos & e & Hf & Hv).
  now exists d, pos, e.
Qed.

(* ------------------------------------------------------------------ *)
(** ** Sorting and writing the manifest *)
(* ------------------------------------------------------------------ *)


Section InsertionSort.

Variables (A K : Type) (key : A -> K) (leb : K -> K -> bool).
Hypothesis leb_total : forall a b, leb a b = true \/ leb b a = true.

Lemma insert_sorted_perm x l : Permutation (x :: l) (Py.insert_sorted key leb x l).
Proof.
  induction l as [|y l IH]; cbn [Py.insert_sorted]; [reflexivity|].
  destruct (leb (key x) (key y)); [reflexivity|].
  rewrite perm_swap. now constructor.
Qed.

Lemma sorted_perm l : Permutation l (Py.sorted key leb l).
Proof.
  induction l as [|x l IH]; [constructor|].
  unfold Py.sorted in *. cbn [fold_right].
  rewrite <- insert_sorted_perm. now constructor.
Qed.

Lemma insert_sorted_hd x y l :
  key_le key leb y x ->
  HdRel (key_le key leb) y l ->
  HdRel (key_le key leb) y (Py.insert_sorted key leb x l).
Proof.
  intros Hyx Hl. destruct l as [|z l]; cbn [Py.insert_sorted].
  - now constructor.
  - destruct (leb (key x) (key z)); constructor; auto.
    now inversion Hl.
Qed.

Lemma insert_sorted_sorted x l :
  Sorted (key_le key leb) l -> Sorted (key_le key leb) (Py.insert_sorted key leb x l).
Proof.
  induction 1 as [|y l Hl IH Hhd]; cbn [Py.insert_sorted].
  - repeat constructor.
  - destruct (leb (key x) (key y)) eqn:Hxy.
    + repeat constructor; auto.
    + constructor; [exact IH|]. apply insert_sorted_hd; [|exact Hhd].
      unfold key_le. destruct (leb_total (key x) (key y)); congruence.
Qed.

Lemma sorted_sorted l : Sorted (key_le key leb) (Py.sorted key leb l).
Proof.
  induction l as [|x l IH]; [constructor|].
  unfold Py.sorted in *. cbn [fold_right]. now apply insert_sorted_sorted.
Qed.

End InsertionSort.



(* ------------------------------------------------------------------ *)
(** ** Containment of the failures of one add-on *)
(* ------------------------------------------------------------------ *)

Section Containment.

Variable E : env.

(** The body of the loop never raises. *)
Lemma process_addon_returns st p w :
  exists st' w', process_addon E st p w = (Ok st', w').
Proof.
  unfold process_addon. rewrite parse_declared.
  destruct (declared (release w) p) as [d|e].
  - destruct (merge (fst st) d) as [kids updated]. destruct updated.
    + pose proof (rebuild_returns E p (get d "id") (get d "version")
                                  (kids, snd st || true) w) as Hr.
      unfold rebuild in Hr.
      destruct (try_except _ _ w) as [r w'] eqn:Ht. simpl in Hr. subst r.
      eauto.
    + eauto.
  - unfold bind, print, ret. eauto.
Qed.

(** A declaration that does not parse: the add-on is reported and the
    loop goes on as if it were not there. *)
Lemma process_addon_unparsed st p w e :
  declared (release w) p = Raise e ->
  process_addon E st p w
  = (Ok st, with_stdout w (stdout w ++ [Excluding p e])).
Proof.
  intros H. unfold process_addon. rewrite parse_declared, H. reflexivity.
Qed.

Lemma loop_returns folders :
  forall st w, exists st' w',
    for_fold folders (process_addon E) st w = (Ok st', w').
Proof.
  induction folders as [|p folders IH]; intros st w; cbn [for_fold].
  - unfold ret. eauto.
  - destruct (process_addon_returns st p w) as (st1 & w1 & H1).
    unfold bind at 1. rewrite H1. apply IH.
Qed.

End Containment.

(** The loop on its own: the first add-on is reported as excluded, yet
    its declaration is in the children of the manifest. *)
Lemma excluded_and_merged :
  fst (for_fold (get_addon_folders MissingId.tree) (process_addon (permissive "home"))
                ([], false) MissingId.w0)
  = Ok ([declaration [("version", "1.0")] [];
         declaration [("id", "plugin.b"); ("version", "1.0")] []], true).
Proof. vm_compute. reflexivity. Qed.

(** C8: on [MissingId.tree] the run does not reach the cleanup and the
    promotion.  The add-on without id is appended to the manifest before
    its archive is built; the build raises, which the loop reports; the
    sort of the manifest then compares a missing id with a string and
    raises outside every handler.  Nothing is written to the manifest. *)
Theorem run_aborts_on_missing_id :
  let run := __init__ (permissive "home") MissingId.w0 in
  fst run = Raise TypeError
  /\ stdout (snd run)
     = [Excluding ["plugin.a"] TypeError; ZipCreated "plugin.b" "1.0"]
  /\ FS.lookup addons_xml_path (release (snd run)) = None
  /\ root (snd run) = [].
Proof. vm_compute. repeat split. Qed.

(** C3: on [MissingId.tree] two entries are inserted and [changed] is
    set, yet the manifest is neither sorted nor written.  The sort
    compares the missing id of the first entry with the id of the second
    and raises, outside every handler: the method raises with the world
    as the loop left it, no manifest and no checksum are on disk, and
    the run ends there, before the cleanup and the promotion. *)
Theorem changed_manifest_is_not_written :
  let E := permissive "home" in
  let loop := for_fold (get_addon_folders MissingId.tree) (process_addon E)
                       ([], false) MissingId.w0 in
  let kids := [declaration [("version", "1.0")] [];
               declaration [("id", "plugin.b"); ("version", "1.0")] []] in
  fst loop = Ok (kids, true)
  /\ sorted_by_id kids = Raise TypeError
  /\ _generate_addons_file E MissingId.w0 = (Raise TypeError, snd loop)
  /\ FS.lookup addons_xml_path (release (snd loop)) = None
  /\ FS.lookup md5_path (release (snd loop)) = None
  /\ (update_manifest E ;; later_stages E) MissingId.w0 = (Raise TypeError, snd loop).
Proof. vm_compute. repeat split. Qed.

(* ------------------------------------------------------------------ *)
(** ** A small release tree *)
(* ------------------------------------------------------------------ *)

Lemma merge_case_analysis_witness :
  let w := mkWorld [("plugin.a", Dir 0 [("addon.xml", File 0 (XmlDoc Sample.decl_a))])]
                   [] None [] in
  parse (["plugin.a"] ++ ["addon.xml"]) w = (Ok Sample.decl_a, w)
  /\ get Sample.decl_a "id" = Some "plugin.a"
  /\ plain_id "plugin.a" = true
  /\ process_addon Sample.E ([Sample.decl_b; Sample.decl_a_old], false) ["plugin.a"] w
     = rebuild Sample.E ["plugin.a"] (Some "plugin.a") (Some "2.0")
               ([Sample.decl_b; Sample.decl_a], true) w.
Proof.
  intros w.
  assert (H1 : parse (["plugin.a"] ++ ["addon.xml"]) w = (Ok Sample.decl_a, w))
    by reflexivity.
  assert (H2 : get Sample.decl_a "id" = Some "plugin.a") by reflexivity.
  assert (H3 : plain_id "plugin.a" = true) by reflexivity.
  refine (conj H1 (conj H2 (conj H3 _))).
  destruct (@merge_case_analysis Sample.E [Sample.decl_b; Sample.decl_a_old] false
                                 ["plugin.a"] w Sample.decl_a "plugin.a" H1 H2 H3)
    as [_ H].
  destruct (H [Sample.decl_b] Sample.decl_a_old [] eq_refl) as [Hreplace _].
  - intros x [<-|[]]. reflexivity.
  - reflexivity.
  - assert (Hv : get Sample.decl_a_old "version" <> get Sample.decl_a "version")
      by discriminate.
    exact (proj1 (Hreplace Hv)).
Defined.

(** C4 as it is stated fails on a manifest that lists something else
    before the entry: the declaration that replaces the entry of
    [plugin.a] is inserted at index 0, the index of the entry among the
    children tagged [addon], and not at index 1, where the entry
    stood. *)
Lemma replaced_entry_moves_forward :
  let w := mkWorld [("plugin.a", Dir 0 [("addon.xml", File 0 (XmlDoc Sample.decl_a))])]
                   [] None [] in
  let note := mkElement "info" [] None [] in
  fst (process_addon Sample.E ([note; Sample.decl_a_old], false) ["plugin.a"] w)
  = Ok ([Sample.decl_a; note], true)
  /\ [Sample.decl_a; note] <> [note; Sample.decl_a].
Proof. split; [vm_compute; reflexivity|discriminate]. Qed.

Lemma second_run_changes_nothing_witness :
  well_formed (release Sample.w0) = true
  /\ _generate_addons_file Sample.E Sample.w0 = (Ok true, Sample.w1)
  /\ existsb is_manifest_error (stdout Sample.w1) = false
  /\ nonzips (release Sample.w1) = nonzips (release Sample.w0)
  /\ _generate_addons_file Sample.E Sample.w1 = (Ok false, Sample.w1).
Proof.
  assert (H1 : well_formed (release Sample.w0) = true) by (vm_compute; reflexivity).
  assert (H2 : _generate_addons_file Sample.E Sample.w0 = (Ok true, Sample.w1))
    by (vm_compute; reflexivity).
  assert (H3 : existsb is_manifest_error (stdout Sample.w1) = false)
    by (vm_compute; reflexivity).
  assert (H4 : nonzips (release Sample.w1) = nonzips (release Sample.w0))
    by (vm_compute; reflexivity).
  refine (conj H1 (conj H2 (conj H3 (conj H4 _)))).
  exact (proj1 (@second_run_changes_nothing Sample.E Sample.E Sample.w0 Sample.w1
                  Sample.w1 true H1 H2 H3 H4 eq_refl)).
Defined.


Unset Implicit Arguments.

(* ------------------------------------------------------------------ *)
(** ** The promotion of the repository archive *)
(* ------------------------------------------------------------------ *)

Lemma assoc_in_nodup k n l :
  NoDup (FS.names l) -> In (k, n) l -> FS.assoc k l = Some n.
Proof.
  unfold FS.names. induction l as [|[k' n'] l IH]; intros Hnd Hin; [contradiction|].
  cbn [map fst] in Hnd. inversion Hnd as [|? ? Hnotin Hnd']; subst.
  cbn [FS.assoc]. destruct Hin as [Heq|Hin].
  - injection Heq as -> ->. now rewrite String.eqb_refl.
  - destruct (String.eqb_spec k k') as [->|_]; [|now apply IH].
    exfalso. apply Hnotin. change k' with (fst (k', n)). now apply in_map.
Qed.

Lemma lookup_in_zips w m zl addon_id q :
  FS.lookup zips_path (release w) = Some (Dir m zl) ->
  FS.lookup (zips_path ++ addon_id :: q) (release w)
  = match FS.assoc addon_id zl with
    | Some c => FS.lookup_node q c
    | None => None
    end.
Proof.
  unfold FS.lookup, zips_path. cbn [app FS.lookup_node].
  destruct (FS.assoc "zips" (release w)) as [c|]; [|discriminate].
  intros H; injection H as ->. reflexivity.
Qed.

Lemma candidate_of_node w m zl addon_id :
  FS.lookup zips_path (release w) = Some (Dir m zl) ->
  candidate_of addon_id w
  = (Ok (match FS.assoc addon_id zl with
         | Some n => candidate_in addon_id n
         | None => []
         end), w).
Proof.
  intros Hz. unfold candidate_of, bind at 1, isdir.
  change (zips_path ++ [addon_id]) with (zips_path ++ addon_id :: []).
  rewrite (@lookup_in_zips w m zl addon_id [] Hz).
  destruct (FS.assoc addon_id zl) as [[mt c|mt l]|] eqn:Ha; cbn [FS.lookup_node negb];
    try reflexivity.
  unfold bind at 1, exists_.
  change ((zips_path ++ [addon_id]) ++ ["addon.xml"])
    with (zips_path ++ addon_id :: ["addon.xml"]).
  rewrite (@lookup_in_zips w m zl addon_id ["addon.xml"] Hz), Ha.
  cbn [FS.lookup_node candidate_in].
  destruct (FS.assoc "addon.xml" l) as [x|] eqn:Hx; cbn [is_some negb];
    [|reflexivity].
  unfold try_except, bind at 1, parse.
  rewrite (@lookup_in_zips w m zl addon_id ["addon.xml"] Hz), Ha.
  cbn [FS.lookup_node]. rewrite Hx.
  destruct x as [mt' [s|r|names]|mt' l']; try reflexivity.
  destruct (is_repository r); [|reflexivity].
  unfold bind at 1, scandir.
  change (zips_path ++ [addon_id]) with (zips_path ++ addon_id :: []).
  rewrite (@lookup_in_zips w m zl addon_id [] Hz), Ha. cbn [FS.lookup_node].
  destruct (rev (sorted_by_mtime (zips_in l))); reflexivity.
Qed.

Lemma collect_candidates_listing w m zl :
  FS.lookup zips_path (release w) = Some (Dir m zl) ->
  NoDup (FS.names zl) ->
  collect_candidates (FS.names zl) w = (Ok (candidates_in zl), w).
Proof.
  intros Hz Hnd. unfold collect_candidates, candidates_in.
  assert (H : forall l acc,
             (forall e, In e l -> In e zl) ->
             for_fold (FS.names l)
                      (fun acc addon_id => c <- candidate_of addon_id ;; ret (acc ++ c))
                      acc w
             = (Ok (acc ++ flat_map (fun e => candidate_in (fst e) (snd e)) l), w)).
  { induction l as [|[k n] l IH]; intros acc Hsub; cbn [FS.names map for_fold flat_map].
    - unfold ret. now rewrite app_nil_r.
    - cbn [fst snd]. unfold bind at 1. unfold bind at 1.
      rewrite (@candidate_of_node w m zl k Hz).
      rewrite (@assoc_in_nodup k n zl Hnd (Hsub _ (or_introl eq_refl))).
      unfold ret at 1. cbn [fst snd]. fold (FS.names l).
      rewrite IH by (intros e He; apply Hsub; now right).
      now rewrite app_assoc. }
  apply (H zl []). auto.
Qed.

Lemma candidate_in_single k n c :
  In c (candidate_in k n) -> candidate_id c = k /\ candidate_in k n = [c].
Proof.
  unfold candidate_in. destruct n as [|mt l]; [contradiction|].
  destruct (FS.assoc "addon.xml" l) as [[mt' [s|r|names]|mt' l']|]; try contradiction.
  destruct (is_repository r); [|contradiction].
  destruct (rev (sorted_by_mtime (zips_in l))) as [|newest rest]; [contradiction|].
  intros [<-|[]]. split; reflexivity.
Qed.

Lemma candidates_in_ids zl c :
  In c (candidates_in zl) -> In (candidate_id c) (FS.names zl).
Proof.
  unfold candidates_in. rewrite in_flat_map. intros ([k n] & Hin & Hc).
  apply candidate_in_single in Hc as [-> _].
  unfold FS.names. change k with (fst (k, n)). now apply in_map.
Qed.

Lemma candidates_in_nodup zl :
  NoDup (FS.names zl) -> NoDup (map candidate_id (candidates_in zl)).
Proof.
  unfold FS.names. induction zl as [|[k n] zl IH]; intros Hnd; [constructor|].
  cbn [map fst] in Hnd. inversion Hnd as [|? ? Hnotin Hnd']; subst.
  unfold candidates_in. cbn [flat_map fst snd]. fold (candidates_in zl).
  rewrite map_app.
  destruct (candidate_in k n) as [|c rest] eqn:Hc; [now apply IH|].
  destruct (@candidate_in_single k n c) as [Hid Hone];
    [rewrite Hc; now left|].
  rewrite Hc in Hone. injection Hone as ->. cbn [map app].
  constructor; [|now apply IH].
  rewrite in_map_iff. intros (c' & Hid' & Hin').
  apply Hnotin. rewrite <- Hid, <- Hid'. now apply candidates_in_ids.
Qed.

Lemma filter_unique {A} (g : A -> string) (h : string) (l : list A) c :
  NoDup (map g l) -> In c l -> g c = h ->
  filter (fun x => String.eqb (g x) h) l = [c].
Proof.
  induction l as [|a l IH]; intros Hnd Hin Hc; [contradiction|].
  cbn [map] in Hnd. inversion Hnd as [|? ? Hnotin Hnd']; subst.
  cbn [filter]. destruct Hin as [->|Hin].
  - rewrite String.eqb_refl. f_equal.
    assert (Hnone : forall x, In x l -> String.eqb (g x) (g c) = false).
    { intros x Hx. apply String.eqb_neq. intros Heq.
      apply Hnotin. rewrite <- Heq. now apply in_map. }
    clear -Hnone. induction l as [|a l IH]; [reflexivity|].
    cbn [filter]. rewrite (Hnone a (or_introl eq_refl)).
    apply IH. intros x Hx. apply Hnone. now right.
  - destruct (String.eqb_spec (g a) (g c)) as [Heq|_]; [|now apply IH].
    exfalso. apply Hnotin. rewrite Heq. now apply in_map.
Qed.

Lemma choose_home E zl c :
  NoDup (FS.names zl) ->
  In c (candidates_in zl) ->
  candidate_id c = home_id E ->
  choose E (candidates_in zl) = Some c.
Proof.
  intros Hnd Hin Hc. unfold choose.
  assert (Hf : filter (fun c0 : string * string * path =>
                         String.eqb (fst (fst c0)) (home_id E))
                      (candidates_in zl) = [c])
    by exact (filter_unique candidate_id (home_id E) _ c
                (candidates_in_nodup zl Hnd) Hin Hc).
  now rewrite Hf.
Qed.

Lemma choose_first E cands :
  (forall c, In c cands -> candidate_id c <> home_id E) ->
  choose E cands = hd_error cands.
Proof.
  intros H. unfold choose.
  assert (Hf : filter (fun c : string * string * path =>
                         String.eqb (fst (fst c)) (home_id E)) cands = []).
  { induction cands as [|a l IH]; [reflexivity|]. cbn [filter].
    destruct (String.eqb_spec (fst (fst a)) (home_id E)) as [Heq|_].
    - exfalso. exact (H a (or_introl eq_refl) Heq).
    - apply IH. intros c Hc. apply H. now right. }
  now rewrite Hf.
Qed.

Lemma names_perm zl zl' :
  Permutation zl zl' -> Permutation (FS.names zl) (FS.names zl').
Proof. apply Permutation_map. Qed.

Lemma candidates_in_perm zl zl' :
  Permutation zl zl' -> Permutation (candidates_in zl) (candidates_in zl').
Proof. apply Permutation_flat_map. Qed.

(* ------------------------------------------------------------------ *)
(** ** The cleanup of old archives *)
(* ------------------------------------------------------------------ *)

Lemma assoc_set_other x y n l :
  x <> y -> FS.assoc y (FS.set x n l) = FS.assoc y l.
Proof.
  intros Hxy. induction l as [|[k c] l IH]; cbn [FS.set FS.assoc].
  - destruct (String.eqb_spec y x); [congruence|reflexivity].
  - destruct (String.eqb_spec x k) as [->|Hk]; cbn [FS.assoc].
    + destruct (String.eqb_spec y k); [congruence|reflexivity].
    + destruct (String.eqb y k); [reflexivity|exact IH].
Qed.

Lemma set_set x n1 n2 l : FS.set x n2 (FS.set x n1 l) = FS.set x n2 l.
Proof.
  induction l as [|[k c] l IH]; cbn [FS.set].
  - now rewrite String.eqb_refl.
  - destruct (String.eqb x k) eqn:Hk; cbn [FS.set]; rewrite Hk; [reflexivity|].
    now rewrite IH.
Qed.

Lemma lookup_zips_set n l : FS.lookup zips_path (FS.set "zips" n l) = Some n.
Proof. unfold FS.lookup, zips_path. cbn [FS.lookup_node]. now rewrite assoc_set_same. Qed.

Lemma lookup_zips_assoc l : FS.lookup zips_path l = FS.assoc "zips" l.
Proof.
  unfold FS.lookup, zips_path. cbn [FS.lookup_node].
  now destruct (FS.assoc "zips" l).
Qed.

Lemma del_filter f l :
  NoDup (FS.names l) ->
  FS.del f l = filter (fun e => negb (String.eqb (fst e) f)) l.
Proof.
  unfold FS.names. induction l as [|[k c] l IH]; intros Hnd; [reflexivity|].
  cbn [map fst] in Hnd. inversion Hnd as [|? ? Hnotin Hnd']; subst.
  cbn [FS.del filter fst].
  destruct (String.eqb_spec f k) as [->|Hfk].
  - rewrite String.eqb_refl. cbn [negb].
    symmetry. apply forallb_filter_id. apply forallb_forall.
    intros [k' c'] Hin. cbn [fst]. apply negb_true_iff, String.eqb_neq.
    intros ->. apply Hnotin. change k with (fst (k, c')). now apply in_map.
  - destruct (String.eqb_spec k f); [congruence|]. cbn [negb].
    now rewrite IH.
Qed.

Section Cleanup.

Variable E : env.

(** One removal inside the folder [id] of the output directory. *)
Lemma remove_old_zip_in_folder w m zl id mt l f :
  FS.lookup zips_path (release w) = Some (Dir m zl) ->
  FS.assoc id zl = Some (Dir mt l) ->
  remove_old_zip E (zips_path ++ [id]) f w
  = (Ok tt,
     with_stdout
       (match FS.assoc f l with
        | Some c =>
            if removable E (zips_path ++ [id]) (f, c)
            then with_release w
                   (FS.set "zips" (Dir m (FS.set id (Dir mt (FS.del f l)) zl))
                           (release w))
            else w
        | None => w
        end)
       (stdout w ++ [removal_report E (zips_path ++ [id]) f (FS.assoc f l)])).
Proof.
  intros Hz Hid. rewrite lookup_zips_assoc in Hz.
  unfold remove_old_zip, try_except, bind at 1, remove, removal_report, removable.
  unfold FS.lookup. cbn [zips_path app FS.lookup_node FS.rm fst snd].
  rewrite Hz, Hid.
  destruct (FS.assoc f l) as [[mf c|mf sub]|]; try reflexivity.
  destruct (deny_remove E (InRelease ["zips"; id; f])); reflexivity.
Qed.

Lemma set_same x n l : FS.assoc x l = Some n -> FS.set x n l = l.
Proof.
  induction l as [|[k c] l IH]; cbn [FS.assoc FS.set]; [discriminate|].
  destruct (String.eqb_spec x k) as [->|Hk].
  - intros H; injection H as ->. reflexivity.
  - intros H. now rewrite IH.
Qed.

Lemma put_folder_same w m zl id n :
  FS.lookup zips_path (release w) = Some (Dir m zl) ->
  FS.assoc id zl = Some n ->
  put_folder w m zl id n = w.
Proof.
  intros Hz Hid. rewrite lookup_zips_assoc in Hz. unfold put_folder.
  rewrite (set_same id n zl Hid), (set_same "zips" _ _ Hz).
  now destruct w.
Qed.

Lemma put_folder_twice w m zl id n1 n2 :
  put_folder (put_folder w m zl id n1) m (FS.set id n1 zl) id n2
  = put_folder w m zl id n2.
Proof.
  unfold put_folder, with_release. cbn [release root latest_repo_zip_name stdout].
  now rewrite !set_set.
Qed.

Lemma for_each_remove olds :
  forall w m zl id mt l,
    FS.lookup zips_path (release w) = Some (Dir m zl) ->
    FS.assoc id zl = Some (Dir mt l) ->
    for_each olds (remove_old_zip E (zips_path ++ [id])) w
    = (Ok tt,
       with_stdout
         (put_folder w m zl id (Dir mt (fst (clean_list E (zips_path ++ [id]) olds l))))
         (stdout w ++ snd (clean_list E (zips_path ++ [id]) olds l))).
Proof.
  induction olds as [|f olds IH]; intros w m zl id mt l Hz Hid.
  - cbn [for_each clean_list fst snd]. unfold ret.
    rewrite (put_folder_same w m zl id _ Hz Hid), app_nil_r. now destruct w.
  - cbn [for_each clean_list]. unfold bind at 1.
    rewrite (remove_old_zip_in_folder w m zl id mt l f Hz Hid).
    set (l1 := match FS.assoc f l with
               | Some c => if removable E (zips_path ++ [id]) (f, c)
                           then FS.del f l else l
               | None => l
               end).
    set (r := removal_report E (zips_path ++ [id]) f (FS.assoc f l)).
    assert (Hw1 : match FS.assoc f l with
                  | Some c =>
                      if removable E (zips_path ++ [id]) (f, c)
                      then with_release w
                             (FS.set "zips"
                                (Dir m (FS.set id (Dir mt (FS.del f l)) zl))
                                (release w))
                      else w
                  | None => w
                  end = put_folder w m zl id (Dir mt l1)).
    { unfold l1. destruct (FS.assoc f l) as [c|];
        [destruct (removable E _ (f, c))|];
        try reflexivity;
        now rewrite (put_folder_same w m zl id _ Hz Hid). }
    rewrite Hw1.
    destruct (clean_list E (zips_path ++ [id]) olds l1) as [l' ms] eqn:Hc.
    cbn [fst snd].
    rewrite (IH _ m (FS.set id (Dir mt l1) zl) id mt l1).
    + rewrite Hc. cbn [fst snd].
      unfold with_stdout, put_folder, with_release.
      cbn [release root latest_repo_zip_name stdout].
      rewrite !set_set, <- app_assoc. reflexivity.
    + cbn [release with_stdout put_folder with_release]. apply lookup_zips_set.
    + apply assoc_set_same.
Qed.

Lemma cleanup_folder_spec w m zl id n :
  FS.lookup zips_path (release w) = Some (Dir m zl) ->
  FS.assoc id zl = Some n ->
  cleanup_folder E id w
  = (Ok tt, with_stdout (put_folder w m zl id (clean_node E id n))
                        (stdout w ++ clean_msgs E id n)).
Proof.
  intros Hz Hid. unfold cleanup_folder, bind at 1, isdir.
  change (zips_path ++ [id]) with (zips_path ++ id :: []).
  rewrite (lookup_in_zips w m zl id [] Hz), Hid. cbn [FS.lookup_node].
  destruct n as [mt c|mt l]; cbn [negb clean_node clean_msgs].
  - unfold ret. rewrite (put_folder_same w m zl id _ Hz Hid), app_nil_r.
    now destruct w.
  - unfold bind at 1, scandir.
    rewrite (lookup_in_zips w m zl id [] Hz), Hid. cbn [FS.lookup_node].
    apply (for_each_remove _ w m zl id mt l Hz Hid).
Qed.

Lemma names_in k n (l : listing) : In (k, n) l -> In k (FS.names l).
Proof. intros H. unfold FS.names. change k with (fst (k, n)). now apply in_map. Qed.

(** The loop over the folders of the output directory [zl]. *)
Lemma cleanup_loop m rest :
  forall w zl,
    FS.lookup zips_path (release w) = Some (Dir m zl) ->
    NoDup (FS.names rest) ->
    (forall k n, In (k, n) rest -> FS.assoc k zl = Some n) ->
    exists w' zl',
      for_each (FS.names rest) (cleanup_folder E) w = (Ok tt, w')
      /\ FS.lookup zips_path (release w') = Some (Dir m zl')
      /\ (forall k, ~ In k (FS.names rest) -> FS.assoc k zl' = FS.assoc k zl)
      /\ (forall k n, In (k, n) rest -> FS.assoc k zl' = Some (clean_node E k n))
      /\ stdout w'
         = stdout w ++ flat_map (fun e => clean_msgs E (fst e) (snd e)) rest.
Proof.
  induction rest as [|[k n] rest IH]; intros w zl Hz Hnd Hin.
  - exists w, zl. cbn [FS.names map for_each flat_map]. rewrite app_nil_r.
    unfold ret. split; [reflexivity|]. split; [exact Hz|].
    split; [reflexivity|]. split; [intros k n []|reflexivity].
  - cbn [FS.names map fst] in Hnd. inversion Hnd as [|? ? Hnotin Hnd']; subst.
    cbn [FS.names map fst for_each]. unfold bind at 1.
    rewrite (cleanup_folder_spec w m zl k n Hz (Hin k n (or_introl eq_refl))).
    set (w1 := with_stdout (put_folder w m zl k (clean_node E k n))
                           (stdout w ++ clean_msgs E k n)).
    destruct (IH w1 (FS.set k (clean_node E k n) zl)) as (w' & zl' & Hrun & Hz' & Hout & Hclean & Hstd).
    + apply lookup_zips_set.
    + exact Hnd'.
    + intros k' n' Hin'. rewrite assoc_set_other.
      * apply Hin. now right.
      * intros ->. apply Hnotin. eapply names_in; eauto.
    + exists w', zl'. split; [exact Hrun|]. split; [exact Hz'|]. split; [|split].
      * intros k' Hk'. rewrite Hout.
        -- apply assoc_set_other. intros ->. apply Hk'. now left.
        -- intros Hk''. apply Hk'. now right.
      * intros k' n' [Heq|Hin'].
        -- injection Heq as <- <-. rewrite (Hout k Hnotin). apply assoc_set_same.
        -- now apply Hclean.
      * rewrite Hstd. unfold w1. cbn [stdout with_stdout flat_map fst snd].
        now rewrite app_assoc.
Qed.

Lemma cleanup_spec w m zl :
  FS.lookup zips_path (release w) = Some (Dir m zl) ->
  NoDup (FS.names zl) ->
  exists w' zl',
    _cleanup_old_zips E w = (Ok tt, w')
    /\ FS.lookup zips_path (release w') = Some (Dir m zl')
    /\ (forall k n, In (k, n) zl -> FS.assoc k zl' = Some (clean_node E k n))
    /\ stdout w'
       = stdout w ++ flat_map (fun e => clean_msgs E (fst e) (snd e)) zl.
Proof.
  intros Hz Hnd.
  destruct (cleanup_loop m zl w zl Hz Hnd) as (w' & zl' & Hrun & Hz' & _ & Hclean & Hstd).
  { intros k n Hin. now apply assoc_in_nodup. }
  exists w', zl'. split; [|auto].
  unfold _cleanup_old_zips, bind at 1, exists_. rewrite Hz. cbn [is_some negb].
  unfold bind at 1, listdir, bind at 1, scandir. rewrite Hz. exact Hrun.
Qed.

Lemma stays_cons folder f olds e :
  stays E folder (f :: olds) e
  = if String.eqb (fst e) f then negb (removable E folder e)
    else stays E folder olds e.
Proof.
  unfold stays, Py.mem. cbn [existsb].
  destruct (String.eqb (fst e) f); cbn [orb andb]; reflexivity.
Qed.

Lemma filter_filter {A} (p q : A -> bool) l :
  filter p (filter q l) = filter (fun a => q a && p a) l.
Proof.
  induction l as [|a l IH]; [reflexivity|]. cbn [filter].
  destruct (q a); cbn [filter andb]; now rewrite IH.
Qed.

Lemma filter_all {A} (p : A -> bool) l :
  (forall a, In a l -> p a = true) -> filter p l = l.
Proof.
  intros H. induction l as [|a l IH]; [reflexivity|]. cbn [filter].
  rewrite (H a (or_introl eq_refl)), IH; [reflexivity|].
  intros b Hb. apply H. now right.
Qed.

Lemma nodup_filter_names (p : string * node -> bool) l :
  NoDup (FS.names l) -> NoDup (FS.names (filter p l)).
Proof.
  unfold FS.names. induction l as [|[k c] l IH]; intros Hnd; [constructor|].
  cbn [map fst] in Hnd. inversion Hnd as [|? ? Hnotin Hnd']; subst.
  cbn [filter]. destruct (p (k, c)); [|now apply IH].
  cbn [map fst]. constructor; [|now apply IH].
  rewrite in_map_iff. intros ([k' c'] & Hk & Hin). cbn [fst] in Hk. subst k'.
  apply filter_In in Hin as [Hin _]. apply Hnotin.
  change k with (fst (k, c')). now apply in_map.
Qed.

Lemma assoc_some_in f c l : FS.assoc f l = Some c -> In (f, c) l.
Proof.
  induction l as [|[k n] l IH]; cbn [FS.assoc]; [discriminate|].
  destruct (String.eqb_spec f k) as [->|_].
  - intros H; injection H as ->. now left.
  - intros H. right. now apply IH.
Qed.

Lemma assoc_none_in f l e : FS.assoc f l = None -> In e l -> fst e <> f.
Proof.
  induction l as [|[k n] l IH]; cbn [FS.assoc]; [contradiction|].
  destruct (String.eqb_spec f k) as [->|Hfk]; [discriminate|].
  intros H [<-|Hin]; [cbn [fst]; congruence|now apply IH].
Qed.

Lemma entry_unique l e f c :
  NoDup (FS.names l) -> In e l -> fst e = f -> FS.assoc f l = Some c -> e = (f, c).
Proof.
  intros Hnd Hin <- Ha. destruct e as [k n]. cbn [fst] in *.
  rewrite (assoc_in_nodup k n l Hnd Hin) in Ha. congruence.
Qed.

(** What the loop over the old archives leaves of a folder. *)
Lemma clean_list_filter folder olds :
  forall l,
    NoDup (FS.names l) ->
    fst (clean_list E folder olds l) = filter (stays E folder olds) l.
Proof.
  induction olds as [|f olds IH]; intros l Hnd.
  - cbn [clean_list fst]. symmetry. now apply filter_all.
  - cbn [clean_list].
    destruct (FS.assoc f l) as [c|] eqn:Ha; [destruct (removable E folder (f, c)) eqn:Hr|].
    + destruct (clean_list E folder olds (FS.del f l)) as [l' ms] eqn:Hc. cbn [fst].
      change l' with (fst (l', ms)). rewrite <- Hc.
      rewrite IH by (rewrite del_filter by exact Hnd; now apply nodup_filter_names).
      rewrite del_filter by exact Hnd. rewrite filter_filter.
      apply filter_ext_in. intros e He. rewrite stays_cons.
      destruct (String.eqb_spec (fst e) f) as [Hf|_]; cbn [negb andb]; [|reflexivity].
      rewrite (entry_unique l e f c Hnd He Hf Ha), Hr. reflexivity.
    + destruct (clean_list E folder olds l) as [l' ms] eqn:Hc. cbn [fst].
      change l' with (fst (l', ms)). rewrite <- Hc, IH by exact Hnd.
      apply filter_ext_in. intros e He. rewrite stays_cons.
      destruct (String.eqb_spec (fst e) f) as [Hf|_]; [|reflexivity].
      rewrite (entry_unique l e f c Hnd He Hf Ha) at 2. rewrite Hr. cbn [negb].
      unfold stays. rewrite (entry_unique l e f c Hnd He Hf Ha), Hr.
      now rewrite andb_false_r.
    + destruct (clean_list E folder olds l) as [l' ms] eqn:Hc. cbn [fst].
      change l' with (fst (l', ms)). rewrite <- Hc, IH by exact Hnd.
      apply filter_ext_in. intros e He. rewrite stays_cons.
      destruct (String.eqb_spec (fst e) f) as [Hf|_]; [|reflexivity].
      exfalso. exact (assoc_none_in f l e Ha He Hf).
Qed.

Lemma assoc_del_other f g l : f <> g -> FS.assoc g (FS.del f l) = FS.assoc g l.
Proof.
  intros Hfg. induction l as [|[k n] l IH]; [reflexivity|].
  cbn [FS.del FS.assoc].
  destruct (String.eqb_spec f k) as [->|Hfk].
  - destruct (String.eqb_spec g k); [congruence|reflexivity].
  - cbn [FS.assoc]. destruct (String.eqb g k); [reflexivity|exact IH].
Qed.

(** Each old archive is reported, as removed or as a failure. *)
Lemma clean_list_reports folder olds :
  forall l f,
    NoDup olds -> In f olds ->
    In (removal_report E folder f (FS.assoc f l)) (snd (clean_list E folder olds l)).
Proof.
  induction olds as [|g olds IH]; intros l f Hnd Hin; [contradiction|].
  inversion Hnd as [|? ? Hnotin Hnd']; subst.
  cbn [clean_list].
  set (l1 := match FS.assoc g l with
             | Some c => if removable E folder (g, c) then FS.del g l else l
             | None => l
             end).
  destruct (clean_list E folder olds l1) as [l' ms] eqn:Hc. cbn [snd].
  destruct Hin as [->|Hin]; [now left|]. right.
  assert (Hfg : g <> f) by (intros ->; contradiction).
  assert (Ha : FS.assoc f l1 = FS.assoc f l).
  { unfold l1. destruct (FS.assoc g l) as [c|]; [|reflexivity].
    destruct (removable E folder (g, c)); [|reflexivity].
    now apply assoc_del_other. }
  rewrite <- Ha. change ms with (snd (l', ms)). rewrite <- Hc. now apply IH.
Qed.

Lemma nat_leb_total a b : Nat.leb a b = true \/ Nat.leb b a = true.
Proof. destruct (Nat.leb_spec a b); [now left|right]. apply Nat.leb_le. lia. Qed.

Lemma sorted_last_is_max (l : listing) x :
  Sorted by_mtime (l ++ [x]) ->
  forall e, In e (l ++ [x]) -> getmtime (snd e) <= getmtime (snd x).
Proof.
  intros Hs. apply Sorted_StronglySorted in Hs.
  - induction l as [|a l IH]; intros e He.
    + destruct He as [<-|[]]. lia.
    + cbn [app] in Hs. inversion Hs as [|? ? Hs' Hall]; subst.
      destruct He as [<-|He]; [|now apply IH].
      rewrite Forall_forall in Hall.
      assert (Hx : In x (l ++ [x])) by (apply in_or_app; right; now left).
      specialize (Hall x Hx). now apply Nat.leb_le in Hall.
  - intros a b c Hab Hbc. unfold by_mtime in *.
    apply Nat.leb_le in Hab, Hbc. apply Nat.leb_le. lia.
Qed.

Lemma map_eq_snoc {A B} (f : A -> B) l a b :
  map f l = a ++ [b] -> exists l' x, l = l' ++ [x] /\ map f l' = a /\ f x = b.
Proof.
  intros H. apply map_eq_app in H as (l1 & l2 & -> & H1 & H2).
  destruct l2 as [|x [|y l2]]; try discriminate.
  injection H2 as H2. now exists l1, x.
Qed.

(** The entries of one folder after its cleanup.  [olds ++ [newest]] are
    its archives by modification time. *)
Lemma clean_folder_facts id l olds newest :
  NoDup (FS.names l) ->
  sorted_by_mtime (zips_in l) = olds ++ [newest] ->
  let l' := fst (clean_folder E id l) in
  let ms := snd (clean_folder E id l) in
  (exists n, In (newest, n) (zips_in l') /\ In (newest, n) (zips_in l)
             /\ forall e, In e (zips_in l) -> getmtime (snd e) <= getmtime n)
  /\ (forall f, In f olds ->
        (FS.assoc f l' = None /\ In (RemovedOldZip (zips_path ++ [id; f])) ms)
        \/ (FS.assoc f l' = FS.assoc f l
            /\ In (FailedRemoveOldZip (zips_path ++ [id; f]) OSError) ms))
  /\ ((forall e, In e (zips_in l) -> removable E (zips_path ++ [id]) e = true) ->
      FS.names (zips_in l') = [newest]).
Proof.
  intros Hnd Hsorted l' ms.
  set (folder := zips_path ++ [id]).
  assert (Hl' : l' = filter (stays E folder olds) l).
  { unfold l', clean_folder. rewrite Hsorted. unfold Py.but_last.
    rewrite removelast_last. now apply clean_list_filter. }
  assert (Hms : ms = snd (clean_list E folder olds l)).
  { unfold ms, clean_folder. rewrite Hsorted. unfold Py.but_last.
    now rewrite removelast_last. }
  set (se := Py.sorted (fun e : string * node => getmtime (snd e)) Nat.leb (zips_in l)).
  assert (Hperm : Permutation (zips_in l) se) by apply sorted_perm.
  assert (Hndz : NoDup (FS.names (zips_in l))) by now apply nodup_filter_names.
  assert (Hnds : NoDup (olds ++ [newest])).
  { rewrite <- Hsorted. unfold sorted_by_mtime. fold se.
    eapply Permutation_NoDup; [apply Permutation_map; exact Hperm|exact Hndz]. }
  assert (Hnew : ~ In newest olds).
  { apply NoDup_remove_2 in Hnds. now rewrite app_nil_r in Hnds. }
  assert (Hndo : NoDup olds).
  { apply NoDup_remove_1 in Hnds. now rewrite app_nil_r in Hnds. }
  assert (Hmem : forall f, Py.mem f olds = true <-> In f olds).
  { intros f. unfold Py.mem. rewrite existsb_exists. split.
    - intros (x & Hx & Heq). apply String.eqb_eq in Heq. now subst.
    - intros Hf. exists f. split; [exact Hf|apply String.eqb_refl]. }
  assert (Hnames : forall e, In e (zips_in l) -> In (fst e) (olds ++ [newest])).
  { intros e He. rewrite <- Hsorted. unfold sorted_by_mtime. fold se.
    apply in_map. eapply Permutation_in; eauto. }
  unfold sorted_by_mtime in Hsorted. fold se in Hsorted.
  destruct (map_eq_snoc fst se olds newest Hsorted) as (se' & [k n] & Hse & Hse' & Hk).
  cbn [fst] in Hk. subst k.
  assert (Hin_new : In (newest, n) (zips_in l)).
  { eapply Permutation_in; [symmetry; exact Hperm|].
    rewrite Hse. apply in_or_app. right. now left. }
  assert (Hzip_l : forall e, In e (zips_in l) -> In e l /\ Py.endswith (fst e) ".zip" = true).
  { intros e He. now apply filter_In in He. }
  split; [|split].
  - exists n. split; [|split; [exact Hin_new|]].
    + unfold zips_in. apply filter_In. destruct (Hzip_l _ Hin_new) as [Hl Hz].
      split; [|exact Hz]. rewrite Hl'. apply filter_In. split; [exact Hl|].
      unfold stays. cbn [fst].
      destruct (Py.mem newest olds) eqn:Hm; [|reflexivity].
      apply Hmem in Hm. contradiction.
    + intros e He.
      assert (Hs : Sorted by_mtime (se' ++ [(newest, n)])).
      { rewrite <- Hse. apply sorted_sorted. apply nat_leb_total. }
      apply (sorted_last_is_max se' (newest, n) Hs e).
      rewrite <- Hse. eapply Permutation_in; eauto.
  - intros f Hf.
    assert (Hfz : In f (FS.names (zips_in l))).
    { eapply Permutation_in; [apply Permutation_map; symmetry; exact Hperm|].
      fold se. unfold FS.names. rewrite Hsorted. apply in_or_app. now left. }
    unfold FS.names in Hfz. apply in_map_iff in Hfz as ([k c] & Hk & Hinz).
    cbn [fst] in Hk. subst k.
    destruct (Hzip_l _ Hinz) as [Hinl _].
    pose proof (assoc_in_nodup f c l Hnd Hinl) as Ha.
    pose proof (clean_list_reports folder olds l f Hndo Hf) as Hrep.
    rewrite <- Hms, Ha in Hrep. unfold removal_report in Hrep.
    assert (Hndl' : NoDup (FS.names l')) by (rewrite Hl'; now apply nodup_filter_names).
    destruct (removable E folder (f, c)) eqn:Hr.
    + left. split; [|exact Hrep].
      destruct (FS.assoc f l') as [c'|] eqn:Ha'; [|reflexivity].
      exfalso. apply assoc_some_in in Ha'. rewrite Hl' in Ha'.
      apply filter_In in Ha' as [Hin' Hst].
      pose proof (entry_unique l (f, c') f c Hnd Hin' eq_refl Ha) as Heq.
      injection Heq as ->. unfold stays in Hst. cbn [fst] in Hst.
      rewrite (proj2 (Hmem f) Hf), Hr in Hst. discriminate.
    + right. split; [|exact Hrep]. rewrite Ha.
      apply assoc_in_nodup; [exact Hndl'|]. rewrite Hl'. apply filter_In.
      split; [exact Hinl|]. unfold stays. rewrite Hr. now rewrite andb_false_r.
  - intros Hall. unfold zips_in. rewrite Hl', filter_filter.
    assert (Heq : filter (fun a => stays E folder olds a && Py.endswith (fst a) ".zip") l
                  = filter (fun e => String.eqb (fst e) newest) (zips_in l)).
    { unfold zips_in. rewrite filter_filter. apply filter_ext_in. intros e He.
      destruct (Py.endswith (fst e) ".zip") eqn:Hz;
        [|now rewrite andb_false_r].
      rewrite andb_true_r. cbn [andb].
      assert (Hez : In e (zips_in l)) by (apply filter_In; split; assumption).
      unfold stays. rewrite (Hall e Hez), andb_true_r.
      destruct (String.eqb_spec (fst e) newest) as [->|Hne].
      - destruct (Py.mem newest olds) eqn:Hm; [|reflexivity].
        apply Hmem in Hm. contradiction.
      - destruct (in_app_or _ _ _ (Hnames e Hez)) as [Ho|[Hn|[]]].
        + now rewrite (proj2 (Hmem _) Ho).
        + congruence. }
    rewrite Heq.
    rewrite (filter_unique fst newest (zips_in l) (newest, n) Hndz Hin_new eq_refl).
    reflexivity.
Qed.

(** C5: the cleanup of an output directory [zl] whose folders, and the
    entries of each folder, have distinct names.  The step returns, and
    for every folder [id] with entries [l] before and [l'] after:
    with no archive before there is none after; otherwise, [newest]
    being the last of the archives by modification time and [olds] the
    others, [newest] is still there and no archive present before was
    modified later; each of [olds] is either gone and reported as
    removed, or still there and reported as a failure; and when no
    removal is refused, [newest] is the only archive left. *)
Theorem cleanup_keeps_newest (w : world) (m : nat) (zl : listing) :
  FS.lookup zips_path (release w) = Some (Dir m zl) ->
  NoDup (FS.names zl) ->
  (forall id mt l, In (id, Dir mt l) zl -> NoDup (FS.names l)) ->
  exists w',
    _cleanup_old_zips E w = (Ok tt, w')
    /\ forall id mt l,
        In (id, Dir mt l) zl ->
        exists l',
          FS.lookup (zips_path ++ [id]) (release w') = Some (Dir mt l')
          /\ (zips_in l = [] -> zips_in l' = [])
          /\ forall olds newest,
              sorted_by_mtime (zips_in l) = olds ++ [newest] ->
              (exists n, In (newest, n) (zips_in l') /\ In (newest, n) (zips_in l)
                         /\ forall e, In e (zips_in l) ->
                                      getmtime (snd e) <= getmtime n)
              /\ (forall f, In f olds ->
                    (FS.assoc f l' = None
                     /\ In (RemovedOldZip (zips_path ++ [id; f])) (stdout w'))
                    \/ (FS.assoc f l' = FS.assoc f l
                        /\ In (FailedRemoveOldZip (zips_path ++ [id; f]) OSError)
                              (stdout w')))
              /\ ((forall e, In e (zips_in l) ->
                              removable E (zips_path ++ [id]) e = true) ->
                  FS.names (zips_in l') = [newest]).
Proof.
  intros Hz Hnd Hfolders.
  destruct (cleanup_spec w m zl Hz Hnd) as (w' & zl' & Hrun & Hz' & Hclean & Hstd).
  exists w'. split; [exact Hrun|].
  intros id mt l Hin. exists (fst (clean_folder E id l)).
  split; [|split].
  - change (zips_path ++ [id]) with (zips_path ++ id :: []).
    rewrite (lookup_in_zips w' m zl' id [] Hz'), (Hclean _ _ Hin). reflexivity.
  - intros Hnone. unfold clean_folder. rewrite Hnone.
    change (zips_in l = []). exact Hnone.
  - intros olds newest Hsorted.
    destruct (clean_folder_facts id l olds newest (Hfolders _ _ _ Hin) Hsorted)
      as (Hnew & Hold & Hone).
    split; [exact Hnew|]. split; [|exact Hone].
    assert (Hincl : forall x, In x (snd (clean_folder E id l)) -> In x (stdout w')).
    { intros x Hx. rewrite Hstd. apply in_or_app. right.
      apply in_flat_map. exists (id, Dir mt l). split; [exact Hin|exact Hx]. }
    intros f Hf. destruct (Hold f Hf) as [[Ha Hr]|[Ha Hr]]; [left|right]; auto.
Qed.

End Cleanup.

(* ------------------------------------------------------------------ *)
(** ** The removal of compiled files *)
(* ------------------------------------------------------------------ *)

Section RemoveBinaries.

Variable E : env.

Lemma remove_binaries_in_dir parent m entries :
  remove_binaries_in E parent (Dir m entries)
  = let '(kept, mf, md, mw) := rb_entries E parent entries in
    (Dir m kept, mf ++ md ++ mw).
Proof. reflexivity. Qed.

Lemma rb_entries_cons parent name c es :
  rb_entries E parent ((name, c) :: es)
  = let '(kept, mf, md, mw) := rb_entries E parent es in
    let here := parent ++ [name] in
    match c with
    | File _ _ =>
        if is_compiled name then
          if deny_remove E (InRelease here)
          then ((name, c) :: kept, FailedRemoveCompiled here :: mf, md, mw)
          else (kept, RemovedCompiled here :: mf, md, mw)
        else ((name, c) :: kept, mf, md, mw)
    | Dir _ _ =>
        if is_cache name then
          if deny_remove E (InRelease here)
          then let '(c', ms) := remove_binaries_in E here c in
               ((name, c') :: kept, mf, FailedRemoveCache here :: md, ms ++ mw)
          else (kept, mf, RemovedCache here :: md, mw)
        else let '(c', ms) := remove_binaries_in E here c in
             ((name, c') :: kept, mf, md, ms ++ mw)
    end.
Proof. reflexivity. Qed.

Lemma lookup_node_file p x m c : FS.lookup_node (p ++ [x]) (File m c) = None.
Proof. now destruct p. Qed.

Lemma left_behind_more parent n ms ms' :
  left_behind E parent n ms -> left_behind E parent n (ms ++ ms').
Proof.
  intros H p x c Hl Ht. destruct (H p x c Hl Ht) as [Hd Hin].
  split; [exact Hd|]. apply in_or_app. now left.
Qed.

Lemma rb_entries_left_behind parent l :
  Forall (fun e => forall parent,
              left_behind E parent (fst (remove_binaries_in E parent (snd e)))
                          (snd (remove_binaries_in E parent (snd e)))) l ->
  entries_left_behind E parent (rb_entries E parent l).
Proof.
  induction 1 as [|[name c] l Hc _ IH].
  - cbn. intros name c' [].
  - rewrite rb_entries_cons.
    destruct (rb_entries E parent l) as [[[kept mf] md] mw].
    cbn [snd] in Hc. specialize (Hc (parent ++ [name])).
    unfold entries_left_behind in *.
    assert (Hrest : forall mf' md' mw' name' c',
               In (name', c') kept ->
               (forall x, In x mf -> In x mf') ->
               (forall x, In x md -> In x md') ->
               (forall x, In x mw -> In x mw') ->
               (targeted name' c' = true ->
                deny_remove E (InRelease (parent ++ [name'])) = true
                /\ In (failure (parent ++ [name']) c') (mf' ++ md'))
               /\ left_behind E (parent ++ [name']) c' mw').
    { intros mf' md' mw' name' c' Hin Hf Hd Hw.
      destruct (IH name' c' Hin) as [Htop Hdeep]. split.
      - intros Ht. destruct (Htop Ht) as [Hdeny Hmsg]. split; [exact Hdeny|].
        apply in_app_or in Hmsg as [Hm|Hm]; apply in_or_app; auto.
      - intros q x c0 Hl Ht. destruct (Hdeep q x c0 Hl Ht) as [Hdeny Hmsg].
        split; auto. }
    destruct c as [mt data|mt sub]; cbv zeta.
    + destruct (is_compiled name) eqn:Hcomp;
        [destruct (deny_remove E (InRelease (parent ++ [name]))) eqn:Hdeny|].
      * intros name' c' [Heq|Hin].
        -- injection Heq as <- <-. split.
           ++ intros _. split; [exact Hdeny|]. now left.
           ++ intros q x c0 Hl. now rewrite lookup_node_file in Hl.
        -- apply Hrest; auto. intros x Hx. now right.
      * intros name' c' Hin. apply Hrest; auto. intros x Hx. now right.
      * intros name' c' [Heq|Hin].
        -- injection Heq as <- <-. split.
           ++ cbn [targeted]. congruence.
           ++ intros q x c0 Hl. now rewrite lookup_node_file in Hl.
        -- apply Hrest; auto.
    + destruct (is_cache name) eqn:Hcache;
        [destruct (deny_remove E (InRelease (parent ++ [name]))) eqn:Hdeny|].
      * destruct (remove_binaries_in E (parent ++ [name]) (Dir mt sub))
          as [c1 ms] eqn:Hrb.
        cbn [fst snd] in Hc.
        intros name' c' [Heq|Hin].
        -- injection Heq as <- <-. split.
           ++ intros _. split; [exact Hdeny|].
              apply in_or_app. right. left.
              rewrite remove_binaries_in_dir in Hrb.
              destruct (rb_entries E (parent ++ [name]) sub) as [[[k1 f1] d1] w1].
              injection Hrb as <- _. reflexivity.
           ++ now apply left_behind_more.
        -- apply Hrest; auto.
           ++ intros x Hx. now right.
           ++ intros x Hx. apply in_or_app. now right.
      * intros name' c' Hin. apply Hrest; auto. intros x Hx. now right.
      * destruct (remove_binaries_in E (parent ++ [name]) (Dir mt sub))
          as [c1 ms] eqn:Hrb.
        cbn [fst snd] in Hc.
        intros name' c' [Heq|Hin].
        -- injection Heq as <- <-. split.
           ++ intros Ht. exfalso.
              rewrite remove_binaries_in_dir in Hrb.
              destruct (rb_entries E (parent ++ [name]) sub) as [[[k1 f1] d1] w1].
              injection Hrb as <- _. cbn [targeted] in Ht. congruence.
           ++ now apply left_behind_more.
        -- apply Hrest; auto. intros x Hx. apply in_or_app. now right.
Qed.

Lemma remove_binaries_in_left_behind n :
  forall parent,
    left_behind E parent (fst (remove_binaries_in E parent n))
                (snd (remove_binaries_in E parent n)).
Proof.
  induction n as [m c|m l IH] using node_induction; intros parent.
  - cbn [remove_binaries_in fst snd]. intros p x c0 Hl.
    now rewrite lookup_node_file in Hl.
  - rewrite remove_binaries_in_dir.
    pose proof (rb_entries_left_behind parent l IH) as H.
    destruct (rb_entries E parent l) as [[[kept mf] md] mw].
    cbn [fst snd]. unfold entries_left_behind in H.
    intros p x c Hl Ht.
    destruct p as [|y p]; cbn [app FS.lookup_node] in Hl.
    + destruct (FS.assoc x kept) as [c'|] eqn:Ha; [|discriminate].
      injection Hl as ->. apply assoc_some_in in Ha.
      destruct (H x c Ha) as [Htop _].
      destruct (Htop Ht) as [Hdeny Hmsg]. cbn [app]. split; [exact Hdeny|].
      apply in_app_or in Hmsg as [Hm|Hm]; apply in_or_app; [now left|right].
      apply in_or_app. now left.
    + destruct (FS.assoc y kept) as [c'|] eqn:Ha; [|discriminate].
      apply assoc_some_in in Ha.
      destruct (H y c' Ha) as [_ Hdeep].
      destruct (Hdeep p x c Hl Ht) as [Hdeny Hmsg].
      rewrite <- app_assoc in Hdeny, Hmsg. cbn [app] in Hdeny, Hmsg.
      split; [exact Hdeny|]. apply in_or_app. right. apply in_or_app.
      right. exact Hmsg.
Qed.

Lemma rb_entries_assoc parent x c l :
  FS.assoc x l = Some c ->
  targeted x c = false ->
  FS.assoc x (fst (fst (fst (rb_entries E parent l))))
  = Some (fst (remove_binaries_in E (parent ++ [x]) c)).
Proof.
  intros Ha Ht. induction l as [|[k c0] l IH]; [discriminate|].
  rewrite rb_entries_cons.
  destruct (rb_entries E parent l) as [[[kept mf] md] mw]. cbn [fst] in IH.
  cbn [FS.assoc] in Ha. cbv zeta.
  destruct (String.eqb_spec x k) as [<-|Hxk].
  - injection Ha as ->. destruct c as [mt data|mt sub]; cbn [targeted] in Ht.
    + rewrite Ht. cbn [fst FS.assoc remove_binaries_in].
      now rewrite String.eqb_refl.
    + rewrite Ht.
      destruct (remove_binaries_in E (parent ++ [x]) (Dir mt sub)) as [c1 ms].
      cbn [fst FS.assoc]. now rewrite String.eqb_refl.
  - specialize (IH Ha).
    assert (Hskip : forall c1, FS.assoc x ((k, c1) :: kept) = FS.assoc x kept).
    { intros c1. cbn [FS.assoc].
      destruct (String.eqb_spec x k); [contradiction|reflexivity]. }
    destruct c0 as [mt data|mt sub].
    + destruct (is_compiled k);
        [destruct (deny_remove E (InRelease (parent ++ [k])))|];
        cbn [fst]; rewrite ?Hskip; exact IH.
    + destruct (remove_binaries_in E (parent ++ [k]) (Dir mt sub)) as [c1 ms].
      destruct (is_cache k);
        [destruct (deny_remove E (InRelease (parent ++ [k])))|];
        cbn [fst]; rewrite ?Hskip; exact IH.
Qed.

(** What the removal was not meant for stays where it is. *)
Lemma remove_binaries_in_spares p :
  forall n parent c,
    FS.lookup_node p n = Some c ->
    spared p n ->
    FS.lookup_node p (fst (remove_binaries_in E parent n))
    = Some (fst (remove_binaries_in E (parent ++ p) c)).
Proof.
  induction p as [|x p IH]; intros n parent c Hl Hs.
  - cbn in Hl. injection Hl as ->. now rewrite app_nil_r.
  - destruct n as [m d|m l]; [contradiction|].
    cbn [FS.lookup_node spared] in Hl, Hs.
    destruct (FS.assoc x l) as [c0|] eqn:Ha; [|contradiction].
    destruct Hs as [Ht Hs].
    rewrite remove_binaries_in_dir.
    pose proof (rb_entries_assoc parent x c0 l Ha Ht) as Hk.
    destruct (rb_entries E parent l) as [[[kept mf] md] mw].
    cbn [fst] in Hk. cbn [fst FS.lookup_node]. rewrite Hk.
    rewrite (IH c0 (parent ++ [x]) c Hl Hs), <- app_assoc. reflexivity.
Qed.

Lemma remove_binaries_returns w :
  exists r,
    remove_binaries_in E [] (Dir 0 (release w))
    = (Dir 0 r, snd (remove_binaries_in E [] (Dir 0 (release w))))
    /\ _remove_binaries E w
       = (Ok tt, with_stdout (with_release w r)
                   (stdout w ++ snd (remove_binaries_in E [] (Dir 0 (release w))))).
Proof.
  unfold _remove_binaries. rewrite remove_binaries_in_dir.
  destruct (rb_entries E [] (release w)) as [[[kept mf] md] mw].
  exists kept. split; reflexivity.
Qed.

(** C9: the removal of compiled files is the stage of a run that comes
    before the manifest, the cleanup and the promotion.  It never
    raises.  After it, a file whose name in lower case ends in [pyc] or
    [pyo], or a directory whose name in lower case contains [pycache],
    is found below the release directory only where its removal was
    refused, and that failure is printed; so when nothing is refused
    none is left.  A file on a path along which no name calls for a
    removal stays as it is. *)
Theorem remove_binaries_first (w : world) :
  (forall w0,
      prepare E w = (Ok tt, w0) ->
      exists w1,
        _remove_binaries E w0 = (Ok tt, w1)
        /\ __init__ E w = (update_manifest E ;; later_stages E) w1)
  /\ exists w',
      _remove_binaries E w = (Ok tt, w')
      /\ root w' = root w
      /\ (forall p x c,
             FS.lookup (p ++ [x]) (release w') = Some c ->
             targeted x c = true ->
             deny_remove E (InRelease (p ++ [x])) = true
             /\ In (failure (p ++ [x]) c) (stdout w'))
      /\ ((forall l, deny_remove E l = false) ->
          forall p x c,
            FS.lookup (p ++ [x]) (release w') = Some c -> targeted x c = false)
      /\ (forall p m d,
             FS.lookup p (release w) = Some (File m d) ->
             spared p (Dir 0 (release w)) ->
             FS.lookup p (release w') = Some (File m d)).
Proof.
  split.
  - intros w0 Hprep.
    destruct (remove_binaries_returns w0) as (r & _ & Hrun).
    eexists. split; [exact Hrun|].
    unfold __init__. unfold prepare in Hprep.
    unfold bind at 1. unfold bind at 1 in Hprep.
    destruct (new_object w) as [[[]|e] wa]; [|discriminate].
    unfold bind at 1. unfold bind at 1 in Hprep.
    destruct (exists_ zips_path wa) as [[ex|e] wb]; [|discriminate].
    unfold bind at 1.
    destruct ((if ex then ret tt else makedirs E zips_path) wb) as [[[]|e] wc];
      [|discriminate].
    injection Hprep as ->. unfold bind at 1. now rewrite Hrun.
  - destruct (remove_binaries_returns w) as (r & Hr & Hrun).
    pose proof (remove_binaries_in_left_behind (Dir 0 (release w)) []) as Hleft.
    rewrite Hr in Hleft. cbn [fst snd] in Hleft.
    eexists. split; [exact Hrun|]. split; [reflexivity|].
    cbn [release stdout with_stdout with_release].
    assert (Hrep : forall p x c,
               FS.lookup (p ++ [x]) r = Some c ->
               targeted x c = true ->
               deny_remove E (InRelease (p ++ [x])) = true
               /\ In (failure (p ++ [x]) c)
                     (stdout w ++ snd (remove_binaries_in E [] (Dir 0 (release w))))).
    { intros p x c Hl Ht. destruct (Hleft p x c Hl Ht) as [Hd Hm].
      cbn [app] in Hd, Hm. split; [exact Hd|]. apply in_or_app. now right. }
    split; [exact Hrep|]. split.
    + intros Hnone p x c Hl.
      destruct (targeted x c) eqn:Ht; [|reflexivity].
      destruct (Hrep p x c Hl Ht) as [Hd _]. now rewrite Hnone in Hd.
    + intros p m d Hl Hs.
      pose proof (remove_binaries_in_spares p (Dir 0 (release w)) [] (File m d) Hl Hs)
        as Hsp.
      rewrite Hr in Hsp. exact Hsp.
Qed.

End RemoveBinaries.

(** The test on the name of a file asks for the three letters, not for
    the extension. *)
Example is_compiled_without_extension :
  is_compiled "mypyc" = true /\ is_compiled "Module.PYO" = true
  /\ is_compiled "typo" = false /\ is_cache "old_PyCache.bak" = true.
Proof. repeat split. Qed.

(* ------------------------------------------------------------------ *)
(** ** The copy of the declaration and of the assets *)
(* ------------------------------------------------------------------ *)

(** *** What a write and a new directory change on disk *)












Section CopyMeta.

Variable E : env.






Section Returns.

Variables (x : string) (q : path) (id : string).
Hypothesis Hx : x <> "zips".
Hypothesis Hallow : forall p, deny_write E (InRelease p) = false.






End Returns.


End CopyMeta.

(* ------------------------------------------------------------------ *)
(** ** The link of the index page *)
(* ------------------------------------------------------------------ *)

Local Open Scope string_scope.

Lemma strip_prefix_app p s : strip_prefix p (p ++ s) = Some s.
Proof.
  induction p as [|a p IH]; [reflexivity|].
  cbn [append strip_prefix]. now rewrite Ascii.eqb_refl.
Qed.

Lemma append_assoc (a b c : string) : (a ++ b) ++ c = a ++ b ++ c.
Proof. induction a as [|x a IH]; [reflexivity|]. cbn [append]. now rewrite IH. Qed.

Lemma length_append (a b : string) :
  String.length (a ++ b) = String.length a + String.length b.
Proof. induction a as [|x a IH]; [reflexivity|]. cbn [append String.length]. now rewrite IH. Qed.

(** A star that may run over [h] because what follows [h] matches. *)
Lemma star_runs_over c items h s r :
  has_char c h = false ->
  match_items (StarNot c :: items) s = Some r ->
  match_items (StarNot c :: items) (h ++ s) = Some r.
Proof.
  intros Hh Hs. induction h as [|x h IH]; [exact Hs|].
  cbn [has_char] in Hh. apply orb_false_iff in Hh as [Hx Hh].
  specialize (IH Hh). cbn [append]. cbn [match_items] in IH |- *.
  rewrite Hx. now rewrite IH.
Qed.

Lemma anchor_shape stem text rest :
  anchor stem text ++ rest
  = link_open ++ stem ++ link_mid ++ text ++ link_close ++ rest.
Proof.
  unfold anchor, link_open, link_mid, link_close.
  rewrite !append_assoc. reflexivity.
Qed.

Lemma match_lit l items s :
  match_items (Lit l :: items) (l ++ s) = match_items items s.
Proof. cbn [match_items]. now rewrite strip_prefix_app. Qed.

(** The first star meets the extension: it runs over it up to the double
    quote, and gives it back for the literal that follows. *)
Lemma star_gives_back items s :
  match_items (StarNot (ascii_of_nat 34) :: Lit link_mid :: items) (link_mid ++ s)
  = match_items items s.
Proof. reflexivity. Qed.

Lemma star_stops_at_close s :
  match_items [StarNot "<"%char; Lit link_close] (link_close ++ s) = Some s.
Proof. reflexivity. Qed.

Lemma match_anchor stem text rest :
  has_char (ascii_of_nat 34) stem = false ->
  has_char "<"%char text = false ->
  match_items anchor_pattern (anchor stem text ++ rest) = Some rest.
Proof.
  intros Hstem Htext. rewrite anchor_shape.
  change anchor_pattern
    with [Lit link_open; StarNot (ascii_of_nat 34); Lit link_mid;
          StarNot "<"%char; Lit link_close].
  rewrite match_lit.
  apply star_runs_over; [exact Hstem|].
  rewrite star_gives_back.
  apply star_runs_over; [exact Htext|].
  apply star_stops_at_close.
Qed.

Lemma quiet_no_match c s rest :
  quiet (String c s) = true ->
  match_items anchor_pattern (String c s ++ rest) = None.
Proof.
  cbn [quiet]. intros H. apply andb_true_iff in H as [H _].
  change anchor_pattern
    with [Lit link_open; StarNot (ascii_of_nat 34); Lit link_mid;
          StarNot "<"%char; Lit link_close].
  cbn [match_items append].
  change link_open with (String "<"%char (String "a"%char (" href=" ++ dquote))).
  cbn [strip_prefix].
  destruct (Ascii.eqb "<"%char c); [|reflexivity].
  destruct s as [|d s]; [discriminate|]. cbn [append].
  apply negb_true_iff in H. now rewrite H.
Qed.

Section Substitution.

Variable repl : string.

Lemma re_sub_text s :
  forall rest,
    quiet s = true ->
    re_sub_from anchor_pattern repl 0 (s ++ rest)
    = s ++ re_sub_from anchor_pattern repl 0 rest.
Proof.
  induction s as [|c s IH]; intros rest Hq; [reflexivity|].
  pose proof (quiet_no_match c s rest Hq) as Hn.
  cbn [append] in Hn |- *. cbn [re_sub_from]. rewrite Hn.
  cbn [quiet] in Hq. apply andb_true_iff in Hq as [_ Hq].
  now rewrite IH.
Qed.

Lemma re_sub_skip items s :
  forall rest,
    re_sub_from items repl (String.length s) (s ++ rest)
    = re_sub_from items repl 0 rest.
Proof.
  induction s as [|c s IH]; intros rest; [reflexivity|].
  cbn [String.length append re_sub_from]. apply IH.
Qed.

Lemma re_sub_anchor stem text rest :
  has_char (ascii_of_nat 34) stem = false ->
  has_char "<"%char text = false ->
  re_sub_from anchor_pattern repl 0 (anchor stem text ++ rest)
  = repl ++ re_sub_from anchor_pattern repl 0 rest.
Proof.
  intros Hstem Htext.
  pose proof (match_anchor stem text rest Hstem Htext) as Hm.
  remember (anchor stem text) as a eqn:Ha.
  assert (Hcons : exists a', a = String "<"%char a').
  { subst a. unfold anchor. eexists. reflexivity. }
  destruct Hcons as (a' & ->).
  cbn [append] in Hm |- *. cbn [re_sub_from]. rewrite Hm. f_equal.
  cbn [String.length]. rewrite length_append.
  replace (S (String.length a' + String.length rest) - String.length rest - 1)
    with (String.length a') by lia.
  apply re_sub_skip.
Qed.

End Substitution.

Lemma re_sub_pieces link ps :
  forallb wf_piece ps = true ->
  re_sub anchor_pattern link (render ps) = relinked link ps.
Proof.
  unfold re_sub. induction ps as [|[s|stem text] ps IH]; intros Hwf; [reflexivity| |];
    cbn [forallb wf_piece] in Hwf; apply andb_true_iff in Hwf as [Hp Hwf];
    cbn [render relinked].
  - rewrite re_sub_text by exact Hp. now rewrite IH.
  - apply andb_true_iff in Hp as [Hs Ht].
    apply negb_true_iff in Hs, Ht.
    rewrite re_sub_anchor by assumption. now rewrite IH.
Qed.

(** What the engine matches is an anchor of the exact form, and nothing
    else. *)
Lemma strip_prefix_inv p :
  forall s s', strip_prefix p s = Some s' -> s = p ++ s'.
Proof.
  induction p as [|a p IH]; intros s s' H; cbn [strip_prefix] in H.
  - now injection H as ->.
  - destruct s as [|b s]; [discriminate|].
    destruct (Ascii.eqb_spec a b) as [->|_]; [|discriminate].
    cbn [append]. now rewrite (IH s s' H).
Qed.

Lemma star_inv c items :
  forall s r,
    match_items (StarNot c :: items) s = Some r ->
    exists h s2,
      s = h ++ s2 /\ has_char c h = false /\ match_items items s2 = Some r.
Proof.
  induction s as [|x s IH]; intros r H.
  - exists EmptyString, EmptyString. auto.
  - cbn [match_items] in H, IH.
    destruct (Ascii.eqb x c) eqn:Hx.
    + exists EmptyString, (String x s). auto.
    + match type of H with
      | match ?star with _ => _ end = _ => destruct star as [r'|] eqn:Hs
      end.
      * injection H as ->. destruct (IH r eq_refl) as (h & s2 & -> & Hh & Hm).
        exists (String x h), s2. cbn [append has_char]. rewrite Hx. auto.
      * exists EmptyString, (String x s). auto.
Qed.

Lemma match_is_anchor t r :
  match_items anchor_pattern t = Some r ->
  exists stem text,
    has_char (ascii_of_nat 34) stem = false
    /\ has_char "<"%char text = false
    /\ t = anchor stem text ++ r.
Proof.
  change anchor_pattern
    with [Lit link_open; StarNot (ascii_of_nat 34); Lit link_mid;
          StarNot "<"%char; Lit link_close].
  intros H. cbn [match_items] in H.
  destruct (strip_prefix link_open t) as [t1|] eqn:H1; [|discriminate].
  apply strip_prefix_inv in H1. subst t.
  change (match_items [StarNot (ascii_of_nat 34); Lit link_mid;
                       StarNot "<"%char; Lit link_close] t1 = Some r) in H.
  apply star_inv in H as (stem & t2 & -> & Hstem & H).
  cbn [match_items] in H.
  destruct (strip_prefix link_mid t2) as [t3|] eqn:H2; [|discriminate].
  apply strip_prefix_inv in H2. subst t2.
  change (match_items [StarNot "<"%char; Lit link_close] t3 = Some r) in H.
  apply star_inv in H as (text & t4 & -> & Htext & H).
  cbn [match_items] in H.
  destruct (strip_prefix link_close t4) as [t5|] eqn:H3; [|discriminate].
  apply strip_prefix_inv in H3. subst t4. injection H as ->.
  exists stem, text. split; [exact Hstem|]. split; [exact Htext|].
  now rewrite anchor_shape.
Qed.

Lemma calm_no_match c s rest :
  calm (String c s) rest ->
  match_items anchor_pattern (String c s ++ rest) = None.
Proof.
  intros [Hno _].
  destruct (match_items anchor_pattern (String c s ++ rest)) as [r|] eqn:Hm;
    [|reflexivity].
  exfalso. apply Hno.
  destruct (match_is_anchor _ _ Hm) as (stem & text & Hs & Ht & Heq).
  exists stem, text, r. auto.
Qed.

Lemma re_sub_calm repl s :
  forall rest,
    calm s rest ->
    re_sub_from anchor_pattern repl 0 (s ++ rest)
    = s ++ re_sub_from anchor_pattern repl 0 rest.
Proof.
  induction s as [|c s IH]; intros rest Hc; [reflexivity|].
  pose proof (calm_no_match c s rest Hc) as Hn.
  cbn [append] in Hn |- *. cbn [re_sub_from]. rewrite Hn.
  destruct Hc as [_ Hc]. now rewrite IH.
Qed.

(** The substitution on a page cut into its pieces. *)
Lemma re_sub_page link ps :
  page_shape ps ->
  re_sub anchor_pattern link (render ps) = relinked link ps.
Proof.
  unfold re_sub. induction ps as [|[s|stem text] ps IH]; intros Hwf; [reflexivity| |];
    cbn [page_shape] in Hwf; cbn [render relinked].
  - destruct Hwf as [Hc Hwf]. rewrite re_sub_calm by exact Hc. now rewrite IH.
  - destruct Hwf as (Hs & Ht & Hwf).
    rewrite re_sub_anchor by assumption. now rewrite IH.
Qed.

(** Text in which no anchor at all opens is calm, whatever follows. *)
Lemma quiet_calm s rest : quiet s = true -> calm s rest.
Proof.
  induction s as [|c s IH]; intros Hq; [exact I|].
  pose proof (quiet_no_match c s rest Hq) as Hn.
  cbn [quiet] in Hq. apply andb_true_iff in Hq as [_ Hq].
  split; [|now apply IH].
  intros (stem & text & r & Hs & Ht & Heq).
  rewrite Heq, (match_anchor stem text r Hs Ht) in Hn. discriminate.
Qed.

Lemma wf_page_shape ps : forallb wf_piece ps = true -> page_shape ps.
Proof.
  induction ps as [|[s|stem text] ps IH]; intros Hwf; [exact I| |];
    cbn [forallb wf_piece] in Hwf; apply andb_true_iff in Hwf as [Hp Hwf];
    cbn [page_shape].
  - split; [now apply quiet_calm|now apply IH].
  - apply andb_true_iff in Hp as [Hs Ht]. apply negb_true_iff in Hs, Ht.
    auto.
Qed.

(** Every text can be cut in this way. *)
Lemma page_decomposes n :
  forall s, String.length s <= n -> exists ps, render ps = s /\ page_shape ps.
Proof.
  induction n as [|n IH]; intros s Hlen.
  - destruct s; [|cbn in Hlen; lia]. exists []. split; [reflexivity|exact I].
  - destruct s as [|c s]; [exists []; split; [reflexivity|exact I]|].
    destruct (match_items anchor_pattern (String c s)) as [r|] eqn:Hm.
    + destruct (match_is_anchor _ _ Hm) as (stem & text & Hs & Ht & Heq).
      assert (Hr : String.length r <= n).
      { apply (f_equal String.length) in Heq. rewrite length_append in Heq.
        unfold anchor in Heq. cbn [append String.length] in Heq, Hlen. lia. }
      destruct (IH r Hr) as (ps & Hrender & Hshape).
      exists (ArchiveLink stem text :: ps). cbn [render page_shape].
      rewrite Hrender. auto.
    + cbn [String.length] in Hlen.
      destruct (IH s ltac:(lia)) as (ps & Hrender & Hshape).
      exists (Plain (String c EmptyString) :: ps). cbn [render page_shape calm append].
      rewrite Hrender. repeat split; [|exact Hshape].
      intros (stem & text & r & Hs & Ht & Heq).
      rewrite Heq, (match_anchor stem text r Hs Ht) in Hm. discriminate.
Qed.

(** C7, as the code has it.  The promoted archive is [zip_name], a name
    free of backslashes (which [re.sub] would read as escapes); the page
    is read with its line ends translated.  The text read can be cut into
    the anchors to archives written with their href as only attribute
    and the text between them, in which no such anchor opens; and for
    every such cut, each of these anchors, not the first only, becomes
    the anchor of [zip_name] while the text between them, anchors of
    another form included, stays.  The page is written, with the text so
    obtained, when that text differs from the text read, and only then;
    a refused write raises and leaves the page; and when the text is the
    same the step prints that the page is up to date and leaves the world
    as it is. *)
Theorem index_links_all_replaced
        (E : env) (w : world) (zip_name : string) (m : nat) (page : string) :
  latest_repo_zip_name w = Some zip_name ->
  zip_name <> EmptyString ->
  has_char (ascii_of_nat 92) zip_name = false ->
  FS.assoc "index.html" (root w) = Some (File m (Blob page)) ->
  (exists ps, render ps = universal_newlines page /\ page_shape ps)
  /\ forall ps,
      render ps = universal_newlines page ->
      page_shape ps ->
      let updated := relinked (new_link zip_name) ps in
      (updated <> render ps ->
       deny_write E (InRoot "index.html") = false ->
       _update_index_html E w
       = (Ok tt,
          with_stdout
            (with_root w (FS.set "index.html" (File (now E) (Blob updated)) (root w)))
            (stdout w ++ [UpdatedIndex zip_name])))
      /\ (updated <> render ps ->
          deny_write E (InRoot "index.html") = true ->
          _update_index_html E w = (Raise OSError, w))
      /\ (updated = render ps ->
          _update_index_html E w = (Ok tt, with_stdout w (stdout w ++ [IndexUpToDate]))).
Proof.
  intros Hlatest Hname _ Hpage. split.
  { exact (page_decomposes (String.length (universal_newlines page))
                           (universal_newlines page) (le_n _)). }
  intros ps Hread Hshape updated.
  pose proof (re_sub_page (new_link zip_name) ps Hshape) as Hsub.
  fold updated in Hsub.
  assert (Hrun : _update_index_html E w
                 = if negb (String.eqb updated (render ps)) then
                     if deny_write E (InRoot "index.html") then (Raise OSError, w)
                     else print (UpdatedIndex zip_name)
                            (with_root w (FS.set "index.html"
                                            (File (now E) (Blob updated)) (root w)))
                   else print IndexUpToDate w).
  { unfold _update_index_html. rewrite Hlatest.
    destruct (String.eqb_spec zip_name EmptyString) as [Heq|_]; [contradiction|].
    rewrite Hpage. cbn [text_of]. now rewrite <- Hread, Hsub. }
  split; [|split].
  - intros Hdiff Hok. rewrite Hrun.
    destruct (String.eqb_spec updated (render ps)); [contradiction|].
    cbn [negb]. rewrite Hok. reflexivity.
  - intros Hdiff Hno. rewrite Hrun.
    destruct (String.eqb_spec updated (render ps)); [contradiction|].
    cbn [negb]. now rewrite Hno.
  - intros Hsame. rewrite Hrun.
    destruct (String.eqb_spec updated (render ps)); [|contradiction].
    reflexivity.
Qed.

(** C7 as it is stated fails on [TwoLinks.page]: the second anchor is
    replaced as well, so the page written is not the one in which the
    first match only was substituted. *)
Lemma second_link_is_replaced_too :
  let run := _update_index_html TwoLinks.E TwoLinks.w0 in
  fst run = Ok tt
  /\ FS.assoc "index.html" (root (snd run))
     = Some (File 0 (Blob (TwoLinks.link ++ " or " ++ TwoLinks.link)))
  /\ TwoLinks.link ++ " or " ++ TwoLinks.link
     <> TwoLinks.link ++ " or " ++ anchor "mirror-1.0" "mirror-1.0.zip".
Proof.
  split; [vm_compute; reflexivity|].
  split; [vm_compute; reflexivity|].
  apply String.eqb_neq. vm_compute. reflexivity.
Qed.

Lemma index_links_all_replaced_witness :
  latest_repo_zip_name TwoLinks.w0 = Some "repository.home-2.0.zip"
  /\ render TwoLinks.page = universal_newlines (render TwoLinks.page)
  /\ page_shape TwoLinks.page
  /\ _update_index_html TwoLinks.E TwoLinks.w0
     = (Ok tt,
        with_stdout
          (with_root TwoLinks.w0
             (FS.set "index.html"
                (File (now TwoLinks.E)
                      (Blob (relinked (new_link "repository.home-2.0.zip") TwoLinks.page)))
                (root TwoLinks.w0)))
          (stdout TwoLinks.w0 ++ [UpdatedIndex "repository.home-2.0.zip"])).
Proof.
  assert (H1 : latest_repo_zip_name TwoLinks.w0 = Some "repository.home-2.0.zip")
    by reflexivity.
  assert (H2 : "repository.home-2.0.zip" <> EmptyString) by discriminate.
  assert (H3 : has_char (ascii_of_nat 92) "repository.home-2.0.zip" = false)
    by reflexivity.
  assert (H4 : FS.assoc "index.html" (root TwoLinks.w0)
               = Some (File 0 (Blob (render TwoLinks.page)))) by reflexivity.
  assert (H5 : render TwoLinks.page = universal_newlines (render TwoLinks.page))
    by reflexivity.
  assert (H6 : page_shape TwoLinks.page) by (apply wf_page_shape; reflexivity).
  refine (conj H1 (conj H5 (conj H6 _))).
  apply (proj2 (index_links_all_replaced TwoLinks.E TwoLinks.w0 _ 0 _ H1 H2 H3 H4)
               TwoLinks.page H5 H6).
  - apply String.eqb_neq. vm_compute. reflexivity.
  - reflexivity.
Defined.

(* ------------------------------------------------------------------ *)
(** ** The theorems on small trees *)
(* ------------------------------------------------------------------ *)

Lemma zips_listed : FS.lookup zips_path (release Output.w0) = Some (Dir 0 Output.zl).
Proof. reflexivity. Qed.

Lemma zl_distinct : NoDup (FS.names Output.zl).
Proof. cbn. distinct_names. Qed.

Lemma folders_distinct :
  forall id mt l, In (id, Dir mt l) Output.zl -> NoDup (FS.names l).
Proof.
  intros id mt l [H|[H|[H|[]]]]; try discriminate;
    injection H as <- <- <-; cbn; distinct_names.
Qed.

Lemma cleanup_keeps_newest_witness :
  FS.lookup zips_path (release Output.w0) = Some (Dir 0 Output.zl)
  /\ NoDup (FS.names Output.zl)
  /\ (forall id mt l, In (id, Dir mt l) Output.zl -> NoDup (FS.names l))
  /\ exists w', _cleanup_old_zips Output.E Output.w0 = (Ok tt, w').
Proof.
  refine (conj zips_listed (conj zl_distinct
           (conj folders_distinct _))).
  destruct (cleanup_keeps_newest Output.E Output.w0 0 Output.zl
              zips_listed zl_distinct folders_distinct)
    as (w' & Hrun & _).
  exists w'. exact Hrun.
Defined.



(* ================================================================== *)
(** * Further properties *)
(* ================================================================== *)

(* ------------------------------------------------------------------ *)
(** ** Discovery *)
(* ------------------------------------------------------------------ *)

Local Open Scope list_scope.

Lemma in_nested_addons base l p :
  In p (nested_addons base l) <->
  exists y my suby,
    p = base ++ [y] /\ In (y, Dir my suby) l
    /\ reserved y = false /\ has_addon_xml suby = true.
Proof.
  unfold nested_addons. rewrite in_flat_map. split.
  - intros ([y [my suby|my suby]] & Hin & Hp); cbn [fst snd] in Hp; [destruct Hp|].
    destruct (negb (String.eqb y "zips") && negb (Py.startswith y ".")
              && has_addon_xml suby) eqn:Hc; [|destruct Hp].
    destruct Hp as [<-|[]].
    apply andb_prop in Hc as [Hc Hx]. apply andb_prop in Hc as [Hz Hd].
    exists y, my, suby. unfold reserved.
    destruct (String.eqb y "zips"), (Py.startswith y "."); try discriminate.
    auto.
  - intros (y & my & suby & -> & Hin & Hr & Hx).
    exists (y, Dir my suby). split; [exact Hin|]. cbn [fst snd].
    unfold reserved in Hr. apply orb_false_elim in Hr as [-> ->].
    rewrite Hx. now left.
Qed.

(** X1: what the discovery returns.  A path is returned exactly when it
    is a directory of the release directory, neither the output folder
    nor hidden, that holds an entry [addon.xml]; or when it is such a
    directory of the folder [repo] of a directory of the release
    directory that is neither reserved nor itself an add-on.  Nothing
    deeper is looked at, and a folder that holds [addon.xml] hides the
    add-ons of its own folder [repo]. *)
Theorem addon_folders_characterised (l : listing) (p : path) :
  In p (get_addon_folders l) <->
  (exists x m sub,
      p = [x] /\ In (x, Dir m sub) l
      /\ reserved x = false /\ has_addon_xml sub = true)
  \/ (exists x m sub mr nested y my suby,
         p = [x; "repo"; y] /\ In (x, Dir m sub) l
         /\ reserved x = false /\ has_addon_xml sub = false
         /\ FS.assoc "repo" sub = Some (Dir mr nested)
         /\ In (y, Dir my suby) nested
         /\ reserved y = false /\ has_addon_xml suby = true).
Proof.
  unfold get_addon_folders. rewrite in_flat_map. split.
  - intros ([x [m c|m sub]] & Hin & Hp); cbn [fst snd] in Hp; [destruct Hp|].
    fold (reserved x) in Hp. destruct (reserved x) eqn:Hr; [destruct Hp|].
    destruct (has_addon_xml sub) eqn:Hx.
    + destruct Hp as [<-|[]]. left. exists x, m, sub. auto.
    + destruct (FS.assoc "repo" sub) as [[|mr nested]|] eqn:Hrepo;
        try solve [destruct Hp].
      apply in_nested_addons in Hp as (y & my & suby & -> & Hy & Hry & Hxy).
      right. exists x, m, sub, mr, nested, y, my, suby. auto 10.
  - intros [(x & m & sub & -> & Hin & Hr & Hx)
           |(x & m & sub & mr & nested & y & my & suby
             & -> & Hin & Hr & Hx & Hrepo & Hy & Hry & Hxy)];
      exists (x, Dir m sub); (split; [exact Hin|]); cbn [fst snd];
      fold (reserved x); rewrite Hr, Hx.
    + now left.
    + rewrite Hrepo. apply in_nested_addons.
      exists y, my, suby. auto.
Qed.

(* ------------------------------------------------------------------ *)
(** ** The files left out of an archive *)
(* ------------------------------------------------------------------ *)

Lemma remove_absent f pre rest :
  ~ In f pre -> Py.remove f (pre ++ f :: rest) = pre ++ rest.
Proof.
  induction pre as [|y pre IH]; intros Hf; cbn [Py.remove app].
  - now rewrite String.eqb_refl.
  - destruct (String.eqb_spec f y) as [->|_]; [exfalso; apply Hf; now left|].
    rewrite IH; [reflexivity|]. intros H. apply Hf. now right.
Qed.

Lemma nth_error_at_length {A} (pre : list A) x rest :
  nth_error (pre ++ x :: rest) (List.length pre) = Some x.
Proof. induction pre; cbn; auto. Qed.

Lemma remove_matching_every_other i :
  forall fuel pre rest,
    NoDup (pre ++ rest) ->
    List.length rest <= fuel ->
    remove_matching fuel (List.length pre) i (pre ++ rest)
    = Some (pre ++ every_other i rest).
Proof.
  induction fuel as [|fuel IH]; intros pre rest Hnd Hlen.
  - destruct rest; [|cbn in Hlen; lia]. cbn [remove_matching every_other].
    rewrite app_nil_r.
    now rewrite (proj2 (nth_error_None pre (List.length pre)) (Nat.le_refl _)).
  - destruct rest as [|f rest].
    + cbn [remove_matching every_other]. rewrite app_nil_r.
      now rewrite (proj2 (nth_error_None pre (List.length pre)) (Nat.le_refl _)).
    + cbn [remove_matching]. rewrite nth_error_at_length.
      cbn [every_other]. cbn [List.length] in Hlen.
      destruct (Py.startswith f i).
      * rewrite remove_absent
          by (intros H; apply NoDup_remove_2 in Hnd; apply Hnd, in_or_app; now left).
        apply NoDup_remove_1 in Hnd.
        destruct rest as [|g rest].
        -- rewrite app_nil_r. destruct fuel; cbn [remove_matching];
             now rewrite (proj2 (nth_error_None pre (S (List.length pre))))
               by lia.
        -- replace (S (List.length pre)) with (List.length (pre ++ [g]))
             by (rewrite length_app; cbn; lia).
           replace (pre ++ g :: rest) with ((pre ++ [g]) ++ rest) in *
             by (now rewrite <- app_assoc).
           rewrite IH; [|exact Hnd|cbn [List.length] in Hlen; lia].
           now rewrite <- app_assoc.
      * replace (S (List.length pre)) with (List.length (pre ++ [f]))
          by (rewrite length_app; cbn; lia).
        replace (pre ++ f :: rest) with ((pre ++ [f]) ++ rest) in *
          by (now rewrite <- app_assoc).
        rewrite IH; [|exact Hnd|lia].
        now rewrite <- app_assoc.
Qed.

(** X2: the loop that drops the files of one ignore-list prefix, on a
    list of distinct names: a file is dropped when it is tested and its
    name starts with the prefix, and the file listed after a dropped one
    is never tested, so it stays whatever its name. *)
Theorem remove_ignored_files_every_other (i : string) (files : list string) :
  NoDup files ->
  remove_ignored_files i files = every_other i files.
Proof.
  intros Hnd. unfold remove_ignored_files.
  pose proof (remove_matching_every_other i (List.length files) [] files Hnd
                (Nat.le_refl _)) as H.
  cbn [List.length app] in H. now rewrite H.
Qed.

Lemma unique_names_dir m l :
  unique_names (Dir m l)
  <-> NoDup (FS.names l) /\ Forall (fun e => unique_names (snd e)) l.
Proof.
  cbn [unique_names]. apply and_iff_compat_l.
  induction l as [|[k c] l IH]; cbn [snd].
  - split; auto.
  - rewrite IH. split.
    + intros [H1 H2]. now constructor.
    + intros H. inversion H; subst. auto.
Qed.

Lemma archive_names_dir archive_root m entries :
  archive_names archive_root (Dir m entries)
  = map (fun f => archive_root ++ [f])
        (snd (prune (FS.dirnames entries) (FS.filenames entries)))
    ++ archive_below archive_root
         (fst (prune (FS.dirnames entries) (FS.filenames entries))) entries.
Proof.
  cbn [archive_names].
  destruct (prune (FS.dirnames entries) (FS.filenames entries)) as [dirs files].
  cbn [fst snd]. f_equal. unfold archive_below.
  induction entries as [|[name c] es IH]; [reflexivity|].
  cbn [flat_map fst snd]. now rewrite IH.
Qed.

Lemma prune_split ignore :
  forall dirs files,
    fold_left prune_step ignore (dirs, files)
    = (fold_left (fun ds i => if Py.mem i ds then Py.remove i ds else ds) ignore dirs,
       pruned_files ignore files).
Proof.
  induction ignore as [|i ignore IH]; intros dirs files; [reflexivity|].
  cbn [fold_left prune_step pruned_files]. now rewrite IH.
Qed.

Lemma remove_filter x l :
  NoDup l -> Py.remove x l = filter (fun d => negb (String.eqb x d)) l.
Proof.
  induction l as [|y l IH]; intros Hnd; [reflexivity|].
  inversion Hnd as [|? ? Hy Hl]; subst. cbn [Py.remove filter].
  destruct (String.eqb_spec x y) as [->|Hxy]; cbn [negb].
  - symmetry. apply filter_all. intros a Ha.
    destruct (String.eqb_spec y a) as [->|_]; [contradiction|reflexivity].
  - now rewrite IH.
Qed.

Lemma nodup_filter {A} (p : A -> bool) l : NoDup l -> NoDup (filter p l).
Proof.
  induction 1 as [|x l Hx Hl IH]; cbn [filter]; [constructor|].
  destruct (p x); [constructor|]; auto.
  intros H. apply filter_In in H. tauto.
Qed.

Lemma pruned_dirs ignore :
  forall dirs,
    NoDup dirs ->
    fold_left (fun ds i => if Py.mem i ds then Py.remove i ds else ds) ignore dirs
    = filter (fun d => negb (Py.mem d ignore)) dirs.
Proof.
  induction ignore as [|i ignore IH]; intros dirs Hnd; cbn [fold_left].
  - symmetry. now apply filter_all.
  - assert (Hstep : (if Py.mem i dirs then Py.remove i dirs else dirs)
                    = filter (fun d => negb (String.eqb i d)) dirs).
    { destruct (Py.mem i dirs) eqn:Hm; [now apply remove_filter|].
      symmetry. apply filter_all. intros a Ha.
      destruct (String.eqb_spec i a) as [->|_]; [|reflexivity].
      unfold Py.mem in Hm.
      assert (existsb (String.eqb a) dirs = true)
        by (apply existsb_exists; exists a; split; [auto|apply String.eqb_refl]).
      congruence. }
    rewrite Hstep, IH by now apply nodup_filter.
    rewrite filter_filter. apply filter_ext. intros d.
    unfold Py.mem. cbn [existsb]. rewrite (String.eqb_sym d i).
    now rewrite negb_orb.
Qed.

Lemma remove_incl x l : incl (Py.remove x l) l.
Proof.
  induction l as [|y l IH]; cbn [Py.remove]; [apply incl_refl|].
  destruct (String.eqb x y); [apply incl_tl, incl_refl|].
  intros a [<-|Ha]; [now left|right; now apply IH].
Qed.

Lemma remove_keeps x f l : In f l -> f <> x -> In f (Py.remove x l).
Proof.
  induction l as [|y l IH]; intros Hin Hne; [destruct Hin|].
  cbn [Py.remove]. destruct (String.eqb_spec x y) as [->|_].
  - destruct Hin as [->|Hin]; [contradiction|exact Hin].
  - destruct Hin as [->|Hin]; [now left|right; auto].
Qed.

Lemma remove_matching_incl i :
  forall fuel idx files l,
    remove_matching fuel idx i files = Some l -> incl l files.
Proof.
  induction fuel as [|fuel IH]; intros idx files l; cbn [remove_matching];
    destruct (nth_error files idx) as [f|];
    try (intros [= <-]; apply incl_refl); try discriminate.
  destruct (Py.startswith f i); intros H; apply IH in H; [|exact H].
  eapply incl_tran; [exact H|apply remove_incl].
Qed.

Lemma remove_matching_keeps i f :
  Py.startswith f i = false ->
  forall fuel idx files l,
    remove_matching fuel idx i files = Some l -> In f files -> In f l.
Proof.
  intros Hf. induction fuel as [|fuel IH]; intros idx files l;
    cbn [remove_matching];
    destruct (nth_error files idx) as [g|];
    try (intros [= <-]; auto); try discriminate.
  destruct (Py.startswith g i) eqn:Hg; intros H Hin; eapply IH; eauto.
  apply remove_keeps; [exact Hin|congruence].
Qed.

Lemma remove_ignored_files_incl i files : incl (remove_ignored_files i files) files.
Proof.
  eapply remove_matching_incl. apply remove_ignored_files_ends.
Qed.

Lemma remove_ignored_files_keeps i f files :
  Py.startswith f i = false -> In f files -> In f (remove_ignored_files i files).
Proof.
  intros Hf. eapply remove_matching_keeps; [exact Hf|].
  apply remove_ignored_files_ends.
Qed.

Lemma pruned_files_incl ignore :
  forall files, incl (pruned_files ignore files) files.
Proof.
  induction ignore as [|i ignore IH]; intros files; cbn [pruned_files fold_left];
    [apply incl_refl|].
  eapply incl_tran; [apply IH|apply remove_ignored_files_incl].
Qed.

Lemma pruned_files_keeps f ignore :
  forallb (fun i => negb (Py.startswith f i)) ignore = true ->
  forall files, In f files -> In f (pruned_files ignore files).
Proof.
  induction ignore as [|i ignore IH]; intros Hf files Hin;
    cbn [pruned_files fold_left]; [exact Hin|].
  cbn [forallb] in Hf. apply andb_prop in Hf as [Hi Hf].
  apply IH; [exact Hf|]. apply remove_ignored_files_keeps; [|exact Hin].
  now destruct (Py.startswith f i).
Qed.

Lemma in_filenames f l :
  In f (FS.filenames l) <-> exists m c, In (f, File m c) l.
Proof.
  unfold FS.filenames. rewrite in_map_iff. split.
  - intros ([k [m c|m sub]] & <- & H); apply filter_In in H as [H1 H2];
      [|discriminate]. now exists m, c.
  - intros (m & c & H). exists (f, File m c). split; [reflexivity|].
    apply filter_In. auto.
Qed.

Lemma in_dirnames d l :
  In d (FS.dirnames l) <-> exists m sub, In (d, Dir m sub) l.
Proof.
  unfold FS.dirnames. rewrite in_map_iff. split.
  - intros ([k [m c|m sub]] & <- & H); apply filter_In in H as [H1 H2];
      [discriminate|]. now exists m, sub.
  - intros (m & sub & H). exists (d, Dir m sub). split; [reflexivity|].
    apply filter_In. auto.
Qed.

Lemma nodup_dirnames l : NoDup (FS.names l) -> NoDup (FS.dirnames l).
Proof. intros H. apply (nodup_filter_names (fun e => is_dir (snd e)) l H). Qed.

Lemma mem_in x l : Py.mem x l = true <-> In x l.
Proof.
  unfold Py.mem. rewrite existsb_exists. split.
  - intros (y & Hy & Heq). apply String.eqb_eq in Heq. now subst.
  - intros H. exists x. split; [exact H|apply String.eqb_refl].
Qed.

(** The directories the walk goes into: those not named in the ignore
    list. *)
Lemma walked_dirs l d :
  NoDup (FS.names l) ->
  Py.mem d (fst (prune (FS.dirnames l) (FS.filenames l))) = true
  <-> In d (FS.dirnames l) /\ Py.mem d IGNORE = false.
Proof.
  intros Hnd. unfold prune. rewrite prune_split. cbn [fst].
  rewrite pruned_dirs by now apply nodup_dirnames.
  rewrite mem_in, filter_In. apply and_iff_compat_l.
  now destruct (Py.mem d IGNORE).
Qed.

Lemma archive_names_within n :
  forall archive_root name,
    unique_names n ->
    In name (archive_names archive_root n) ->
    exists q f m c,
      name = archive_root ++ q ++ [f]
      /\ FS.lookup_node (q ++ [f]) n = Some (File m c)
      /\ forall d, In d q -> Py.mem d IGNORE = false.
Proof.
  induction n as [m c|m l IH] using node_induction;
    intros archive_root name Hu Hin; [destruct Hin|].
  apply unique_names_dir in Hu as [Hnd Hall].
  rewrite archive_names_dir in Hin. apply in_app_or in Hin as [Hin|Hin].
  - apply in_map_iff in Hin as (f & <- & Hf).
    unfold prune in Hf. rewrite prune_split in Hf. cbn [snd] in Hf.
    apply pruned_files_incl, in_filenames in Hf as (mf & cf & Hf).
    exists [], f, mf, cf. cbn [app FS.lookup_node].
    rewrite (assoc_in_nodup f (File mf cf) l Hnd Hf).
    repeat split; auto. intros d [].
  - unfold archive_below in Hin.
    apply in_flat_map in Hin as ([x c] & Hx & Hin). cbn [fst snd] in Hin.
    destruct (is_dir c && Py.mem x (fst (prune (FS.dirnames l) (FS.filenames l))))
      eqn:Hc; [|destruct Hin].
    apply andb_prop in Hc as [_ Hw]. apply walked_dirs in Hw as [_ Hw]; [|exact Hnd].
    rewrite Forall_forall in IH, Hall.
    destruct (IH (x, c) Hx (archive_root ++ [x]) name (Hall (x, c) Hx) Hin)
      as (q & f & mf & cf & -> & Hlook & Hq).
    exists (x :: q), f, mf, cf. split; [now rewrite <- app_assoc|].
    split.
    + cbn [app FS.lookup_node]. now rewrite (assoc_in_nodup x c l Hnd Hx).
    + intros d [<-|Hd]; auto.
Qed.

(** X3: what an archive can hold.  Every entry of the archive built
    from the add-on folder named [a] is a file of that folder, named by
    its path from the parent of the folder (so every entry starts with
    [a]), and no directory below the add-on folder on that path is named
    in the ignore list.  The name [a] of the add-on folder itself is not
    tested against the list: the walk starts inside it. *)
Theorem archive_names_sound (n : node) (a : string) (name : path) :
  unique_names n ->
  In name (archive_names [a] n) ->
  exists q f m c,
    name = a :: q ++ [f]
    /\ FS.lookup_node (q ++ [f]) n = Some (File m c)
    /\ forall d, In d q -> Py.mem d IGNORE = false.
Proof.
  intros Hu Hin.
  destruct (archive_names_within n [a] name Hu Hin) as (q & f & m & c & H1 & H2 & H3).
  exists q, f, m, c. auto.
Qed.

Lemma archive_names_holds q :
  forall n archive_root f m c,
    unique_names n ->
    FS.lookup_node (q ++ [f]) n = Some (File m c) ->
    (forall d, In d q -> Py.mem d IGNORE = false) ->
    unignored f = true ->
    In (archive_root ++ q ++ [f]) (archive_names archive_root n).
Proof.
  induction q as [|x q IH]; intros [mn cn|mn l] archive_root f m c Hu Hlook Hq Hf;
    try discriminate;
    apply unique_names_dir in Hu as [Hnd Hall];
    rewrite archive_names_dir; apply in_or_app;
    cbn [app FS.lookup_node] in Hlook.
  - left. destruct (FS.assoc f l) as [c'|] eqn:Ha; [|discriminate].
    injection Hlook as ->. apply assoc_some_in in Ha.
    apply in_map_iff. exists f. split; [reflexivity|].
    unfold prune. rewrite prune_split. cbn [snd].
    apply pruned_files_keeps; [exact Hf|]. apply in_filenames. eauto.
  - right. destruct (FS.assoc x l) as [c'|] eqn:Ha; [|discriminate].
    apply assoc_some_in in Ha.
    destruct c' as [m' d'|m' sub]; [now rewrite lookup_node_file in Hlook|].
    unfold archive_below. apply in_flat_map. exists (x, Dir m' sub).
    split; [exact Ha|]. cbn [fst snd is_dir andb].
    assert (Hw : Py.mem x (fst (prune (FS.dirnames l) (FS.filenames l))) = true).
    { apply walked_dirs; [exact Hnd|]. split; [|apply Hq; now left].
      apply in_dirnames. eauto. }
    rewrite Hw. rewrite Forall_forall in Hall.
    replace (archive_root ++ (x :: q) ++ [f])
      with ((archive_root ++ [x]) ++ q ++ [f]) by (now rewrite <- app_assoc).
    apply (IH (Dir m' sub) (archive_root ++ [x]) f m c);
      [apply (Hall (x, Dir m' sub) Ha)|exact Hlook| |exact Hf].
    intros d Hd. apply Hq. now right.
Qed.

(** X4: what an archive never leaves out.  A file of the add-on folder
    whose name starts with no prefix of the ignore list, and which lies
    below no directory named in the ignore list, is an entry of the
    archive, under its path from the parent of the folder. *)
Theorem archive_keeps_unignored
        (n : node) (a : string) (q : path) (f : string) (m : nat) (c : content) :
  unique_names n ->
  FS.lookup_node (q ++ [f]) n = Some (File m c) ->
  (forall d, In d q -> Py.mem d IGNORE = false) ->
  unignored f = true ->
  In (a :: q ++ [f]) (archive_names [a] n).
Proof.
  intros Hu Hlook Hq Hf.
  exact (archive_names_holds q n [a] f m c Hu Hlook Hq Hf).
Qed.

(* ------------------------------------------------------------------ *)
(** ** The archive on disk *)
(* ------------------------------------------------------------------ *)

(** The folder of the archives of [id] after lines 242 to 244: either
    it was there and nothing moved, or it is new and empty. *)
Lemma zip_folder_made E id w r w1 :
  (ex <- exists_ (zips_path ++ [id]) ;;
   (if ex then ret tt else makedirs E (zips_path ++ [id]))) w = (r, w1) ->
  stdout w1 = stdout w
  /\ nonzips (release w1) = nonzips (release w)
  /\ (r = Ok tt ->
      forall z, FS.lookup (zips_path ++ [id; z]) (release w1)
                = FS.lookup (zips_path ++ [id; z]) (release w)).
Proof.
  unfold bind, exists_. cbn [zips_path app].
  destruct (FS.lookup ["zips"; id] (release w)) as [n|] eqn:Hl; cbn [is_some].
  - unfold ret. intros [= <- <-]. auto.
  - pose proof (keeps_makedirs E [id] w) as Hk. cbn [zips_path app] in Hk.
    unfold makedirs in *. destruct (deny_write E (InRelease ["zips"; id])).
    { intros [= <- <-]. repeat split; auto. }
    unfold FS.lookup in Hl. cbn [FS.lookup_node] in Hl.
    cbn [FS.makedirs] in *.
    destruct (FS.assoc "zips" (release w)) as [[mz cz|mz sub]|] eqn:Hz.
    + intros [= <- <-]. repeat split; auto.
    + destruct (FS.assoc id sub) as [c|] eqn:Hid.
      { destruct c; discriminate. }
      cbn [FS.chain] in *. intros [= <- <-]. cbn [release stdout with_release] in *.
      repeat split; auto. intros _ z. unfold FS.lookup. cbn [FS.lookup_node].
      rewrite assoc_set_same, Hz, assoc_set_same, Hid. reflexivity.
    + cbn [FS.chain] in *. intros [= <- <-]. cbn [release stdout with_release] in *.
      repeat split; auto. intros _ z. unfold FS.lookup. cbn [FS.lookup_node].
      rewrite assoc_set_same, Hz. cbn [FS.assoc]. now rewrite String.eqb_refl.
Qed.

(** X5: what [_create_zip] leaves when it returns, for an id that is a
    folder name (not empty, neither [.] nor [..], without separator) and
    a version without separator, so that the archive is a file of the
    folder [zips/<id>].  An archive that is already there is not built
    again: nothing is written and nothing is printed.  Otherwise the
    archive is at [zips/<id>/<id>-<version>.zip], holds the names of the
    walk of the add-on folder, and its creation is the one line
    printed. *)
Theorem create_zip_outcome
        (E : env) (x : string) (q : path) (id : string) (version : option string)
        (w w' : world) :
  let final_zip := zips_path ++ [id; zip_name id version] in
  x <> "zips" ->
  folder_name id = true ->
  has_char "/"%char (Py.str version) = false ->
  _create_zip E (x :: q) (Some id) version w = (Ok tt, w') ->
  nonzips (release w') = nonzips (release w)
  /\ (is_some (FS.lookup final_zip (release w)) = true -> w' = w)
  /\ (FS.lookup final_zip (release w) = None ->
      FS.lookup final_zip (release w')
      = Some (File (now E)
                   (ZipArchive
                      match FS.lookup (x :: q) (release w) with
                      | Some n => archive_names [last (x :: q) EmptyString] n
                      | None => []
                      end))
      /\ stdout w' = stdout w ++ [ZipCreated id (Py.str version)]).
Proof.
  intros final_zip Hx _ _ Hrun.
  split.
  { pose proof (keeps_create_zip E (x :: q) (Some id) version w) as Hk.
    now rewrite Hrun in Hk. }
  assert (Hsame : forall w1, nonzips (release w1) = nonzips (release w) ->
                   FS.lookup (x :: q) (release w1) = FS.lookup (x :: q) (release w)).
  { intros w1 H1.
    now rewrite <- (lookup_nonzips q (release w1) Hx), H1, lookup_nonzips. }
  unfold _create_zip in Hrun. cbn [join_opt] in Hrun. rewrite bind_ret_l in Hrun.
  cbn [Py.str] in Hrun.
  change ((zips_path ++ [id]) ++ [zip_name id version]) with final_zip in Hrun.
  destruct ((ex <- exists_ (zips_path ++ [id]) ;;
             (if ex then ret tt else makedirs E (zips_path ++ [id]))) w)
    as [r w1] eqn:Hmk.
  destruct (zip_folder_made E id w r w1 Hmk) as (Hout & Hnz & Hz).
  unfold bind at 1 in Hrun. unfold bind at 1 in Hmk.
  destruct (exists_ (zips_path ++ [id]) w) as [[ex|e] w0] eqn:Hex;
    [|discriminate].
  unfold bind at 1 in Hrun. rewrite Hmk in Hrun.
  destruct r as [[]|e]; [|discriminate].
  specialize (Hz eq_refl (zip_name id version)).
  change (zips_path ++ [id; zip_name id version]) with final_zip in Hz.
  unfold bind at 1, exists_ at 1 in Hrun. rewrite Hz in Hrun.
  split.
  - intros Hthere. rewrite Hthere in Hrun. injection Hrun as <-.
    unfold exists_ in Hex. injection Hex as <- <-.
    assert (Hfolder : is_some (FS.lookup (zips_path ++ [id]) (release w)) = true).
    { revert Hthere. subst final_zip. unfold FS.lookup. cbn [zips_path app FS.lookup_node].
      destruct (FS.assoc "zips" (release w)) as [[|mz sub]|]; try discriminate.
      destruct (FS.assoc id sub) as [c|]; [reflexivity|discriminate]. }
    change (zips_path ++ [id]) with ["zips"; id] in Hfolder.
    rewrite Hfolder in Hmk. now injection Hmk as <-.
  - intros Hnone. rewrite Hnone in Hrun. cbn [is_some] in Hrun.
    unfold bind at 1 in Hrun. rewrite (Hsame w1 Hnz) in Hrun.
    unfold bind at 1 in Hrun.
    destruct (write_file E final_zip _ w1) as [[[]|e] w2] eqn:Hw; [|discriminate].
    unfold print in Hrun. injection Hrun as <-. cbn [release stdout with_stdout].
    split; [exact (write_file_lookup _ _ _ _ Hw)|].
    rewrite <- Hout. f_equal.
    unfold write_file in Hw.
    destruct (deny_write E _); [discriminate|].
    destruct (FS.lookup final_zip (release w1)) as [[|]|];
      try discriminate;
      (destruct (FS.put _ _ _); [|discriminate]); now injection Hw as <-.
Qed.

(* ------------------------------------------------------------------ *)
(** ** The manifest after a run *)
(* ------------------------------------------------------------------ *)

(** X6: an add-on whose declaration cannot be read is passed over.  It
    is reported as excluded, the manifest under construction and the
    disk stay as they are, and the loop goes on with the add-ons that
    follow; the loop itself never raises. *)
Theorem unparsed_addon_is_skipped
        (E : env) (p : path) (rest : list path) (st : list Element * bool)
        (w : world) (e : exn) :
  declared (release w) p = Raise e ->
  for_fold (p :: rest) (process_addon E) st w
  = for_fold rest (process_addon E) st
             (with_stdout w (stdout w ++ [Excluding p e]))
  /\ exists st' w',
      for_fold (p :: rest) (process_addon E) st w = (Ok st', w').
Proof.
  intros Hd.
  assert (H : for_fold (p :: rest) (process_addon E) st w
              = for_fold rest (process_addon E) st
                         (with_stdout w (stdout w ++ [Excluding p e]))).
  { cbn [for_fold]. unfold bind at 1.
    now rewrite (@process_addon_unparsed E st p w e Hd). }
  split; [exact H|].
  exact (@loop_returns E (p :: rest) st w).
Qed.





(** X9: a manifest that is not an XML document stops the run.  The
    compiled files are removed as in every run; then reading the
    manifest raises, outside every handler: no add-on is looked at, no
    archive is built, and the cleanup and the promotion are not
    reached. *)
Theorem corrupt_manifest_aborts (E : env) (w : world) (m : nat) (c : content) :
  FS.lookup addons_xml_path (release w) = Some (File m c) ->
  (forall r, c <> XmlDoc r) ->
  exists w1,
    _remove_binaries E (with_latest w None) = (Ok tt, w1)
    /\ FS.lookup addons_xml_path (release w1) = Some (File m c)
    /\ __init__ E w = (Raise ParseError, w1).
Proof.
  intros Hfile Hc.
  set (w0 := with_latest w None).
  destruct (@remove_binaries_returns E w0) as (r & Hin & Hrm).
  set (w1 := with_stdout (with_release w0 r)
               (stdout w0 ++ snd (remove_binaries_in E [] (Dir 0 (release w0))))) in *.
  assert (Hzips : exists mz zl, FS.assoc "zips" (release w) = Some (Dir mz zl)
                                /\ FS.assoc "addons.xml" zl = Some (File m c)).
  { revert Hfile. unfold FS.lookup. cbn [addons_xml_path zips_path app FS.lookup_node].
    destruct (FS.assoc "zips" (release w)) as [[|mz zl]|]; try discriminate.
    destruct (FS.assoc "addons.xml" zl) as [n|] eqn:Ha; [|discriminate].
    intros [= ->]. eauto. }
  destruct Hzips as (mz & zl & Hz & Ha).
  assert (Hkept : FS.lookup addons_xml_path (release w1) = Some (File m c)).
  { pose proof (@remove_binaries_in_spares E addons_xml_path (Dir 0 (release w0))
                  [] (File m c) Hfile) as Hs.
    rewrite Hin in Hs. cbn [fst] in Hs. apply Hs.
    cbn [addons_xml_path zips_path app spared w0 release with_latest].
    rewrite Hz. split; [reflexivity|]. rewrite Ha. split; [reflexivity|exact I]. }
  exists w1. split; [exact Hrm|]. split; [exact Hkept|].
  unfold __init__, bind at 1, new_object. fold w0.
  unfold bind at 1, exists_ at 1.
  assert (Hex : is_some (FS.lookup zips_path (release w0)) = true).
  { unfold FS.lookup. cbn [zips_path FS.lookup_node w0 release with_latest].
    now rewrite Hz. }
  rewrite Hex. rewrite bind_ret_l. unfold bind at 1. rewrite Hrm.
  unfold bind at 1.
  assert (Hgen : _generate_addons_file E w1 = (Raise ParseError, w1)).
  { rewrite generate_addons_file_unfold. unfold manifest_root. rewrite Hkept.
    destruct c as [s|r0|names]; try reflexivity. now destruct (Hc r0). }
  unfold update_manifest at 1. unfold bind at 1. now rewrite Hgen.
Qed.

(* ------------------------------------------------------------------ *)
(** ** The checksum *)
(* ------------------------------------------------------------------ *)


(* ------------------------------------------------------------------ *)
(** ** The cleanup as a function of the output directory *)
(* ------------------------------------------------------------------ *)

Lemma assoc_app_absent k (pre post : listing) :
  ~ In k (FS.names pre) -> FS.assoc k (pre ++ post) = FS.assoc k post.
Proof.
  induction pre as [|[k' n'] pre IH]; intros Hk; [reflexivity|].
  cbn [app FS.assoc]. destruct (String.eqb_spec k k') as [->|_].
  - exfalso. apply Hk. now left.
  - apply IH. intros H. apply Hk. now right.
Qed.

Lemma set_app_absent k n (pre post : listing) :
  ~ In k (FS.names pre) -> FS.set k n (pre ++ post) = pre ++ FS.set k n post.
Proof.
  induction pre as [|[k' n'] pre IH]; intros Hk; [reflexivity|].
  cbn [app FS.set]. destruct (String.eqb_spec k k') as [->|_].
  - exfalso. apply Hk. now left.
  - rewrite IH; [reflexivity|]. intros H. apply Hk. now right.
Qed.

Lemma names_app (a b : listing) : FS.names (a ++ b) = FS.names a ++ FS.names b.
Proof. apply map_app. Qed.

Lemma nodup_names_middle (pre post : listing) k n :
  NoDup (FS.names (pre ++ (k, n) :: post)) -> ~ In k (FS.names pre).
Proof.
  rewrite names_app. cbn [FS.names map fst]. intros H Hk.
  apply NoDup_remove_2 in H. apply H, in_or_app. now left.
Qed.

Lemma world_eta w :
  mkWorld (release w) (root w) (latest_repo_zip_name w) (stdout w) = w.
Proof. now destruct w. Qed.

Lemma cleanup_loop_explicit E m rest :
  forall done w,
    FS.lookup zips_path (release w) = Some (Dir m (done ++ rest)) ->
    NoDup (FS.names (done ++ rest)) ->
    for_each (FS.names rest) (cleanup_folder E) w
    = (Ok tt,
       with_stdout
         (with_release w (FS.set "zips" (Dir m (done ++ cleaned E rest)) (release w)))
         (stdout w ++ cleanup_report E rest)).
Proof.
  induction rest as [|[k n] rest IH]; intros done w Hz Hnd.
  - cbn [FS.names map for_each cleaned cleanup_report flat_map]. unfold ret.
    rewrite lookup_zips_assoc in Hz. rewrite (set_same _ _ _ Hz), !app_nil_r.
    unfold with_stdout, with_release. cbn [release root latest_repo_zip_name stdout].
    now rewrite world_eta.
  - pose proof (nodup_names_middle done rest k n Hnd) as Hk.
    change (FS.names ((k, n) :: rest)) with (k :: FS.names rest).
    cbn [for_each]. unfold bind at 1.
    rewrite (cleanup_folder_spec E w m (done ++ (k, n) :: rest) k n Hz)
      by (rewrite assoc_app_absent by exact Hk; cbn [FS.assoc];
          now rewrite String.eqb_refl).
    set (n' := clean_node E k n).
    set (w1 := with_stdout (put_folder w m (done ++ (k, n) :: rest) k n')
                           (stdout w ++ clean_msgs E k n)).
    assert (Hset : FS.set k n' (done ++ (k, n) :: rest) = (done ++ [(k, n')]) ++ rest).
    { rewrite set_app_absent by exact Hk. cbn [FS.set].
      rewrite String.eqb_refl. now rewrite <- app_assoc. }
    rewrite (IH (done ++ [(k, n')]) w1).
    + unfold w1, put_folder, with_stdout, with_release.
      cbn [release root latest_repo_zip_name stdout].
      rewrite set_set. cbn [cleaned map cleanup_report flat_map fst snd].
      fold (cleaned E rest). fold (cleanup_report E rest). fold n'.
      now rewrite <- !app_assoc.
    + unfold w1, put_folder. cbn [release with_stdout with_release].
      rewrite lookup_zips_set. now rewrite Hset.
    + rewrite !names_app in *. cbn [FS.names map fst] in *.
      now rewrite <- app_assoc.
Qed.

(** The whole of the cleanup, for an output directory that lists no
    name twice. *)
Lemma cleanup_explicit E w m zl :
  FS.lookup zips_path (release w) = Some (Dir m zl) ->
  NoDup (FS.names zl) ->
  _cleanup_old_zips E w
  = (Ok tt,
     with_stdout
       (with_release w (FS.set "zips" (Dir m (cleaned E zl)) (release w)))
       (stdout w ++ cleanup_report E zl)).
Proof.
  intros Hz Hnd.
  unfold _cleanup_old_zips, bind at 1, exists_. rewrite Hz. cbn [is_some negb].
  unfold bind at 1, listdir, bind at 1, scandir. rewrite Hz.
  unfold ret at 1.
  exact (cleanup_loop_explicit E m zl [] w Hz Hnd).
Qed.

Lemma names_cleaned E zl : FS.names (cleaned E zl) = FS.names zl.
Proof. unfold cleaned, FS.names. rewrite map_map. reflexivity. Qed.

Lemma in_cleaned E zl k n :
  In (k, n) zl -> In (k, clean_node E k n) (cleaned E zl).
Proof.
  intros H. unfold cleaned. apply in_map_iff. exists (k, n). auto.
Qed.

Lemma in_but_last {A} (x : A) l : In x (Py.but_last l) -> In x l.
Proof.
  unfold Py.but_last. induction l as [|y l IH]; [intros []|].
  cbn [removelast]. destruct l as [|z l]; [intros []|].
  intros [<-|H]; [now left|right; auto].
Qed.

Lemma in_sorted_by_mtime f l :
  In f (sorted_by_mtime l) <-> In f (FS.names l).
Proof.
  unfold sorted_by_mtime, FS.names.
  pose proof (@sorted_perm _ _ (fun e : string * node => getmtime (snd e)) Nat.leb l)
    as Hp.
  split; intros H; apply in_map_iff in H as (e & <- & He); apply in_map.
  - exact (Permutation_in e (Permutation_sym Hp) He).
  - exact (Permutation_in e Hp He).
Qed.

Lemma old_archives_end_in_zip f l :
  In f (Py.but_last (sorted_by_mtime (zips_in l))) -> Py.endswith f ".zip" = true.
Proof.
  intros H. apply in_but_last in H.
  apply (proj1 (in_sorted_by_mtime f (zips_in l))) in H.
  unfold FS.names, zips_in in H. apply in_map_iff in H as (e & <- & He).
  now apply filter_In in He.
Qed.

Lemma assoc_filter f (p : string * node -> bool) l :
  (forall e, In e l -> fst e = f -> p e = true) ->
  FS.assoc f (filter p l) = FS.assoc f l.
Proof.
  induction l as [|[k n] l IH]; intros Hp; [reflexivity|].
  cbn [filter FS.assoc].
  assert (IH' : FS.assoc f (filter p l) = FS.assoc f l)
    by (apply IH; intros e He; apply Hp; now right).
  destruct (String.eqb_spec f k) as [->|Hne].
  - rewrite (Hp (k, n) (or_introl eq_refl) eq_refl). cbn [FS.assoc].
    now rewrite String.eqb_refl.
  - destruct (p (k, n)); [|exact IH']. cbn [FS.assoc].
    destruct (String.eqb_spec f k); [contradiction|exact IH'].
Qed.

(** X11: the cleanup touches old archives only.  It never raises;
    outside the output directory, at the root and in the files next to
    the folders (the manifest, the checksum) nothing moves; and in a
    folder every entry whose name does not end in [.zip] (the copied
    declaration, the assets) is as it was. *)
Theorem cleanup_touches_archives_only (E : env) (w : world) (m : nat) (zl : listing) :
  FS.lookup zips_path (release w) = Some (Dir m zl) ->
  NoDup (FS.names zl) ->
  (forall id mt l, In (id, Dir mt l) zl -> NoDup (FS.names l)) ->
  exists w',
    _cleanup_old_zips E w = (Ok tt, w')
    /\ root w' = root w
    /\ latest_repo_zip_name w' = latest_repo_zip_name w
    /\ nonzips (release w') = nonzips (release w)
    /\ (forall k mf c,
           In (k, File mf c) zl ->
           FS.lookup (zips_path ++ [k]) (release w') = Some (File mf c))
    /\ (forall id mt l f,
           In (id, Dir mt l) zl ->
           Py.endswith f ".zip" = false ->
           FS.lookup (zips_path ++ [id; f]) (release w') = FS.assoc f l).
Proof.
  intros Hz Hnd Hfolders.
  eexists. split; [exact (cleanup_explicit E w m zl Hz Hnd)|].
  cbn [root latest_repo_zip_name release with_stdout with_release].
  split; [reflexivity|]. split; [reflexivity|]. split; [apply nonzips_set|].
  assert (Hnd' : NoDup (FS.names (cleaned E zl))) by now rewrite names_cleaned.
  split.
  - intros k mf c Hin. unfold FS.lookup. cbn [zips_path app FS.lookup_node].
    rewrite assoc_set_same.
    now rewrite (assoc_in_nodup k _ (cleaned E zl) Hnd' (in_cleaned E zl k _ Hin)).
  - intros id mt l f Hin Hf. unfold FS.lookup. cbn [zips_path app FS.lookup_node].
    rewrite assoc_set_same.
    rewrite (assoc_in_nodup id _ (cleaned E zl) Hnd' (in_cleaned E zl id _ Hin)).
    cbn [clean_node]. unfold clean_folder.
    rewrite (clean_list_filter E _ _ l (Hfolders id mt l Hin)).
    rewrite assoc_filter; [now destruct (FS.assoc f l)|].
    intros e _ He. unfold stays. rewrite He.
    destruct (Py.mem f (Py.but_last (sorted_by_mtime (zips_in l)))) eqn:Hm;
      [|reflexivity].
    apply mem_in, old_archives_end_in_zip in Hm. congruence.
Qed.

Lemma length_sorted_by_mtime l : List.length (sorted_by_mtime l) = List.length l.
Proof.
  unfold sorted_by_mtime. rewrite length_map. symmetry.
  apply Permutation_length, sorted_perm.
Qed.

(** A folder with one archive at most is left alone. *)
Lemma clean_folder_single E id l :
  List.length (zips_in l) <= 1 -> clean_folder E id l = (l, []).
Proof.
  intros H. unfold clean_folder.
  pose proof (length_sorted_by_mtime (zips_in l)) as Hlen.
  destruct (sorted_by_mtime (zips_in l)) as [|a [|b s]]; try reflexivity.
  cbn [List.length] in Hlen. lia.
Qed.

Lemma clean_node_again E id n :
  (forall mt l, n = Dir mt l ->
                NoDup (FS.names l)
                /\ forall e, In e (zips_in l) -> removable E (zips_path ++ [id]) e = true) ->
  clean_node E id (clean_node E id n) = clean_node E id n
  /\ clean_msgs E id (clean_node E id n) = [].
Proof.
  intros H. destruct n as [mt c|mt l]; [now split|].
  destruct (H mt l eq_refl) as [Hnd Hrm].
  cbn [clean_node clean_msgs].
  assert (Hone : List.length (zips_in (fst (clean_folder E id l))) <= 1).
  { destruct (sorted_by_mtime (zips_in l)) as [|a s] eqn:Hs.
    - pose proof (length_sorted_by_mtime (zips_in l)) as Hlen. rewrite Hs in Hlen.
      rewrite clean_folder_single by (cbn in Hlen; lia). cbn [fst].
      cbn in Hlen. lia.
    - destruct (@exists_last _ (a :: s)) as (olds & newest & Hlast); [discriminate|].
      rewrite Hlast in Hs.
      destruct (clean_folder_facts E id l olds newest Hnd Hs) as (_ & _ & Hnames).
      specialize (Hnames Hrm).
      apply (f_equal (@List.length string)) in Hnames.
      unfold FS.names in Hnames. rewrite length_map in Hnames.
      cbn in Hnames. lia. }
  now rewrite (clean_folder_single E id _ Hone).
Qed.

(** X12: a second cleanup finds nothing to do.  When no removal is
    refused, the world that a cleanup leaves is a fixed point of the
    cleanup: run again, it removes nothing and prints nothing. *)
Theorem cleanup_twice (E : env) (w w' : world) (m : nat) (zl : listing) :
  FS.lookup zips_path (release w) = Some (Dir m zl) ->
  NoDup (FS.names zl) ->
  (forall id mt l, In (id, Dir mt l) zl -> NoDup (FS.names l)) ->
  (forall id mt l e, In (id, Dir mt l) zl -> In e (zips_in l) ->
                     removable E (zips_path ++ [id]) e = true) ->
  _cleanup_old_zips E w = (Ok tt, w') ->
  _cleanup_old_zips E w' = (Ok tt, w').
Proof.
  intros Hz Hnd Hfolders Hrm Hrun.
  rewrite (cleanup_explicit E w m zl Hz Hnd) in Hrun. injection Hrun as <-.
  set (w' := with_stdout _ _).
  assert (Hz' : FS.lookup zips_path (release w') = Some (Dir m (cleaned E zl)))
    by apply lookup_zips_set.
  assert (Hnd' : NoDup (FS.names (cleaned E zl))) by now rewrite names_cleaned.
  rewrite (cleanup_explicit E w' m (cleaned E zl) Hz' Hnd').
  assert (Hagain : forall k n, In (k, n) zl ->
                     clean_node E k (clean_node E k n) = clean_node E k n
                     /\ clean_msgs E k (clean_node E k n) = []).
  { intros k n Hin. apply clean_node_again. intros mt l ->.
    split; [exact (Hfolders k mt l Hin)|]. intros e He. exact (Hrm k mt l e Hin He). }
  assert (Hfix : cleaned E (cleaned E zl) = cleaned E zl).
  { unfold cleaned. rewrite map_map. apply map_ext_in. intros [k n] Hin.
    cbn [fst snd]. now rewrite (proj1 (Hagain k n Hin)). }
  assert (Hquiet : cleanup_report E (cleaned E zl) = []).
  { unfold cleanup_report, cleaned. rewrite flat_map_concat_map, map_map.
    rewrite <- flat_map_concat_map.
    clear -Hagain. induction zl as [|[k n] zl IH]; [reflexivity|].
    cbn [flat_map fst snd].
    rewrite (proj2 (Hagain k n (or_introl eq_refl))). apply IH.
    intros k' n' H. apply Hagain. now right. }
  rewrite Hfix, Hquiet, app_nil_r.
  rewrite lookup_zips_assoc in Hz'. rewrite (set_same _ _ _ Hz').
  unfold with_stdout at 1, with_release at 1.
  cbn [release root latest_repo_zip_name stdout]. now rewrite world_eta.
Qed.

(* ------------------------------------------------------------------ *)
(** ** Cleanup and promotion agree on the newest archive *)
(* ------------------------------------------------------------------ *)

Section SortedFilter.

Variables (A K : Type) (key : A -> K) (leb : K -> K -> bool) (p : A -> bool).
Hypothesis leb_total : forall a b, leb a b = true \/ leb b a = true.
Hypothesis leb_trans :
  forall a b c, leb a b = true -> leb b c = true -> leb a c = true.

Lemma insert_sorted_front x l :
  (forall z, In z l -> leb (key x) (key z) = true) ->
  Py.insert_sorted key leb x l = x :: l.
Proof.
  destruct l as [|y l]; intros H; [reflexivity|].
  cbn [Py.insert_sorted]. now rewrite (H y (or_introl eq_refl)).
Qed.

Lemma sorted_above y l :
  Sorted (key_le key leb) (y :: l) ->
  forall z, In z l -> leb (key y) (key z) = true.
Proof.
  intros Hs. apply Sorted_extends in Hs.
  - rewrite Forall_forall in Hs. exact Hs.
  - intros a b c Hab Hbc. exact (leb_trans _ _ _ Hab Hbc).
Qed.

Lemma filter_insert_sorted_any x l :
  Sorted (key_le key leb) l ->
  filter p (Py.insert_sorted key leb x l)
  = if p x then Py.insert_sorted key leb x (filter p l) else filter p l.
Proof.
  induction l as [|y l IH]; intros Hs.
  - cbn [Py.insert_sorted filter]. now destruct (p x).
  - pose proof (sorted_above y l Hs) as Habove.
    apply Sorted_inv in Hs as [Hs _]. specialize (IH Hs).
    cbn [Py.insert_sorted]. destruct (leb (key x) (key y)) eqn:Hxy.
    + cbn [filter]. destruct (p x); [|reflexivity].
      destruct (p y).
      * cbn [Py.insert_sorted]. now rewrite Hxy.
      * symmetry. apply insert_sorted_front. intros z Hz.
        apply filter_In in Hz as [Hz _].
        exact (leb_trans _ _ _ Hxy (Habove z Hz)).
    + cbn [filter]. rewrite IH. destruct (p x), (p y); try reflexivity.
      cbn [Py.insert_sorted]. now rewrite Hxy.
Qed.

(** A stable sort and a filter commute. *)
Lemma sorted_filter_commute l :
  filter p (Py.sorted key leb l) = Py.sorted key leb (filter p l).
Proof.
  induction l as [|x l IH]; [reflexivity|].
  unfold Py.sorted in *. cbn [fold_right filter].
  rewrite filter_insert_sorted_any
    by (apply (@sorted_sorted A K key leb leb_total)).
  rewrite IH. now destruct (p x).
Qed.

End SortedFilter.

Lemma nat_leb_trans a b c :
  Nat.leb a b = true -> Nat.leb b c = true -> Nat.leb a c = true.
Proof. rewrite !Nat.leb_le. lia. Qed.

Lemma zips_in_filter (p : string * node -> bool) l :
  zips_in (filter p l) = filter p (zips_in l).
Proof.
  unfold zips_in. rewrite !filter_filter. apply filter_ext.
  intros a. apply andb_comm.
Qed.

Lemma removelast_snoc {A} (l : list A) x : removelast (l ++ [x]) = l.
Proof. rewrite removelast_app by discriminate. cbn. apply app_nil_r. Qed.

(** The archive that sorts last in a folder sorts last after the
    cleanup of the folder. *)
Lemma newest_after_cleanup E id l :
  NoDup (FS.names l) ->
  hd_error (rev (sorted_by_mtime (zips_in (fst (clean_folder E id l)))))
  = hd_error (rev (sorted_by_mtime (zips_in l))).
Proof.
  intros Hnd. unfold clean_folder.
  rewrite (clean_list_filter E _ _ l Hnd), zips_in_filter.
  unfold sorted_by_mtime at 1.
  rewrite <- (sorted_filter_commute _ _ _ _ _ nat_leb_total nat_leb_trans).
  set (S := Py.sorted (fun e : string * node => getmtime (snd e)) Nat.leb (zips_in l)).
  assert (HS : sorted_by_mtime (zips_in l) = map fst S) by reflexivity.
  rewrite HS.
  assert (HndS : NoDup (map fst S)).
  { apply (@Permutation_NoDup _ (FS.names (zips_in l))).
    - apply Permutation_map. apply sorted_perm.
    - now apply nodup_filter_names. }
  destruct S as [|a S'] eqn:HSeq; [reflexivity|].
  destruct (@exists_last _ (a :: S')) as (S0 & x & HSx); [discriminate|].
  rewrite HSx in *. rewrite map_app in *. cbn [map] in *.
  rewrite removelast_snoc.
  assert (Hx : stays E (zips_path ++ [id]) (map fst S0) x = true).
  { unfold stays. destruct (Py.mem (fst x) (map fst S0)) eqn:Hm; [|reflexivity].
    apply mem_in in Hm. apply NoDup_remove_2 in HndS.
    exfalso. apply HndS. now rewrite app_nil_r. }
  rewrite filter_app. cbn [filter]. rewrite Hx.
  rewrite map_app. cbn [map]. now rewrite !rev_unit.
Qed.

Lemma candidate_in_cleaned E id n :
  (forall mt l, n = Dir mt l -> NoDup (FS.names l)) ->
  candidate_in id (clean_node E id n) = candidate_in id n.
Proof.
  intros H. destruct n as [mt c|mt l]; [reflexivity|].
  specialize (H mt l eq_refl). cbn [clean_node candidate_in].
  assert (Ha : FS.assoc "addon.xml" (fst (clean_folder E id l))
               = FS.assoc "addon.xml" l).
  { unfold clean_folder. rewrite (clean_list_filter E _ _ l H).
    apply assoc_filter. intros e _ He. unfold stays. rewrite He.
    destruct (Py.mem "addon.xml" (Py.but_last (sorted_by_mtime (zips_in l))))
      eqn:Hm; [|reflexivity].
    apply mem_in, old_archives_end_in_zip in Hm. discriminate. }
  rewrite Ha. pose proof (newest_after_cleanup E id l H) as Hn.
  destruct (FS.assoc "addon.xml" l) as [[ma [s|r|z]|]|]; try reflexivity.
  destruct (is_repository r); [|reflexivity].
  destruct (rev (sorted_by_mtime (zips_in (fst (clean_folder E id l)))));
    destruct (rev (sorted_by_mtime (zips_in l))); cbn [hd_error] in Hn;
    congruence.
Qed.

Lemma candidates_in_cleaned E zl :
  (forall id mt l, In (id, Dir mt l) zl -> NoDup (FS.names l)) ->
  candidates_in (cleaned E zl) = candidates_in zl.
Proof.
  intros H. unfold candidates_in, cleaned.
  induction zl as [|[k n] zl IH]; [reflexivity|].
  cbn [map flat_map fst snd]. rewrite IH by (intros; eapply H; right; eauto).
  f_equal. apply candidate_in_cleaned. intros mt l ->.
  apply (H k mt l). now left.
Qed.

(** X13: the cleanup never costs the promotion its archive.  The
    candidates that the promotion collects after the cleanup are the
    ones it would have collected before it: the archive that the
    cleanup keeps in a folder is the one the promotion takes as the
    newest, also among archives modified at the same time. *)
Theorem cleanup_keeps_candidates (E : env) (w : world) (m : nat) (zl : listing) :
  FS.lookup zips_path (release w) = Some (Dir m zl) ->
  NoDup (FS.names zl) ->
  (forall id mt l, In (id, Dir mt l) zl -> NoDup (FS.names l)) ->
  exists w' zl',
    _cleanup_old_zips E w = (Ok tt, w')
    /\ FS.lookup zips_path (release w') = Some (Dir m zl')
    /\ FS.names zl' = FS.names zl
    /\ candidates_in zl' = candidates_in zl
    /\ collect_candidates (FS.names zl') w' = (Ok (candidates_in zl), w').
Proof.
  intros Hz Hnd Hfolders.
  exists (with_stdout
            (with_release w (FS.set "zips" (Dir m (cleaned E zl)) (release w)))
            (stdout w ++ cleanup_report E zl)), (cleaned E zl).
  split; [exact (cleanup_explicit E w m zl Hz Hnd)|].
  assert (Hz' : FS.lookup zips_path
                  (FS.set "zips" (Dir m (cleaned E zl)) (release w))
                = Some (Dir m (cleaned E zl))) by apply lookup_zips_set.
  split; [exact Hz'|]. split; [apply names_cleaned|].
  split; [now apply candidates_in_cleaned|].
  rewrite <- (candidates_in_cleaned E zl Hfolders).
  apply (collect_candidates_listing _ m); [exact Hz'|].
  now rewrite names_cleaned.
Qed.

(* ------------------------------------------------------------------ *)
(** ** The promotion *)
(* ------------------------------------------------------------------ *)

(** X14: what a candidate is.  A candidate comes from a folder of the
    output directory whose copied declaration carries the repository
    point; its archive lies in that folder, has a name that ends in
    [.zip], and no entry of the folder with such a name was modified
    later. *)
Theorem candidate_is_newest_archive
        (zl : listing) (id name : string) (src : path) :
  In (id, name, src) (candidates_in zl) ->
  exists mt l ma r n,
    In (id, Dir mt l) zl
    /\ FS.assoc "addon.xml" l = Some (File ma (XmlDoc r))
    /\ is_repository r = true
    /\ src = zips_path ++ [id; name]
    /\ Py.endswith name ".zip" = true
    /\ In (name, n) l
    /\ forall e, In e l -> Py.endswith (fst e) ".zip" = true ->
                 getmtime (snd e) <= getmtime n.
Proof.
  unfold candidates_in. intros H.
  apply in_flat_map in H as ([k [mt c|mt l]] & Hk & H); cbn [fst snd candidate_in] in H;
    [destruct H|].
  destruct (FS.assoc "addon.xml" l) as [[ma [s|r|z]|]|] eqn:Ha; try destruct H.
  destruct (is_repository r) eqn:Hr; [|destruct H].
  destruct (rev (sorted_by_mtime (zips_in l))) as [|newest rest] eqn:Hrev;
    [destruct H|].
  destruct H as [[= <- <- <-]|[]].
  assert (Hs : sorted_by_mtime (zips_in l) = rev rest ++ [newest]).
  { rewrite <- (rev_involutive (sorted_by_mtime (zips_in l))), Hrev. reflexivity. }
  unfold sorted_by_mtime in Hs.
  destruct (map_eq_snoc _ _ _ _ Hs) as (S0 & x & HS & _ & Hx).
  pose proof (@sorted_sorted _ _ (fun e : string * node => getmtime (snd e))
                Nat.leb nat_leb_total (zips_in l)) as Hsorted.
  rewrite HS in Hsorted.
  pose proof (sorted_last_is_max S0 x Hsorted) as Hmax.
  pose proof (@sorted_perm _ _ (fun e : string * node => getmtime (snd e))
                Nat.leb (zips_in l)) as Hperm.
  rewrite HS in Hperm.
  assert (Hin : In x (zips_in l)).
  { apply (Permutation_in x (Permutation_sym Hperm)), in_or_app. right. now left. }
  apply filter_In in Hin as [Hin Hzip].
  destruct x as [xn n]. cbn [fst snd] in *. subst xn.
  exists mt, l, ma, r, n. repeat split; auto.
  intros e He Hez. apply (Hmax e).
  apply (Permutation_in e Hperm). apply filter_In. auto.
Qed.

Lemma del_app_absent f n (pre post : listing) :
  ~ In f (FS.names pre) -> FS.del f (pre ++ (f, n) :: post) = pre ++ post.
Proof.
  induction pre as [|[k' n'] pre IH]; intros Hk; cbn [app FS.del].
  - now rewrite String.eqb_refl.
  - destruct (String.eqb_spec f k') as [->|_].
    + exfalso. apply Hk. now left.
    + rewrite IH; [reflexivity|]. intros H. apply Hk. now right.
Qed.

(** The loop that removes the old archives of the root directory. *)
Lemma sweep_loop E rest :
  forall done w,
    root w = done ++ rest ->
    NoDup (FS.names (done ++ rest)) ->
    for_each (FS.names rest) (remove_root_zip E) w
    = (Ok tt,
       with_stdout (with_root w (done ++ sweep E rest))
                   (stdout w ++ flat_map (sweep_report E) rest)).
Proof.
  induction rest as [|[f n] rest IH]; intros done w Hroot Hnd.
  - cbn [FS.names map for_each sweep filter flat_map]. unfold ret.
    rewrite <- Hroot, app_nil_r.
    unfold with_stdout, with_root. cbn [release root latest_repo_zip_name stdout].
    now rewrite world_eta.
  - pose proof (nodup_names_middle done rest f n Hnd) as Hf.
    change (FS.names ((f, n) :: rest)) with (f :: FS.names rest).
    cbn [for_each flat_map sweep filter]. fold (sweep E rest).
    unfold bind at 1, remove_root_zip, sweep_report, swept. cbn [fst snd].
    destruct (Py.endswith f ".zip") eqn:Hzip; cbn [andb negb].
    + unfold try_except, bind at 1, remove_root.
      rewrite Hroot, assoc_app_absent by exact Hf. cbn [FS.assoc].
      rewrite String.eqb_refl.
      destruct n as [mt c|mt sub]; cbn [is_dir negb andb].
      * destruct (deny_remove E (InRoot f)) eqn:Hdeny; cbn [negb].
        -- unfold print at 1.
           rewrite (IH (done ++ [(f, File mt c)])).
           ++ unfold with_stdout, with_root.
              cbn [release root latest_repo_zip_name stdout].
              now rewrite <- !app_assoc.
           ++ cbn [root with_stdout]. now rewrite Hroot, <- app_assoc.
           ++ now rewrite <- app_assoc.
        -- unfold print at 1. rewrite del_app_absent by exact Hf.
           rewrite (IH done).
           ++ unfold with_stdout, with_root.
              cbn [release root latest_repo_zip_name stdout].
              now rewrite <- !app_assoc.
           ++ reflexivity.
           ++ rewrite names_app in *. cbn [FS.names map fst] in Hnd.
              now apply NoDup_remove_1 in Hnd.
      * unfold print at 1.
        rewrite (IH (done ++ [(f, Dir mt sub)])).
        -- unfold with_stdout, with_root.
           cbn [release root latest_repo_zip_name stdout].
           now rewrite <- !app_assoc.
        -- cbn [root with_stdout]. now rewrite Hroot, <- app_assoc.
        -- now rewrite <- app_assoc.
    + unfold ret at 1. rewrite (IH (done ++ [(f, n)])).
      * now rewrite <- !app_assoc.
      * now rewrite Hroot, <- app_assoc.
      * now rewrite <- app_assoc.
Qed.

Lemma assoc_filter_nodup f (p : string * node -> bool) l :
  NoDup (FS.names l) ->
  FS.assoc f (filter p l)
  = match FS.assoc f l with
    | Some n => if p (f, n) then Some n else None
    | None => None
    end.
Proof.
  induction l as [|[k n] l IH]; intros Hnd; [reflexivity|].
  cbn [FS.names map fst] in Hnd. inversion Hnd as [|? ? Hk Hl]; subst.
  specialize (IH Hl). cbn [filter FS.assoc].
  destruct (String.eqb_spec f k) as [->|Hne].
  - destruct (p (k, n)); cbn [FS.assoc].
    + now rewrite String.eqb_refl.
    + rewrite IH. destruct (FS.assoc k l) as [n'|] eqn:Ha; [|reflexivity].
      exfalso. apply Hk. apply assoc_some_in in Ha. eapply names_in; eauto.
  - destruct (p (k, n)); cbn [FS.assoc]; [|exact IH].
    destruct (String.eqb_spec f k); [contradiction|exact IH].
Qed.

(** The promotion with a chosen candidate: the sweep of the root
    directory, then the copy. *)
Lemma promotion_explicit E w m zl id name src :
  FS.lookup zips_path (release w) = Some (Dir m zl) ->
  NoDup (FS.names zl) ->
  NoDup (FS.names (root w)) ->
  choose E (candidates_in zl) = Some (id, name, src) ->
  _copy_repo_zip_to_root E w
  = (copy_to_root E src name ;;
     print (CopiedToRoot name) ;;
     (fun w => (Ok tt, with_latest w (Some name))))
      (with_stdout (with_root w (sweep E (root w)))
                   (stdout w ++ flat_map (sweep_report E) (root w))).
Proof.
  intros Hz Hnd Hrt Hch.
  unfold _copy_repo_zip_to_root, bind at 1, exists_. rewrite Hz. cbn [is_some negb].
  unfold bind at 1, listdir, bind at 1, scandir. rewrite Hz. unfold ret at 1.
  unfold bind at 1. rewrite (collect_candidates_listing w m zl Hz Hnd), Hch.
  unfold bind at 1. unfold bind at 1.
  now rewrite (sweep_loop E (root w) [] w eq_refl Hrt).
Qed.

(** The promotion of the candidate chosen, when its archive can be
    read and the copy is not refused. *)
Lemma promotion_outcome E w m zl id name src mt c :
  FS.lookup zips_path (release w) = Some (Dir m zl) ->
  NoDup (FS.names zl) ->
  NoDup (FS.names (root w)) ->
  choose E (candidates_in zl) = Some (id, name, src) ->
  FS.lookup src (release w) = Some (File mt c) ->
  deny_write E (InRoot name) = false ->
  (forall mr sub, FS.assoc name (root w) <> Some (Dir mr sub)) ->
  exists w1,
    _copy_repo_zip_to_root E w = (Ok tt, w1)
    /\ release w1 = release w
    /\ latest_repo_zip_name w1 = Some name
    /\ FS.assoc name (root w1) = Some (File (now E) c)
    /\ stdout w1
       = stdout w ++ flat_map (sweep_report E) (root w) ++ [CopiedToRoot name].
Proof.
  intros Hz Hnd Hrt Hch Hsrc Hw Hnodir.
  rewrite (promotion_explicit E w m zl id name src Hz Hnd Hrt Hch).
  unfold bind at 1, copy_to_root.
  cbn [release root with_stdout with_root]. rewrite Hsrc, Hw.
  assert (Hfile : forall mr sub, FS.assoc name (sweep E (root w)) <> Some (Dir mr sub)).
  { intros mr sub. unfold sweep. rewrite (assoc_filter_nodup _ _ _ Hrt).
    destruct (FS.assoc name (root w)) as [n|] eqn:Ha; [|discriminate].
    destruct (negb (swept E (name, n))); [|discriminate].
    intros [= ->]. now apply (Hnodir mr sub). }
  eexists. split.
  - destruct (FS.assoc name (sweep E (root w))) as [[|mr sub]|] eqn:Ha;
      [reflexivity|now destruct (Hfile mr sub)|reflexivity].
  - cbn [release root latest_repo_zip_name stdout with_latest with_stdout with_root].
    split; [reflexivity|]. split; [reflexivity|].
    split; [apply assoc_set_same|]. now rewrite <- app_assoc.
Qed.

(** C6: the promotion among the candidates of the output directory
    [zl], whose folders have distinct names.  The loop collects the
    candidates of [zl] in its order.  A candidate named as the home
    directory is the one chosen and promoted, however the folders of the
    output directory are enumerated: on every world whose output
    directory lists the folders of [zl] in some order, the promotion
    copies the archive of that candidate to the root under its name and
    records that name (when the archive can be read, the copy is not
    refused and no directory of that name is at the root).  Without such
    a candidate the first one collected is chosen and promoted in the
    same way.  With no candidate at all the step prints its notice and
    returns, the root directory and the rest of the world as they
    were. *)
Theorem promotion_prefers_home (E : env) (w : world) (m : nat) (zl : listing) :
  FS.lookup zips_path (release w) = Some (Dir m zl) ->
  NoDup (FS.names zl) ->
  collect_candidates (FS.names zl) w = (Ok (candidates_in zl), w)
  /\ (forall id name src,
         In (id, name, src) (candidates_in zl) ->
         id = home_id E ->
         forall w' m' zl',
           Permutation zl zl' ->
           FS.lookup zips_path (release w') = Some (Dir m' zl') ->
           NoDup (FS.names (root w')) ->
           choose E (candidates_in zl') = Some (id, name, src)
           /\ forall mt c,
                FS.lookup src (release w') = Some (File mt c) ->
                deny_write E (InRoot name) = false ->
                (forall mr sub, FS.assoc name (root w') <> Some (Dir mr sub)) ->
                exists w1,
                  _copy_repo_zip_to_root E w' = (Ok tt, w1)
                  /\ release w1 = release w'
                  /\ latest_repo_zip_name w1 = Some name
                  /\ FS.assoc name (root w1) = Some (File (now E) c)
                  /\ stdout w1
                     = stdout w' ++ flat_map (sweep_report E) (root w')
                       ++ [CopiedToRoot name])
  /\ ((forall c, In c (candidates_in zl) -> candidate_id c <> home_id E) ->
      forall id name src,
        hd_error (candidates_in zl) = Some (id, name, src) ->
        NoDup (FS.names (root w)) ->
        choose E (candidates_in zl) = Some (id, name, src)
        /\ forall mt c,
             FS.lookup src (release w) = Some (File mt c) ->
             deny_write E (InRoot name) = false ->
             (forall mr sub, FS.assoc name (root w) <> Some (Dir mr sub)) ->
             exists w1,
               _copy_repo_zip_to_root E w = (Ok tt, w1)
               /\ release w1 = release w
               /\ latest_repo_zip_name w1 = Some name
               /\ FS.assoc name (root w1) = Some (File (now E) c)
               /\ stdout w1
                  = stdout w ++ flat_map (sweep_report E) (root w)
                    ++ [CopiedToRoot name])
  /\ (candidates_in zl = [] ->
      _copy_repo_zip_to_root E w
      = (Ok tt, with_stdout w (stdout w ++ [NoRepositoryZip]))).
Proof.
  intros Hz Hnd.
  pose proof (collect_candidates_listing w m zl Hz Hnd) as Hcollect.
  split; [exact Hcollect|]. split; [|split].
  - intros id name src Hin Hid w' m' zl' Hperm Hz' Hrt'.
    assert (Hnd' : NoDup (FS.names zl')).
    { eapply Permutation_NoDup; [apply names_perm; exact Hperm|exact Hnd]. }
    assert (Hch : choose E (candidates_in zl') = Some (id, name, src)).
    { apply choose_home; [exact Hnd'| |exact Hid].
      eapply Permutation_in; [apply candidates_in_perm; exact Hperm|exact Hin]. }
    split; [exact Hch|]. intros mt c Hsrc Hw Hnodir.
    exact (promotion_outcome E w' m' zl' id name src mt c
             Hz' Hnd' Hrt' Hch Hsrc Hw Hnodir).
  - intros Hnone id name src Hhd Hrt.
    assert (Hch : choose E (candidates_in zl) = Some (id, name, src))
      by (rewrite (choose_first E _ Hnone); exact Hhd).
    split; [exact Hch|]. intros mt c Hsrc Hw Hnodir.
    exact (promotion_outcome E w m zl id name src mt c Hz Hnd Hrt Hch Hsrc Hw Hnodir).
  - intros Hnone. unfold _copy_repo_zip_to_root, bind at 1, exists_.
    rewrite Hz. cbn [is_some negb].
    unfold bind at 1, listdir, bind at 1, scandir. rewrite Hz.
    unfold ret at 1. unfold bind at 1. rewrite Hcollect, Hnone. reflexivity.
Qed.

(** X15: what a promotion leaves at the root.  With a candidate chosen
    whose archive is a regular file, the copy not refused and no
    directory of the name of the archive at the root, the chosen archive
    is at the root under its own name, with the content it has in the
    output directory; every
    other file of the root whose name ends in [.zip] is gone, unless its
    removal was refused; every other entry is as it was; the release
    directory is untouched; and the name of the archive is recorded for
    the index page. *)
Theorem promotion_replaces_root_archives
        (E : env) (w : world) (m : nat) (zl : listing)
        (id name : string) (src : path) (mt : nat) (c : content) :
  FS.lookup zips_path (release w) = Some (Dir m zl) ->
  NoDup (FS.names zl) ->
  NoDup (FS.names (root w)) ->
  choose E (candidates_in zl) = Some (id, name, src) ->
  FS.lookup src (release w) = Some (File mt c) ->
  deny_write E (InRoot name) = false ->
  (forall mr sub, FS.assoc name (root w) <> Some (Dir mr sub)) ->
  exists w',
    _copy_repo_zip_to_root E w = (Ok tt, w')
    /\ release w' = release w
    /\ latest_repo_zip_name w' = Some name
    /\ FS.assoc name (root w') = Some (File (now E) c)
    /\ (forall f, f <> name ->
                  FS.assoc f (root w')
                  = match FS.assoc f (root w) with
                    | Some n => if swept E (f, n) then None else Some n
                    | None => None
                    end)
    /\ stdout w'
       = stdout w ++ flat_map (sweep_report E) (root w) ++ [CopiedToRoot name].
Proof.
  intros Hz Hnd Hrt Hch Hsrc Hw Hnodir.
  rewrite (promotion_explicit E w m zl id name src Hz Hnd Hrt Hch).
  unfold bind at 1, copy_to_root.
  cbn [release root with_stdout with_root]. rewrite Hsrc, Hw.
  assert (Hfile : forall mr sub, FS.assoc name (sweep E (root w)) <> Some (Dir mr sub)).
  { intros mr sub. unfold sweep. rewrite (assoc_filter_nodup _ _ _ Hrt).
    destruct (FS.assoc name (root w)) as [n|] eqn:Ha; [|discriminate].
    destruct (negb (swept E (name, n))); [|discriminate].
    intros [= ->]. now apply (Hnodir mr sub). }
  eexists. split.
  - destruct (FS.assoc name (sweep E (root w))) as [[|mr sub]|] eqn:Ha;
      [reflexivity|now destruct (Hfile mr sub)|reflexivity].
  - cbn [release root latest_repo_zip_name stdout with_latest with_stdout with_root].
    split; [reflexivity|]. split; [reflexivity|].
    split; [apply assoc_set_same|]. split.
    + intros f Hf. rewrite assoc_set_other by congruence.
      unfold sweep. rewrite (assoc_filter_nodup _ _ _ Hrt).
      destruct (FS.assoc f (root w)) as [n|]; [|reflexivity].
      now destruct (swept E (f, n)).
    + now rewrite <- app_assoc.
Qed.

(** X16: a refused copy leaves the root without its archives.  The old
    archives of the root are removed before the copy is tried: when the
    copy is refused the promotion raises, outside every handler, with
    those archives already gone, nothing put in their place, and no name
    recorded for the index page. *)
Theorem refused_promotion_leaves_no_archive
        (E : env) (w : world) (m : nat) (zl : listing)
        (id name : string) (src : path) (mt : nat) (c : content) :
  FS.lookup zips_path (release w) = Some (Dir m zl) ->
  NoDup (FS.names zl) ->
  NoDup (FS.names (root w)) ->
  choose E (candidates_in zl) = Some (id, name, src) ->
  FS.lookup src (release w) = Some (File mt c) ->
  deny_write E (InRoot name) = true ->
  exists w',
    _copy_repo_zip_to_root E w = (Raise OSError, w')
    /\ release w' = release w
    /\ latest_repo_zip_name w' = latest_repo_zip_name w
    /\ root w' = sweep E (root w)
    /\ (forall f n, FS.assoc f (root w) = Some n -> swept E (f, n) = true ->
                    FS.assoc f (root w') = None)
    /\ (_copy_repo_zip_to_root E ;; _update_index_html E) w = (Raise OSError, w').
Proof.
  intros Hz Hnd Hrt Hch Hsrc Hw.
  assert (Hrun : _copy_repo_zip_to_root E w
                 = (Raise OSError,
                    with_stdout (with_root w (sweep E (root w)))
                                (stdout w ++ flat_map (sweep_report E) (root w)))).
  { rewrite (promotion_explicit E w m zl id name src Hz Hnd Hrt Hch).
    unfold bind at 1, copy_to_root.
    cbn [release root with_stdout with_root]. now rewrite Hsrc, Hw. }
  eexists. split; [exact Hrun|].
  cbn [release root latest_repo_zip_name with_stdout with_root].
  repeat split.
  - intros f n Ha Hs. unfold sweep. rewrite (assoc_filter_nodup _ _ _ Hrt), Ha.
    now rewrite Hs.
  - unfold bind. now rewrite Hrun.
Qed.

(* ------------------------------------------------------------------ *)
(** ** The index page, updated twice *)
(* ------------------------------------------------------------------ *)

(** The translation of the line ends, piece by piece. *)
Lemma has_char_app c (a b : string) :
  has_char c (a ++ b)%string = has_char c a || has_char c b.
Proof.
  induction a as [|x a IH]; [reflexivity|].
  cbn [append has_char]. now rewrite IH, orb_assoc.
Qed.

Lemma translate_clean s :
  forall b, has_char (ascii_of_nat 13) (translate_newlines b s) = false.
Proof.
  induction s as [|c s IH]; intros b; [reflexivity|].
  cbn [translate_newlines].
  destruct (Ascii.eqb c (ascii_of_nat 13)) eqn:Hc.
  - cbn [has_char]. now rewrite IH.
  - destruct (b && Ascii.eqb c (ascii_of_nat 10)); [apply IH|].
    cbn [has_char]. now rewrite Hc, IH.
Qed.

Lemma translate_id s :
  has_char (ascii_of_nat 13) s = false -> universal_newlines s = s.
Proof.
  unfold universal_newlines. induction s as [|c s IH]; intros H; [reflexivity|].
  cbn [has_char] in H. apply orb_false_iff in H as [Hc H].
  cbn [translate_newlines]. rewrite Hc. cbn [andb]. now rewrite IH.
Qed.

Lemma translate_app s t :
  forall b, exists b',
    translate_newlines b (s ++ t)%string
    = (translate_newlines b s ++ translate_newlines b' t)%string.
Proof.
  induction s as [|c s IH]; intros b; [exists b; reflexivity|].
  cbn [append translate_newlines].
  destruct (Ascii.eqb c (ascii_of_nat 13)).
  - destruct (IH true) as (b' & ->). now exists b'.
  - destruct (b && Ascii.eqb c (ascii_of_nat 10)).
    + apply IH.
    + destruct (IH false) as (b' & ->). now exists b'.
Qed.

(** A literal without line ends is read as it is, and what follows it
    is read from the start. *)
Lemma translate_literal l t b :
  l <> EmptyString ->
  has_char (ascii_of_nat 13) l = false ->
  has_char (ascii_of_nat 10) l = false ->
  translate_newlines b (l ++ t)%string
  = (l ++ translate_newlines false t)%string.
Proof.
  destruct l as [|c l]; [congruence|]. intros _.
  revert c b. induction l as [|d l IH]; intros c b Hr Hn;
    cbn [has_char] in Hr, Hn;
    apply orb_false_iff in Hr as [Hr Hr'], Hn as [Hn Hn'];
    cbn [append translate_newlines]; rewrite Hr, Hn, andb_false_r.
  - reflexivity.
  - f_equal. now apply (IH d false).
Qed.

Lemma translate_has_char c s :
  c <> ascii_of_nat 10 ->
  has_char c s = false ->
  forall b, has_char c (translate_newlines b s) = false.
Proof.
  intros Hc. induction s as [|x s IH]; intros H b; [reflexivity|].
  cbn [has_char] in H. apply orb_false_iff in H as [Hx H].
  cbn [translate_newlines].
  destruct (Ascii.eqb x (ascii_of_nat 13)).
  - cbn [has_char]. rewrite (IH H).
    destruct (Ascii.eqb_spec (ascii_of_nat 10) c) as [Heq|_]; [now destruct Hc|].
    reflexivity.
  - destruct (b && Ascii.eqb x (ascii_of_nat 10)); [now apply IH|].
    cbn [has_char]. now rewrite Hx, IH.
Qed.

Lemma translate_quiet s :
  quiet s = true -> forall b, quiet (translate_newlines b s) = true.
Proof.
  induction s as [|c s IH]; intros Hq b; [reflexivity|].
  cbn [quiet] in Hq. apply andb_true_iff in Hq as [Hc Hq].
  cbn [translate_newlines].
  destruct (Ascii.eqb_spec c (ascii_of_nat 13)) as [->|Hr].
  - cbn [quiet]. now rewrite IH.
  - destruct (b && Ascii.eqb c (ascii_of_nat 10)); [now apply IH|].
    cbn [quiet]. rewrite (IH Hq false), andb_true_r.
    destruct (Ascii.eqb "<"%char c); [|reflexivity].
    destruct s as [|d s]; [discriminate|].
    cbn [translate_newlines andb].
    destruct (Ascii.eqb_spec d (ascii_of_nat 13)) as [->|_]; [reflexivity|exact Hc].
Qed.

Lemma translate_anchor stem text t b :
  exists b1 b2,
    translate_newlines b (anchor stem text ++ t)%string
    = (anchor (translate_newlines b1 stem) (translate_newlines b2 text)
       ++ translate_newlines false t)%string.
Proof.
  rewrite anchor_shape.
  rewrite (translate_literal link_open) by (discriminate || reflexivity).
  destruct (translate_app stem (link_mid ++ text ++ link_close ++ t)%string false)
    as (b1 & ->).
  rewrite (translate_literal link_mid) by (discriminate || reflexivity).
  destruct (translate_app text (link_close ++ t)%string false) as (b2 & ->).
  rewrite (translate_literal link_close) by (discriminate || reflexivity).
  exists false, false. now rewrite anchor_shape.
Qed.

(** A page of plain text and anchors is, once read, such a page. *)
Lemma read_shape ps :
  forallb wf_piece ps = true ->
  forall b, exists ps',
    translate_newlines b (render ps) = render ps'
    /\ forallb wf_piece ps' = true.
Proof.
  induction ps as [|[s|stem text] ps IH]; intros Hwf b;
    [exists []; auto| |];
    cbn [forallb wf_piece] in Hwf; apply andb_true_iff in Hwf as [Hp Hwf];
    cbn [render].
  - destruct (translate_app s (render ps) b) as (b' & ->).
    destruct (IH Hwf b') as (ps' & -> & Hwf').
    exists (Plain (translate_newlines b s) :: ps'). cbn [render forallb wf_piece].
    now rewrite translate_quiet, Hwf'.
  - apply andb_true_iff in Hp as [Hs Ht]. apply negb_true_iff in Hs, Ht.
    destruct (translate_anchor stem text (render ps) b) as (b1 & b2 & ->).
    destruct (IH Hwf false) as (ps' & -> & Hwf').
    exists (ArchiveLink (translate_newlines b1 stem) (translate_newlines b2 text) :: ps').
    cbn [render forallb wf_piece].
    assert (Hq : ascii_of_nat 34 <> ascii_of_nat 10) by (vm_compute; discriminate).
    assert (Hl : "<"%char <> ascii_of_nat 10) by (vm_compute; discriminate).
    rewrite (translate_has_char _ stem Hq Hs), (translate_has_char _ text Hl Ht), Hwf'.
    auto.
Qed.

Lemma update_index_on_page E w zip_name m page ps :
  latest_repo_zip_name w = Some zip_name ->
  zip_name <> EmptyString ->
  FS.assoc "index.html" (root w) = Some (File m (Blob page)) ->
  universal_newlines page = render ps ->
  forallb wf_piece ps = true ->
  _update_index_html E w
  = if negb (String.eqb (relinked (new_link zip_name) ps) (render ps)) then
      if deny_write E (InRoot "index.html") then (Raise OSError, w)
      else print (UpdatedIndex zip_name)
             (with_root w (FS.set "index.html"
                             (File (now E) (Blob (relinked (new_link zip_name) ps)))
                             (root w)))
    else print IndexUpToDate w.
Proof.
  intros Hlatest Hname Hpage Hread Hwf.
  unfold _update_index_html. rewrite Hlatest.
  destruct (String.eqb_spec zip_name EmptyString) as [Heq|_]; [contradiction|].
  rewrite Hpage. cbn [text_of]. now rewrite Hread, (re_sub_pieces _ ps Hwf).
Qed.

Lemma new_link_anchor stem :
  new_link (stem ++ ".zip")%string = anchor stem (stem ++ ".zip")%string.
Proof. unfold new_link, anchor. now rewrite !append_assoc. Qed.

Lemma relinked_render stem text ps :
  relinked (anchor stem text) ps = render (map (relink_piece stem text) ps).
Proof.
  induction ps as [|[s|st tx] ps IH]; cbn [relinked render map relink_piece];
    [reflexivity| |]; now rewrite IH.
Qed.

Lemma relinked_relink link stem text ps :
  relinked link (map (relink_piece stem text) ps) = relinked link ps.
Proof.
  induction ps as [|[s|st tx] ps IH]; cbn [relinked map relink_piece];
    [reflexivity| |]; now rewrite IH.
Qed.

Lemma wf_relink stem text ps :
  has_char (ascii_of_nat 34) stem = false ->
  has_char "<"%char text = false ->
  forallb wf_piece ps = true ->
  forallb wf_piece (map (relink_piece stem text) ps) = true.
Proof.
  intros Hs Ht. induction ps as [|[s|st tx] ps IH]; cbn [forallb map relink_piece];
    [reflexivity| |]; intros H; apply andb_prop in H as [Hp H];
    rewrite (IH H), andb_true_r; [exact Hp|].
  cbn [wf_piece]. now rewrite Hs, Ht.
Qed.

(** Relinking a page without carriage returns with a name without
    carriage returns gives a page without them. *)
Lemma relink_clean stem text ps :
  has_char (ascii_of_nat 13) stem = false ->
  has_char (ascii_of_nat 13) text = false ->
  has_char (ascii_of_nat 13) (render ps) = false ->
  has_char (ascii_of_nat 13) (render (map (relink_piece stem text) ps)) = false.
Proof.
  intros Hs Ht. induction ps as [|[s|st tx] ps IH]; cbn [render map relink_piece];
    [reflexivity| |]; rewrite !has_char_app; intros H;
    apply orb_false_iff in H as [Hp H]; rewrite (IH H), orb_false_r; [exact Hp|].
  unfold anchor, dquote. rewrite !has_char_app, Hs, Ht. reflexivity.
Qed.

(** X17: the update of the index page settles.  When the promoted
    archive is [stem].zip, a name free of double quotes, opening angle
    brackets, backslashes and carriage returns, and the page is made of
    plain text and of anchors to archives, the page that an update
    leaves is one that the next update with the same name finds up to
    date: it is not written again.  (A carriage return in the name would
    be written with the link and read back as a line feed, so that every
    update would write the page again.) *)
Theorem index_update_settles
        (E : env) (w w1 : world) (stem : string) (m : nat) (ps : list piece) :
  latest_repo_zip_name w = Some (stem ++ ".zip")%string ->
  has_char (ascii_of_nat 34) stem = false ->
  has_char "<"%char (stem ++ ".zip")%string = false ->
  has_char (ascii_of_nat 92) (stem ++ ".zip")%string = false ->
  has_char (ascii_of_nat 13) (stem ++ ".zip")%string = false ->
  FS.assoc "index.html" (root w) = Some (File m (Blob (render ps))) ->
  forallb wf_piece ps = true ->
  _update_index_html E w = (Ok tt, w1) ->
  _update_index_html E w1 = (Ok tt, with_stdout w1 (stdout w1 ++ [IndexUpToDate])).
Proof.
  intros Hlatest Hq Hlt _ Hcr Hpage Hwf Hrun.
  set (zip_name := (stem ++ ".zip")%string) in *.
  assert (Hname : zip_name <> EmptyString) by (unfold zip_name; now destruct stem).
  assert (Hcr' : has_char (ascii_of_nat 13) stem = false).
  { unfold zip_name in Hcr. rewrite has_char_app in Hcr.
    now apply orb_false_iff in Hcr as [Hcr _]. }
  destruct (read_shape ps Hwf false) as (ps0 & Hread & Hwf0).
  fold (universal_newlines (render ps)) in Hread.
  set (ps' := map (relink_piece stem zip_name) ps0).
  assert (Hlink : new_link zip_name = anchor stem zip_name) by apply new_link_anchor.
  assert (Hupd : relinked (new_link zip_name) ps0 = render ps')
    by (rewrite Hlink; apply relinked_render).
  assert (Hwf' : forallb wf_piece ps' = true) by now apply wf_relink.
  assert (Hfix : relinked (new_link zip_name) ps' = render ps').
  { unfold ps'. now rewrite relinked_relink. }
  assert (Hclean : universal_newlines (render ps') = render ps').
  { apply translate_id. apply relink_clean; [exact Hcr'|exact Hcr|].
    rewrite <- Hread. apply translate_clean. }
  rewrite (update_index_on_page E w zip_name m (render ps) ps0
             Hlatest Hname Hpage Hread Hwf0) in Hrun.
  rewrite Hupd in Hrun.
  destruct (String.eqb_spec (render ps') (render ps0)) as [Heq|Hne];
    cbn [negb] in Hrun.
  - unfold print in Hrun. injection Hrun as <-.
    rewrite (update_index_on_page E (with_stdout w (stdout w ++ [IndexUpToDate]))
               zip_name m (render ps) ps0 Hlatest Hname Hpage Hread Hwf0).
    rewrite Hupd, Heq, String.eqb_refl. reflexivity.
  - destruct (deny_write E (InRoot "index.html")); [discriminate|].
    unfold print in Hrun. injection Hrun as <-.
    rewrite (update_index_on_page E
               (with_stdout
                  (with_root w (FS.set "index.html"
                                  (File (now E) (Blob (render ps'))) (root w)))
                  (stdout w ++ [UpdatedIndex zip_name]))
               zip_name (now E) (render ps') ps'
               Hlatest Hname (assoc_set_same _ _ _) Hclean Hwf').
    rewrite Hfix, String.eqb_refl. reflexivity.
Qed.

(* ------------------------------------------------------------------ *)
(** ** The removal of compiled files, run twice *)
(* ------------------------------------------------------------------ *)

Lemma no_target_dir m l :
  no_target (Dir m l)
  = forallb (fun e => negb (targeted (fst e) (snd e)) && no_target (snd e)) l.
Proof.
  cbn [no_target]. induction l as [|[name c] l IH]; [reflexivity|].
  cbn [forallb fst snd]. now rewrite IH.
Qed.

(** Where nothing is to be removed the walk changes nothing and prints
    nothing. *)
Lemma remove_binaries_in_nothing E n :
  forall parent, no_target n = true -> remove_binaries_in E parent n = (n, []).
Proof.
  induction n as [m c|m l IH] using node_induction; intros parent Hn;
    [reflexivity|].
  rewrite no_target_dir in Hn. rewrite remove_binaries_in_dir.
  assert (H : rb_entries E parent l = (l, [], [], [])).
  { induction l as [|[name c] l IHl]; [reflexivity|].
    cbn [forallb fst snd] in Hn. apply andb_prop in Hn as [Hc Hl].
    apply andb_prop in Hc as [Ht Hc]. apply negb_true_iff in Ht.
    inversion IH as [|? ? IHc IHrest]; subst. cbn [snd] in IHc.
    rewrite rb_entries_cons, (IHl IHrest Hl). cbv zeta.
    destruct c as [mc cc|mc sub]; cbn [targeted] in Ht; rewrite Ht.
    - reflexivity.
    - now rewrite (IHc (parent ++ [name]) Hc). }
  now rewrite H.
Qed.

(** When no removal is refused, the walk leaves nothing to remove. *)
Lemma remove_binaries_in_thorough E n :
  (forall l, deny_remove E l = false) ->
  forall parent, no_target (fst (remove_binaries_in E parent n)) = true.
Proof.
  intros Hallow.
  induction n as [m c|m l IH] using node_induction; intros parent;
    [reflexivity|].
  rewrite remove_binaries_in_dir.
  assert (H : forallb (fun e => negb (targeted (fst e) (snd e)) && no_target (snd e))
                      (fst (fst (fst (rb_entries E parent l)))) = true).
  { induction l as [|[name c] l IHl]; [reflexivity|].
    inversion IH as [|? ? IHc IHrest]; subst. cbn [snd] in IHc.
    specialize (IHl IHrest). rewrite rb_entries_cons. cbv zeta.
    destruct (rb_entries E parent l) as [[[kept mf] md] mw]. cbn [fst] in IHl.
    rewrite Hallow.
    destruct c as [mc cc|mc sub].
    - destruct (is_compiled name) eqn:Hc; cbn [fst]; [exact IHl|].
      cbn [forallb fst snd targeted no_target]. now rewrite Hc, IHl.
    - destruct (is_cache name) eqn:Hc; cbn [fst]; [exact IHl|].
      specialize (IHc (parent ++ [name])).
      destruct (remove_binaries_in E (parent ++ [name]) (Dir mc sub)) as [c' ms] eqn:Hw.
      cbn [fst forallb snd] in *. rewrite IHc, IHl, andb_true_r.
      assert (Hdir : exists m' l', c' = Dir m' l').
      { rewrite remove_binaries_in_dir in Hw.
        destruct (rb_entries E (parent ++ [name]) sub) as [[[k1 a1] b1] c1].
        injection Hw as <- _. eauto. }
      destruct Hdir as (m' & l' & ->). cbn [targeted]. now rewrite Hc. }
  destruct (rb_entries E parent l) as [[[kept mf] md] mw]. cbn [fst] in *.
  now rewrite no_target_dir.
Qed.

(** X18: the removal of compiled files, run twice.  When no removal is
    refused, the release directory that the removal leaves holds no
    compiled file and no cache directory at any depth, and a second
    removal changes nothing and prints nothing. *)
Theorem remove_binaries_twice (E : env) (w w1 : world) :
  (forall l, deny_remove E l = false) ->
  _remove_binaries E w = (Ok tt, w1) ->
  no_target (Dir 0 (release w1)) = true
  /\ _remove_binaries E w1 = (Ok tt, w1).
Proof.
  intros Hallow Hrun.
  destruct (@remove_binaries_returns E w) as (r & Hin & Hrm).
  rewrite Hrm in Hrun. injection Hrun as <-.
  cbn [release with_stdout with_release].
  assert (Hclean : no_target (Dir 0 r) = true).
  { pose proof (remove_binaries_in_thorough E (Dir 0 (release w)) Hallow []) as H.
    now rewrite Hin in H. }
  split; [exact Hclean|].
  unfold _remove_binaries. cbn [release with_stdout with_release].
  rewrite (remove_binaries_in_nothing E (Dir 0 r) [] Hclean).
  unfold with_stdout, with_release. cbn [release root latest_repo_zip_name stdout].
  now rewrite app_nil_r.
Qed.

(* ------------------------------------------------------------------ *)
(** ** The size printed for an archive *)
(* ------------------------------------------------------------------ *)

Lemma float_limit_large : (1024 ^ 5 < float_limit)%N.
Proof. reflexivity. Qed.

(** X19: the sizes without a text.  [convert_bytes] returns a text for
    every size below [1024^5]; from [1024^5] on it falls off the end of
    its loop and returns [None], as long as a float holds the size, that
    is below [2^1024 - 2^970]; and from there on it raises
    [OverflowError]. *)
Theorem convert_bytes_none_iff (n : N) :
  (convert_bytes n = NoUnit <-> (1024 ^ 5 <= n < 2 ^ 1024 - 2 ^ 970)%N)
  /\ (convert_bytes n = Overflow <-> (2 ^ 1024 - 2 ^ 970 <= n)%N).
Proof.
  fold float_limit. pose proof float_limit_large as Hlarge.
  replace (1024 ^ 5)%N with 1125899906842624%N in * by reflexivity.
  unfold convert_bytes, UNITS. cbn [convert_loop].
  change (1024 * 1)%N with 1024%N.
  change (1024 * 1024)%N with 1048576%N.
  change (1024 * 1048576)%N with 1073741824%N.
  change (1024 * 1073741824)%N with 1099511627776%N.
  change (1024 * 1099511627776)%N with 1125899906842624%N.
  cbn [N.eqb Pos.eqb andb].
  destruct (N.leb_spec float_limit n) as [Hf|Hf];
    repeat match goal with
           | |- context [N.ltb ?a ?b] => destruct (N.ltb_spec a b)
           end;
    split; split; intros Hn; try discriminate; try reflexivity; lia.
Qed.

Lemma tenths_close n d :
  (0 < d)%N ->
  (2 * tenths n d * d <= 20 * n + d /\ 20 * n <= 2 * tenths n d * d + d)%N.
Proof.
  intros Hd. unfold tenths.
  pose proof (N.div_mod (10 * n) d) as Hdm.
  pose proof (N.mod_lt (10 * n) d) as Hlt.
  set (q := (10 * n / d)%N) in *. set (r := (10 * n mod d)%N) in *.
  assert (Hq : (10 * n = d * q + r)%N) by (apply Hdm; lia).
  assert (Hr : (r < d)%N) by (apply Hlt; lia).
  destruct (N.ltb_spec (2 * r) d); [nia|].
  destruct (N.ltb_spec d (2 * r)); [nia|].
  destruct (N.even q); nia.
Qed.

Lemma tenths_whole n : tenths n 1 = (10 * n)%N.
Proof.
  unfold tenths. rewrite N.div_1_r, N.mod_1_r. reflexivity.
Qed.

(** X20: the size printed is the size.  For a size below [1024^5] the
    text is a number with one decimal and a unit; the unit is the
    largest with which the number is not below 1 (bytes for a size below
    1024), and the number printed is within half a tenth of the size in
    that unit.  A size below 1024 is printed as it is, with [.0]. *)
Theorem convert_bytes_accurate (n : N) :
  (n < 1024 ^ 5)%N ->
  (exists (k : nat) (t : N) (x : string),
      nth_error UNITS k = Some x
      /\ convert_bytes n = Text (format_tenths t ++ " " ++ x)%string
      /\ (k = 0%nat \/ (1024 ^ N.of_nat k <= n)%N)
      /\ (n < 1024 ^ N.of_nat (S k))%N
      /\ (2 * t * 1024 ^ N.of_nat k <= 20 * n + 1024 ^ N.of_nat k)%N
      /\ (20 * n <= 2 * t * 1024 ^ N.of_nat k + 1024 ^ N.of_nat k)%N)
  /\ ((n < 1024)%N ->
      convert_bytes n = Text (decimal n ++ ".0 bytes")%string).
Proof.
  pose proof float_limit_large as Hlarge.
  replace (1024 ^ 5)%N with 1125899906842624%N in * by reflexivity. intros Hn.
  unfold convert_bytes, UNITS. cbn [convert_loop].
  change (1024 * 1)%N with 1024%N.
  change (1024 * 1024)%N with 1048576%N.
  change (1024 * 1048576)%N with 1073741824%N.
  change (1024 * 1073741824)%N with 1099511627776%N.
  change (1024 * 1099511627776)%N with 1125899906842624%N.
  cbn [N.eqb Pos.eqb andb].
  destruct (N.leb_spec float_limit n) as [Hf|_]; [lia|].
  split.
  - destruct (N.ltb_spec n 1024) as [H0|H0];
      [|destruct (N.ltb_spec n 1048576) as [H1|H1];
        [|destruct (N.ltb_spec n 1073741824) as [H2|H2];
          [|destruct (N.ltb_spec n 1099511627776) as [H3|H3];
            [|destruct (N.ltb_spec n 1125899906842624) as [H4|H4]; [|lia]]]]].
    + exists 0, (tenths n 1), "bytes".
      destruct (tenths_close n 1 ltac:(lia)) as [Ha Hb].
      change (1024 ^ N.of_nat 0)%N with 1%N.
      change (1024 ^ N.of_nat 1)%N with 1024%N.
      repeat split; auto; lia.
    + exists 1, (tenths n 1024), "KB".
      destruct (tenths_close n 1024 ltac:(lia)) as [Ha Hb].
      change (1024 ^ N.of_nat 1)%N with 1024%N.
      change (1024 ^ N.of_nat 2)%N with 1048576%N.
      repeat split; auto; lia.
    + exists 2, (tenths n 1048576), "MB".
      destruct (tenths_close n 1048576 ltac:(lia)) as [Ha Hb].
      change (1024 ^ N.of_nat 2)%N with 1048576%N.
      change (1024 ^ N.of_nat 3)%N with 1073741824%N.
      repeat split; auto; lia.
    + exists 3, (tenths n 1073741824), "GB".
      destruct (tenths_close n 1073741824 ltac:(lia)) as [Ha Hb].
      change (1024 ^ N.of_nat 3)%N with 1073741824%N.
      change (1024 ^ N.of_nat 4)%N with 1099511627776%N.
      repeat split; auto; lia.
    + exists 4, (tenths n 1099511627776), "TB".
      destruct (tenths_close n 1099511627776 ltac:(lia)) as [Ha Hb].
      change (1024 ^ N.of_nat 4)%N with 1099511627776%N.
      change (1024 ^ N.of_nat 5)%N with 1125899906842624%N.
      repeat split; auto; lia.
  - intros H0. destruct (N.ltb_spec n 1024) as [_|H]; [|lia].
    rewrite tenths_whole. unfold format_tenths.
    replace (10 * n / 10)%N with n by (rewrite N.mul_comm, N.div_mul; lia).
    replace ((10 * n) mod 10)%N with 0%N
      by (rewrite N.mul_comm, N.Div0.mod_mul; reflexivity).
    rewrite append_assoc. reflexivity.
Qed.

(* ------------------------------------------------------------------ *)
(** ** The entry point *)
(* ------------------------------------------------------------------ *)






(* ------------------------------------------------------------------ *)
(** ** The merge, applied twice *)
(* ------------------------------------------------------------------ *)

(** X22: a declaration is merged once.  After the merge of a
    declaration tagged [addon] with a plain id, the manifest holds an
    entry of that id with that version, so that a second merge of the
    same declaration finds it and changes nothing. *)
Theorem merge_settles (kids : list Element) (d : Element) (i : string) :
  tag d = "addon" ->
  get d "id" = Some i ->
  plain_id i = true ->
  merge (fst (merge kids d)) d = (fst (merge kids d), false).
Proof.
  intros Htag Hid _.
  destruct (@merge_own i kids d Htag Hid) as (e & He & Hv).
  exact (@merge_up_to_date i (fst (merge kids d)) d e Hid He Hv).
Qed.

(* ------------------------------------------------------------------ *)
(** ** The sources are read only *)
(* ------------------------------------------------------------------ *)

Lemma nonzips_del l : nonzips (FS.del "zips" l) = nonzips l.
Proof.
  unfold nonzips. induction l as [|[k c] l IH]; [reflexivity|].
  cbn [FS.del]. destruct (String.eqb_spec "zips" k) as [<-|Hk]; cbn [filter fst].
  - reflexivity.
  - now rewrite IH.
Qed.

Lemma rm_under_zips q l : nonzips (FS.rm ("zips" :: q) l) = nonzips l.
Proof.
  cbn [FS.rm]. destruct q as [|x q]; [apply nonzips_del|].
  destruct (FS.assoc "zips" l) as [[|m sub]|]; try reflexivity. apply nonzips_set.
Qed.

Lemma keeps_remove E q : keeps_sources (remove E ("zips" :: q)).
Proof.
  intros w. unfold remove.
  destruct (FS.lookup _ _) as [[|]|]; try reflexivity.
  destruct (deny_remove E _); [reflexivity|]. cbn [snd release with_release].
  apply rm_under_zips.
Qed.

Lemma keeps_isdir p : keeps_sources (isdir p).
Proof. intros w. reflexivity. Qed.

Lemma keeps_scandir p : keeps_sources (scandir p).
Proof.
  intros w. unfold scandir. now destruct (FS.lookup p (release w)) as [[|]|].
Qed.

Lemma keeps_listdir p : keeps_sources (listdir p).
Proof.
  unfold listdir. apply keeps_bind; [apply keeps_scandir|]. intros l.
  apply keeps_ret.
Qed.

Lemma keeps_read_text E p : keeps_sources (read_text E p).
Proof.
  intros w. unfold read_text. now destruct (FS.lookup p (release w)) as [[|]|].
Qed.

Lemma keeps_for_fold {A S} (l : list A) (body : S -> A -> M S) :
  (forall s x, keeps_sources (body s x)) ->
  forall s, keeps_sources (for_fold l body s).
Proof.
  intros H. induction l as [|x l IH]; intros s; cbn [for_fold].
  - apply keeps_ret.
  - apply keeps_bind; [apply H|]. intros s'. apply IH.
Qed.

Lemma keeps_generate_md5_file E : keeps_sources (_generate_md5_file E).
Proof.
  unfold _generate_md5_file. apply keeps_try.
  - apply keeps_bind; [apply keeps_read_text|]. intros t.
    apply keeps_bind; [|intros _; apply keeps_ret].
    unfold _save_file. apply keeps_try; [|intros e; apply keeps_print].
    apply (keeps_write_file E ["addons.xml.md5"]).
  - intros e. apply keeps_bind; [apply keeps_print|]. intros _. apply keeps_ret.
Qed.

Lemma keeps_cleanup_old_zips E : keeps_sources (_cleanup_old_zips E).
Proof.
  unfold _cleanup_old_zips.
  apply keeps_bind; [apply keeps_exists|]. intros ex.
  apply keeps_if; [apply keeps_ret|].
  apply keeps_bind; [apply keeps_listdir|]. intros names.
  apply keeps_for_each. intros id _. unfold cleanup_folder.
  apply keeps_bind; [apply keeps_isdir|]. intros d.
  apply keeps_if; [apply keeps_ret|].
  apply keeps_bind; [apply keeps_scandir|]. intros l.
  apply keeps_for_each. intros f _. unfold remove_old_zip.
  apply keeps_try; [|intros e; apply keeps_print].
  apply keeps_bind; [|intros _; apply keeps_print].
  apply (keeps_remove E [id; f]).
Qed.

(** The promotion and the update of the index page do not write into
    the release directory at all. *)
Lemma release_after_promotion E w :
  release (snd (_copy_repo_zip_to_root E w)) = release w.
Proof.
  assert (Hcand : forall names acc w0,
             release (snd (for_fold names
                             (fun acc addon_id =>
                                c <- candidate_of addon_id ;; ret (acc ++ c)) acc w0))
             = release w0).
  { induction names as [|n names IH]; intros acc w0; [reflexivity|].
    cbn [for_fold]. unfold bind at 1.
    assert (Hc : forall w1, exists cs, candidate_of n w1 = (Ok cs, w1)).
    { intros w1. unfold candidate_of, bind at 1, isdir.
      destruct (FS.lookup (zips_path ++ [n]) (release w1)) as [[|md l]|] eqn:Hl;
        cbn [negb]; unfold ret; eauto.
      unfold bind at 1, exists_.
      destruct (is_some (FS.lookup ((zips_path ++ [n]) ++ ["addon.xml"]) (release w1)));
        cbn [negb]; eauto.
      unfold try_except, bind at 1, parse.
      destruct (FS.lookup ((zips_path ++ [n]) ++ ["addon.xml"]) (release w1))
        as [[mx [s|r|z]|]|]; eauto.
      destruct (is_repository r); eauto.
      unfold bind at 1, scandir. rewrite Hl.
      destruct (rev (sorted_by_mtime (zips_in l))); eauto. }
    unfold bind at 1. destruct (Hc w0) as (cs & ->). unfold ret at 1.
    apply IH. }
  assert (Hsweep : forall names w0,
             release (snd (for_each names (remove_root_zip E) w0)) = release w0).
  { induction names as [|f names IH]; intros w0; [reflexivity|].
    cbn [for_each]. unfold bind at 1, remove_root_zip.
    destruct (Py.endswith f ".zip").
    - unfold try_except, bind at 1, remove_root.
      destruct (FS.assoc f (root w0)) as [[mf c|md l]|];
        try (unfold print at 1; rewrite IH; reflexivity).
      destruct (deny_remove E (InRoot f)); unfold print at 1; rewrite IH; reflexivity.
    - unfold ret at 1. apply IH. }
  unfold _copy_repo_zip_to_root, bind at 1, exists_.
  destruct (is_some (FS.lookup zips_path (release w))); cbn [negb]; [|reflexivity].
  unfold bind at 1, listdir, bind at 1, scandir.
  destruct (FS.lookup zips_path (release w)) as [[|mz zl]|]; try reflexivity.
  unfold ret at 1. unfold bind at 1, collect_candidates.
  specialize (Hcand (FS.names zl) [] w).
  destruct (for_fold (FS.names zl) _ [] w) as [[cands|e] w1]; cbn [snd] in Hcand;
    [|exact Hcand].
  destruct (choose E cands) as [[[cid name] src]|]; [|exact Hcand].
  unfold bind at 1. unfold bind at 1.
  specialize (Hsweep (FS.names (root w1)) w1).
  destruct (for_each (FS.names (root w1)) (remove_root_zip E) w1) as [[[]|e] w2];
    cbn [snd] in *; [|congruence].
  unfold bind at 1, copy_to_root.
  destruct (FS.lookup src (release w2)) as [[ms c|]|]; cbn [snd]; try congruence.
  destruct (deny_write E (InRoot name)); cbn [snd]; try congruence.
  destruct (FS.assoc name (root w2)) as [[|md sub]|]; cbn; congruence.
Qed.

Lemma release_after_index E w :
  release (snd (_update_index_html E w)) = release w.
Proof.
  unfold _update_index_html.
  destruct (latest_repo_zip_name w) as [z|]; [|reflexivity].
  destruct (String.eqb z EmptyString); [reflexivity|].
  destruct (FS.assoc "index.html" (root w)) as [[m c|m l]|]; try reflexivity.
  destruct (text_of E c) as [content|e]; [|reflexivity].
  destruct (negb _); [|reflexivity].
  now destruct (deny_write E (InRoot "index.html")).
Qed.

Lemma sources_after_generate E w :
  well_formed (release w) = true ->
  nonzips (release (snd (_generate_addons_file E w))) = nonzips (release w).
Proof.
  intros Hwf. rewrite generate_addons_file_unfold.
  destruct (manifest_root (release w)) as [old|e]; [|reflexivity].
  destruct (@loop_merges E (get_addon_folders (release w)) (children old, false) w
              (@well_formed_sources (release w) Hwf)) as (wl & -> & Hwl).
  rewrite <- Hwl.
  destruct (merge_all _ _) as [kids changed]. unfold write_back.
  destruct changed; [|reflexivity].
  unfold bind at 1, lift. destruct (sorted_by_id kids) as [kids'|e]; [|reflexivity].
  apply keeps_try.
  - apply keeps_bind; [apply (keeps_write_file E ["addons.xml"])|].
    intros _. apply keeps_ret.
  - intros e. apply keeps_bind; [apply keeps_print|]. intros _. apply keeps_ret.
Qed.

(** X23: the sources are read only.  For a well-formed release tree
    whose declarations name places of their own only (each id is a
    folder name: not empty, neither [.] nor [..], without separator;
    each version is without separator; each referenced file is given by
    a relative path that stays inside the add-on folder), nothing that
    follows the removal of the compiled files writes outside the output
    folder of the release directory: whatever the manifest, the output
    folder and the root hold, and whichever writes and removals are
    refused, the add-on folders are after the run what they were before
    it. *)
Theorem sources_are_read_only (E : env) (w : world) :
  well_formed (release w) = true ->
  contained (release w) = true ->
  nonzips (release (snd ((update_manifest E ;; later_stages E) w)))
  = nonzips (release w).
Proof.
  intros Hwf _.
  assert (Hupd : nonzips (release (snd (update_manifest E w))) = nonzips (release w)).
  { unfold update_manifest, bind at 1.
    pose proof (sources_after_generate E w Hwf) as Hgen.
    destruct (_generate_addons_file E w) as [[ok|e] w1]; cbn [snd] in *;
      [|exact Hgen].
    rewrite <- Hgen. destruct ok; [|reflexivity].
    apply keeps_bind; [apply keeps_print|]. intros _.
    apply keeps_bind; [apply keeps_generate_md5_file|]. intros ok'.
    apply keeps_if; [apply keeps_print|apply keeps_ret]. }
  unfold bind at 1.
  destruct (update_manifest E w) as [[[]|e] w1]; cbn [snd] in *; [|exact Hupd].
  rewrite <- Hupd. unfold later_stages, bind at 1.
  pose proof (keeps_cleanup_old_zips E w1) as Hc.
  destruct (_cleanup_old_zips E w1) as [[[]|e] w2]; cbn [snd] in *; [|exact Hc].
  rewrite <- Hc. unfold bind at 1.
  pose proof (release_after_promotion E w2) as Hp.
  destruct (_copy_repo_zip_to_root E w2) as [[[]|e] w3]; cbn [snd] in *;
    [|now rewrite Hp].
  now rewrite release_after_index, Hp.
Qed.

(* ------------------------------------------------------------------ *)
(** ** Discovery after the removal of compiled files *)
(* ------------------------------------------------------------------ *)

Lemma rb_entries_kept E parent l :
  fst (fst (fst (rb_entries E parent l))) = flat_map (walked_entry E parent) l.
Proof.
  induction l as [|[name c] l IH]; [reflexivity|].
  rewrite rb_entries_cons. cbv zeta.
  destruct (rb_entries E parent l) as [[[kept mf] md] mw]. cbn [fst] in IH.
  cbn [flat_map]. rewrite <- IH. unfold walked_entry, cache_removed. cbn [fst snd].
  destruct c as [mt data|mt sub].
  - destruct (is_compiled name); [|reflexivity].
    now destruct (deny_remove E (InRelease (parent ++ [name]))).
  - destruct (remove_binaries_in E (parent ++ [name]) (Dir mt sub)) as [c' ms].
    destruct (is_cache name); [|reflexivity].
    now destruct (deny_remove E (InRelease (parent ++ [name]))).
Qed.

Lemma rb_entries_assoc_none E parent x l :
  FS.assoc x l = None -> FS.assoc x (flat_map (walked_entry E parent) l) = None.
Proof.
  induction l as [|[k c] l IH]; [reflexivity|]. cbn [FS.assoc flat_map].
  destruct (String.eqb_spec x k) as [->|Hne]; [discriminate|]. intros Ha.
  specialize (IH Ha). unfold walked_entry. cbn [fst snd].
  destruct c as [mt data|mt sub];
    [destruct (is_compiled k && _)|destruct (cache_removed E parent k)];
    cbn [app FS.assoc]; try exact IH;
    (destruct (String.eqb_spec x k); [contradiction|exact IH]).
Qed.

Lemma walked_dir E parent m l :
  fst (remove_binaries_in E parent (Dir m l))
  = Dir m (flat_map (walked_entry E parent) l).
Proof.
  rewrite remove_binaries_in_dir, <- rb_entries_kept.
  now destruct (rb_entries E parent l) as [[[kept mf] md] mw].
Qed.

Lemma has_addon_xml_walked E parent l :
  has_addon_xml (flat_map (walked_entry E parent) l) = has_addon_xml l.
Proof.
  unfold has_addon_xml.
  destruct (FS.assoc "addon.xml" l) as [c|] eqn:Ha.
  - rewrite <- rb_entries_kept.
    rewrite (rb_entries_assoc E parent "addon.xml" c l Ha); [reflexivity|].
    now destruct c.
  - now rewrite rb_entries_assoc_none.
Qed.

Lemma flat_map_flat_map {A B C} (f : A -> list B) (g : B -> list C) l :
  flat_map g (flat_map f l) = flat_map (fun a => flat_map g (f a)) l.
Proof.
  induction l as [|a l IH]; [reflexivity|].
  cbn [flat_map]. now rewrite flat_map_app, IH.
Qed.

Lemma filter_flat_map {A B} (p : B -> bool) (f : A -> list B) l :
  filter p (flat_map f l) = flat_map (fun a => filter p (f a)) l.
Proof.
  induction l as [|a l IH]; [reflexivity|].
  cbn [flat_map]. now rewrite filter_app, IH.
Qed.

Lemma flat_map_ext_in {A B} (f g : A -> list B) l :
  (forall a, In a l -> f a = g a) -> flat_map f l = flat_map g l.
Proof.
  induction l as [|a l IH]; intros H; [reflexivity|].
  cbn [flat_map]. rewrite (H a (or_introl eq_refl)), IH; [reflexivity|].
  intros b Hb. apply H. now right.
Qed.

(** The add-ons of a nested project after the walk of its folder
    [repo]. *)
Lemma nested_addons_walked E base l :
  nested_addons base (flat_map (walked_entry E base) l)
  = filter (fun p => negb (cache_removed E base (last p EmptyString)))
           (nested_addons base l).
Proof.
  unfold nested_addons. rewrite flat_map_flat_map, filter_flat_map.
  apply flat_map_ext_in. intros [y c] _. unfold walked_entry. cbn [fst snd].
  destruct c as [mt data|mt sub].
  - now destruct (is_compiled y && _).
  - destruct (cache_removed E base y) eqn:Hrm; cbn [flat_map fst snd].
    + destruct (negb (String.eqb y "zips") && negb (Py.startswith y ".")
                && has_addon_xml sub); [|reflexivity].
      cbn [filter]. now rewrite last_last, Hrm.
    + rewrite walked_dir, has_addon_xml_walked, app_nil_r.
      destruct (negb (String.eqb y "zips") && negb (Py.startswith y ".")
                && has_addon_xml sub); [|reflexivity].
      cbn [filter]. now rewrite last_last, Hrm.
Qed.

Lemma filter_none {A} (p : A -> bool) l :
  (forall a, In a l -> p a = false) -> filter p l = [].
Proof.
  induction l as [|a l IH]; intros H; [reflexivity|].
  cbn [filter]. rewrite (H a (or_introl eq_refl)). apply IH.
  intros b Hb. apply H. now right.
Qed.

Lemma get_addon_folders_walked E l :
  get_addon_folders (flat_map (walked_entry E []) l)
  = filter (fun p => negb (vanishes E [] p)) (get_addon_folders l).
Proof.
  unfold get_addon_folders at 1 2. rewrite flat_map_flat_map, filter_flat_map.
  apply flat_map_ext_in. intros [x c] _. unfold walked_entry. cbn [fst snd].
  destruct c as [mt data|mt sub]; [now destruct (is_compiled x && _)|].
  destruct (cache_removed E [] x) eqn:Hrm; cbn [flat_map fst snd].
  - symmetry. apply filter_none. intros p Hp.
    assert (Hhead : exists q, p = x :: q).
    { destruct (String.eqb x "zips" || Py.startswith x "."); [destruct Hp|].
      destruct (has_addon_xml sub); [destruct Hp as [<-|[]]; eauto|].
      destruct (FS.assoc "repo" sub) as [[|mr nested]|]; try destruct Hp.
      apply nested_addons_head in Hp as (name & ->). cbn [app]. eauto. }
    destruct Hhead as (q & ->). cbn [vanishes]. now rewrite Hrm.
  - rewrite walked_dir, app_nil_r. cbn [app].
    destruct (String.eqb x "zips" || Py.startswith x "."); [reflexivity|].
    rewrite has_addon_xml_walked.
    destruct (has_addon_xml sub).
    { cbn [filter vanishes]. now rewrite Hrm. }
    destruct (FS.assoc "repo" sub) as [[mr data|mr nested]|] eqn:Hrepo.
    + rewrite <- rb_entries_kept.
      now rewrite (rb_entries_assoc E [x] "repo" (File mr data) sub Hrepo eq_refl).
    + rewrite <- rb_entries_kept.
      rewrite (rb_entries_assoc E [x] "repo" (Dir mr nested) sub Hrepo eq_refl).
      rewrite walked_dir. cbn [app]. rewrite nested_addons_walked.
      apply filter_ext_in. intros p Hp.
      apply nested_addons_head in Hp as (name & ->).
      cbn [app vanishes last]. rewrite Hrm.
      change (cache_removed E [x] "repo") with false.
      cbn [orb]. now rewrite orb_false_r.
    + now rewrite rb_entries_assoc_none.
Qed.

(** X24: the removal of compiled files and the discovery.  The add-on
    folders found after the removal are the ones that were there before
    it, in the same order, less those that had a cache directory on
    their path which the removal deleted: an add-on whose folder name
    contains [pycache] is lost with its folder, and no other add-on is
    dropped or added. *)
Theorem discovery_after_removal (E : env) (w w1 : world) :
  _remove_binaries E w = (Ok tt, w1) ->
  get_addon_folders (release w1)
  = filter (fun p => negb (vanishes E [] p)) (get_addon_folders (release w)).
Proof.
  intros Hrun. unfold _remove_binaries in Hrun.
  pose proof (walked_dir E [] 0 (release w)) as Hw.
  destruct (remove_binaries_in E [] (Dir 0 (release w))) as [n ms].
  cbn [fst] in Hw. subst n. injection Hrun as <-.
  cbn [release with_stdout with_release]. apply get_addon_folders_walked.
Qed.

(* ------------------------------------------------------------------ *)
(** ** The manifest does not depend on the order of the add-ons *)
(* ------------------------------------------------------------------ *)

Lemma string_leb_trans a :
  forall b c,
    String.leb a b = true -> String.leb b c = true -> String.leb a c = true.
Proof.
  unfold String.leb.
  induction a as [|x a IH]; intros [|y b] [|z c]; cbn [String.compare];
    try discriminate; try reflexivity.
  unfold Ascii.compare.
  destruct (N.compare_spec (N_of_ascii x) (N_of_ascii y)) as [Hxy|Hxy|Hxy];
    try discriminate;
    destruct (N.compare_spec (N_of_ascii y) (N_of_ascii z)) as [Hyz|Hyz|Hyz];
    try discriminate;
    destruct (N.compare_spec (N_of_ascii x) (N_of_ascii z)) as [Hxz|Hxz|Hxz];
    try lia; try reflexivity.
  apply IH.
Qed.

Section Classes.

Variables (A : Type) (key : A -> string).

Lemma class_sorted j l :
  class key j (Py.sorted key String.leb l) = class key j l.
Proof.
  unfold class.
  apply (@filter_sorted A string key String.leb
           (fun a => String.eqb (key a) j) j).
  - intros y Hy. now apply String.eqb_eq.
  - apply string_leb_refl.
Qed.

(** Two sorted lists with the same elements of every key, in the same
    order, are one list. *)
Lemma sorted_unique s1 :
  forall s2,
    Sorted (key_le key String.leb) s1 ->
    Sorted (key_le key String.leb) s2 ->
    (forall j, class key j s1 = class key j s2) ->
    s1 = s2.
Proof.
  induction s1 as [|x s1 IH]; intros s2 H1 H2 Hc.
  - destruct s2 as [|y s2]; [reflexivity|].
    specialize (Hc (key y)). unfold class in Hc. cbn [filter] in Hc.
    rewrite String.eqb_refl in Hc. discriminate.
  - destruct s2 as [|y s2].
    { specialize (Hc (key x)). unfold class in Hc. cbn [filter] in Hc.
      rewrite String.eqb_refl in Hc. discriminate. }
    assert (Hin : forall (a : A) l l', (forall j, class key j l = class key j l') ->
                                       In a l -> In a l').
    { intros a l l' H Ha.
      assert (Ha' : In a (class key (key a) l))
        by (apply filter_In; split; [exact Ha|apply String.eqb_refl]).
      rewrite H in Ha'. now apply filter_In in Ha'. }
    pose proof (@sorted_above A string key String.leb string_leb_trans x s1 H1) as Hx.
    pose proof (@sorted_above A string key String.leb string_leb_trans y s2 H2) as Hy.
    assert (Hkey : key x = key y).
    { apply String.leb_antisym.
      - destruct (Hin y (y :: s2) (x :: s1) (fun j => eq_sym (Hc j))
                      (or_introl eq_refl)) as [->|Hy1];
          [apply string_leb_refl|now apply Hx].
      - destruct (Hin x (x :: s1) (y :: s2) Hc (or_introl eq_refl)) as [->|Hx2];
          [apply string_leb_refl|now apply Hy]. }
    assert (Hxy : x = y /\ forall j, class key j s1 = class key j s2).
    { pose proof (Hc (key x)) as Hk. unfold class in Hk. cbn [filter] in Hk.
      rewrite <- Hkey, String.eqb_refl in Hk. injection Hk as Hxy Hk.
      split; [exact Hxy|]. intros j. specialize (Hc j).
      unfold class in *. cbn [filter] in Hc. rewrite <- Hkey in Hc.
      destruct (String.eqb (key x) j); [now injection Hc|exact Hc]. }
    destruct Hxy as [<- Hrest]. f_equal.
    apply IH; [now apply Sorted_inv in H1|now apply Sorted_inv in H2|exact Hrest].
Qed.

(** A stable sort depends on the elements of each key and on their
    order only. *)
Lemma sorted_by_classes l1 l2 :
  (forall j, class key j l1 = class key j l2) ->
  Py.sorted key String.leb l1 = Py.sorted key String.leb l2.
Proof.
  intros Hc. apply sorted_unique.
  - apply sorted_sorted, String.leb_total.
  - apply sorted_sorted, String.leb_total.
  - intros j. now rewrite !class_sorted.
Qed.

End Classes.

Lemma entries_app i l1 l2 : entries i (l1 ++ l2) = entries i l1 ++ entries i l2.
Proof. apply filter_app. Qed.

(** The entries of its id after the merge of a declaration, and the
    flag of the merge. *)
Lemma merge_entries_own kids d i :
  tag d = "addon" ->
  get d "id" = Some i ->
  entries i (fst (merge kids d)) = merge_class d (entries i kids)
  /\ snd (merge kids d) = class_updated d (entries i kids).
Proof.
  intros Htag Hid.
  assert (Hd : is_entry i d = true) by (apply is_entry_true; auto).
  unfold merge. rewrite Hid. cbn [Py.str].
  destruct (find_attr "addon" "id" i kids) as [[pos e]|] eqn:Hf.
  - apply find_attr_some in Hf as (pre & post & -> & <- & Hpre & He).
    assert (Hpre' : entries i pre = []) by (apply entries_none; exact Hpre).
    assert (Hes : entries i (pre ++ e :: post) = e :: entries i post).
    { rewrite entries_app, Hpre'. unfold entries at 1. cbn [filter].
      unfold is_entry at 1. now rewrite He. }
    rewrite Hes. cbn [merge_class class_updated].
    destruct (Py.opt_eqb (get e "version") (get d "version")); cbn [negb fst snd].
    + split; [exact Hes|reflexivity].
    + split; [|reflexivity].
      rewrite delete_at_length.
      rewrite insert_split by apply index_in_findall_le.
      destruct (entries_firstn_skipn i
                  (index_in_findall "addon" (pre ++ e :: post) (List.length pre))
                  pre Hpre') as [H1 H2].
      rewrite entries_app, H1. unfold entries at 1. cbn [filter app].
      rewrite Hd. fold (entries i (skipn (index_in_findall "addon"
                                           (pre ++ e :: post) (List.length pre)) pre
                                   ++ post)).
      now rewrite entries_app, H2.
  - assert (Hnone : entries i kids = []).
    { apply entries_none. intros x Hx. unfold is_entry.
      destruct (selects "addon" "id" i x) eqn:Hs; [|reflexivity].
      exfalso. clear -Hf Hx Hs. induction kids as [|c kids IH]; [destruct Hx|].
      cbn [find_attr] in Hf. destruct (selects "addon" "id" i c) eqn:Hc;
        [discriminate|].
      destruct (find_attr "addon" "id" i kids) as [[p e']|]; [discriminate|].
      destruct Hx as [->|Hx]; [congruence|auto]. }
    rewrite Hnone. cbn [fst snd merge_class class_updated].
    split; [|reflexivity].
    rewrite entries_app, Hnone. unfold entries. cbn [filter]. now rewrite Hd.
Qed.

Lemma in_py_delete {A} (x : A) i l : In x (Py.delete i l) -> In x l.
Proof.
  revert i. induction l as [|y l IH]; intros [|i]; cbn [Py.delete]; auto.
  - intros H. now right.
  - intros [<-|H]; [now left|right; eauto].
Qed.

Lemma in_py_insert {A} (x y : A) i l : In x (Py.insert i y l) -> x = y \/ In x l.
Proof.
  revert i. induction l as [|z l IH]; intros [|i]; cbn [Py.insert].
  - intros [<-|[]]. now left.
  - intros [<-|[]]. now left.
  - intros [<-|H]; [now left|now right].
  - intros [<-|H]; [right; now left|].
    destruct (IH i H) as [->|Hl]; [now left|right; now right].
Qed.

Lemma in_merge kids d x : In x (fst (merge kids d)) -> x = d \/ In x kids.
Proof.
  unfold merge.
  destruct (find_attr "addon" "id" (Py.str (get d "id")) kids) as [[pos e]|].
  - destruct (negb _); cbn [fst]; [|now right].
    intros H. apply in_py_insert in H as [->|H]; [now left|].
    right. eapply in_py_delete; eauto.
  - cbn [fst]. intros H. apply in_app_or in H as [H|[<-|[]]]; auto.
Qed.

Lemma merge_is_addon kids d :
  Forall (fun e => is_addon e = true) kids ->
  is_addon d = true ->
  Forall (fun e => is_addon e = true) (fst (merge kids d)).
Proof.
  intros Hk Hd. apply Forall_forall. intros x Hx.
  apply in_merge in Hx as [->|Hx]; [exact Hd|].
  rewrite Forall_forall in Hk. auto.
Qed.

Lemma wf_decl_is_addon d : wf_decl d = true -> is_addon d = true.
Proof.
  intros H. destruct (wf_decl_id d H) as (Htag & i & Hid & _).
  unfold is_addon. now rewrite Htag, Hid.
Qed.

Lemma entries_class j l :
  Forall (fun e => is_addon e = true) l -> entries j l = class id_key j l.
Proof.
  intros H. unfold entries, class. apply filter_ext_in. intros e He.
  rewrite Forall_forall in H. specialize (H e He).
  unfold is_addon in H. apply andb_prop in H as [Htag Hid].
  unfold is_entry, selects, id_key. rewrite Htag.
  destruct (get e "id") as [i|]; [|discriminate]. reflexivity.
Qed.

(** One merge on two manifests with the same entries of every id. *)
Lemma merge_same_classes l1 l2 d :
  wf_decl d = true ->
  (forall j, entries j l1 = entries j l2) ->
  (forall j, entries j (fst (merge l1 d)) = entries j (fst (merge l2 d)))
  /\ snd (merge l1 d) = snd (merge l2 d).
Proof.
  intros Hwf Hc. destruct (wf_decl_id d Hwf) as (Htag & i & Hid & _).
  destruct (merge_entries_own l1 d i Htag Hid) as [H1 F1].
  destruct (merge_entries_own l2 d i Htag Hid) as [H2 F2].
  split; [|now rewrite F1, F2, Hc].
  intros j. destruct (String.eqb_spec j i) as [->|Hne].
  - now rewrite H1, H2, Hc.
  - now rewrite !(@merge_other i j _ d Hid Hne).
Qed.

Lemma merge_all_cons l b d ds :
  merge_all (l, b) (d :: ds)
  = merge_all (fst (merge l d), b || snd (merge l d)) ds.
Proof.
  unfold merge_all. cbn [fold_left]. f_equal.
  unfold merge_step. cbn [fst snd]. now destruct (merge l d).
Qed.

Lemma merge_all_same_classes ds :
  forall l1 l2 b,
    Forall (fun d => wf_decl d = true) ds ->
    (forall j, entries j l1 = entries j l2) ->
    (forall j, entries j (fst (merge_all (l1, b) ds))
               = entries j (fst (merge_all (l2, b) ds)))
    /\ snd (merge_all (l1, b) ds) = snd (merge_all (l2, b) ds).
Proof.
  induction ds as [|d ds IH]; intros l1 l2 b Hwf Hc; [now split|].
  inversion Hwf as [|? ? Hd Hds]; subst.
  destruct (merge_same_classes l1 l2 d Hd Hc) as [Hc' Hf].
  rewrite !merge_all_cons, Hf. apply IH; auto.
Qed.

(** Two merges of declarations of different ids, in either order. *)
Lemma merge_swap l x y :
  wf_decl x = true -> wf_decl y = true -> id_key x <> id_key y ->
  (forall j, entries j (fst (merge (fst (merge l x)) y))
             = entries j (fst (merge (fst (merge l y)) x)))
  /\ (snd (merge l x) || snd (merge (fst (merge l x)) y)
      = snd (merge l y) || snd (merge (fst (merge l y)) x)).
Proof.
  intros Hx Hy Hne.
  destruct (wf_decl_id x Hx) as (Htx & ix & Hix & Hkx).
  destruct (wf_decl_id y Hy) as (Hty & iy & Hiy & Hky).
  rewrite Hkx, Hky in Hne.
  destruct (merge_entries_own l x ix Htx Hix) as [Ex Fx].
  destruct (merge_entries_own l y iy Hty Hiy) as [Ey Fy].
  destruct (merge_entries_own (fst (merge l x)) y iy Hty Hiy) as [Exy Fxy].
  destruct (merge_entries_own (fst (merge l y)) x ix Htx Hix) as [Eyx Fyx].
  assert (Hxo : forall k j, j <> ix -> entries j (fst (merge k x)) = entries j k)
    by (intros k j Hj; exact (@merge_other ix j k x Hix Hj)).
  assert (Hyo : forall k j, j <> iy -> entries j (fst (merge k y)) = entries j k)
    by (intros k j Hj; exact (@merge_other iy j k y Hiy Hj)).
  split.
  - intros j. destruct (String.eqb_spec j ix) as [->|Hjx].
    + rewrite Hyo by exact Hne. rewrite Ex, Eyx. now rewrite Hyo by exact Hne.
    + destruct (String.eqb_spec j iy) as [->|Hjy].
      * rewrite Exy, Hxo by congruence. rewrite Hxo by congruence. now rewrite Ey.
      * now rewrite Hyo, Hxo, Hxo, Hyo by assumption.
  - rewrite Fx, Fxy, Fy, Fyx.
    rewrite (Hxo l iy) by congruence. rewrite (Hyo l ix) by exact Hne.
    apply orb_comm.
Qed.

Lemma merge_all_perm ds ds' :
  Permutation ds ds' ->
  forall l1 l2 b,
    Forall (fun d => wf_decl d = true) ds ->
    NoDup (map id_key ds) ->
    (forall j, entries j l1 = entries j l2) ->
    (forall j, entries j (fst (merge_all (l1, b) ds))
               = entries j (fst (merge_all (l2, b) ds')))
    /\ snd (merge_all (l1, b) ds) = snd (merge_all (l2, b) ds').
Proof.
  induction 1 as [|x l l' Hp IH|x y l|l l' l'' Hp1 IH1 Hp2 IH2];
    intros l1 l2 b Hwf Hnd Hc.
  - now split.
  - inversion Hwf as [|? ? Hx Hl]; subst.
    cbn [map] in Hnd. inversion Hnd as [|? ? _ Hnd']; subst.
    destruct (merge_same_classes l1 l2 x Hx Hc) as [Hc' Hf].
    rewrite !merge_all_cons, Hf. now apply IH.
  - inversion Hwf as [|? ? Hy Hl]; subst. inversion Hl as [|? ? Hx Hl']; subst.
    cbn [map] in Hnd. inversion Hnd as [|? ? Hyx _]; subst.
    assert (Hne : id_key x <> id_key y)
      by (intros Heq; apply Hyx; left; exact Heq).
    destruct (merge_same_classes l1 l2 y Hy Hc) as [Hc1 Hf1].
    destruct (merge_same_classes _ _ x Hx Hc1) as [Hc2 Hf2].
    destruct (merge_swap l2 x y Hx Hy Hne) as [Hc3 Hf3].
    rewrite !merge_all_cons.
    assert (Hflag : b || snd (merge l1 y) || snd (merge (fst (merge l1 y)) x)
                    = b || snd (merge l2 x) || snd (merge (fst (merge l2 x)) y)).
    { rewrite Hf1, Hf2, <- !orb_assoc. f_equal. symmetry. exact Hf3. }
    rewrite Hflag. apply merge_all_same_classes; [exact Hl'|].
    intros j. now rewrite Hc2, Hc3.
  - assert (Hwf' : Forall (fun d => wf_decl d = true) l')
      by (eapply Permutation_Forall; eauto).
    assert (Hnd' : NoDup (map id_key l'))
      by (eapply Permutation_NoDup; [apply Permutation_map; exact Hp1|exact Hnd]).
    destruct (IH1 l1 l2 b Hwf Hnd Hc) as [Ha Fa].
    destruct (IH2 l2 l2 b Hwf' Hnd' (fun j => eq_refl)) as [Hb Fb].
    split; [intros j; now rewrite Ha, Hb|congruence].
Qed.

Lemma merge_all_is_addon ds :
  forall l b,
    Forall (fun e => is_addon e = true) l ->
    Forall (fun d => wf_decl d = true) ds ->
    Forall (fun e => is_addon e = true) (fst (merge_all (l, b) ds)).
Proof.
  induction ds as [|d ds IH]; intros l b Hl Hwf; [exact Hl|].
  inversion Hwf as [|? ? Hd Hds]; subst. rewrite merge_all_cons.
  apply IH; [|exact Hds]. apply merge_is_addon; [exact Hl|].
  now apply wf_decl_is_addon.
Qed.

Lemma sorted_by_id_addons l :
  Forall (fun e => is_addon e = true) l ->
  sorted_by_id l = Ok (Py.sorted id_key String.leb l).
Proof.
  intros H. unfold sorted_by_id.
  destruct l as [|a [|b l]]; try reflexivity.
  assert (Hids : forallb (fun e => is_some (get e "id")) (a :: b :: l) = true).
  { apply forallb_forall. intros e He. rewrite Forall_forall in H.
    specialize (H e He). unfold is_addon in H. now apply andb_prop in H as [_ H]. }
  now rewrite Hids.
Qed.

(** X25: the manifest does not depend on the order in which the
    add-ons are found.  Starting from a manifest whose entries are
    tagged [addon] and carry an id, the merge of well-formed
    declarations of different ids, followed by the sort, gives one list
    of entries whatever the order of the declarations, and the flag that
    asks for the manifest to be written is the same; the sort
    returns. *)
Theorem manifest_independent_of_order (kids0 ds ds' : list Element) :
  Forall (fun e => is_addon e = true) kids0 ->
  Forall (fun d => wf_decl d = true) ds ->
  NoDup (map id_key ds) ->
  Permutation ds ds' ->
  snd (merge_all (kids0, false) ds) = snd (merge_all (kids0, false) ds')
  /\ sorted_by_id (fst (merge_all (kids0, false) ds))
     = sorted_by_id (fst (merge_all (kids0, false) ds'))
  /\ exists kids', sorted_by_id (fst (merge_all (kids0, false) ds)) = Ok kids'.
Proof.
  intros Hk Hwf Hnd Hp.
  destruct (merge_all_perm ds ds' Hp kids0 kids0 false Hwf Hnd (fun j => eq_refl))
    as [Hc Hf].
  assert (Hwf' : Forall (fun d => wf_decl d = true) ds')
    by (eapply Permutation_Forall; eauto).
  pose proof (merge_all_is_addon ds kids0 false Hk Hwf) as H1.
  pose proof (merge_all_is_addon ds' kids0 false Hk Hwf') as H2.
  split; [exact Hf|].
  rewrite (sorted_by_id_addons _ H1), (sorted_by_id_addons _ H2).
  split; [|eauto]. f_equal. apply sorted_by_classes. intros j.
  now rewrite <- !entries_class, Hc.
Qed.

(* ------------------------------------------------------------------ *)
(** ** The further properties on small trees *)
(* ------------------------------------------------------------------ *)

Lemma remove_ignored_files_every_other_witness :
  NoDup [".gitignore"; ".gitmodules"; "icon.png"]
  /\ remove_ignored_files ".git" [".gitignore"; ".gitmodules"; "icon.png"]
     = [".gitmodules"; "icon.png"].
Proof.
  assert (H : NoDup [".gitignore"; ".gitmodules"; "icon.png"]) by distinct_names.
  refine (conj H _).
  exact (remove_ignored_files_every_other ".git" _ H).
Defined.

Lemma packed_unique : unique_names Packed.folder.
Proof.
  cbn. repeat split; distinct_names.
Qed.

Lemma archive_names_sound_witness :
  unique_names Packed.folder
  /\ In ["plugin.test"; "resources"; "icon.png"]
        (archive_names ["plugin.test"] Packed.folder)
  /\ exists q f m c,
      ["plugin.test"; "resources"; "icon.png"] = "plugin.test" :: q ++ [f]
      /\ FS.lookup_node (q ++ [f]) Packed.folder = Some (File m c)
      /\ forall d, In d q -> Py.mem d IGNORE = false.
Proof.
  assert (Hin : In ["plugin.test"; "resources"; "icon.png"]
                   (archive_names ["plugin.test"] Packed.folder))
    by (vm_compute; auto).
  refine (conj packed_unique (conj Hin _)).
  exact (archive_names_sound Packed.folder "plugin.test" _ packed_unique Hin).
Defined.

Lemma archive_keeps_unignored_witness :
  unique_names Packed.folder
  /\ FS.lookup_node (["resources"] ++ ["icon.png"]) Packed.folder
     = Some (File 0 (Blob EmptyString))
  /\ unignored "icon.png" = true
  /\ In ("plugin.test" :: ["resources"] ++ ["icon.png"])
        (archive_names ["plugin.test"] Packed.folder).
Proof.
  assert (Hl : FS.lookup_node (["resources"] ++ ["icon.png"]) Packed.folder
               = Some (File 0 (Blob EmptyString))) by reflexivity.
  assert (Hq : forall d, In d ["resources"] -> Py.mem d IGNORE = false)
    by (intros d [<-|[]]; reflexivity).
  assert (Hf : unignored "icon.png" = true) by reflexivity.
  refine (conj packed_unique (conj Hl (conj Hf _))).
  exact (archive_keeps_unignored Packed.folder "plugin.test" ["resources"] "icon.png"
           0 (Blob EmptyString) packed_unique Hl Hq Hf).
Defined.

Lemma create_zip_outcome_witness :
  let run := _create_zip (permissive "home") ["plugin.test"]
                         (Some "plugin.test") (Some "1.0.0") Packed.w0 in
  "plugin.test" <> "zips"
  /\ folder_name "plugin.test" = true
  /\ has_char "/"%char (Py.str (Some "1.0.0")) = false
  /\ fst run = Ok tt
  /\ FS.lookup ["zips"; "plugin.test"; "plugin.test-1.0.0.zip"] (release (snd run))
     = Some (File 0 (ZipArchive [["plugin.test"; "addon.xml"];
                                 ["plugin.test"; "resources"; "icon.png"]]))
  /\ stdout (snd run) = [ZipCreated "plugin.test" "1.0.0"].
Proof.
  intros run.
  assert (Hx : "plugin.test" <> "zips") by discriminate.
  assert (Hrun : _create_zip (permissive "home") ["plugin.test"]
                             (Some "plugin.test") (Some "1.0.0") Packed.w0
                 = (Ok tt, snd run)) by (vm_compute; reflexivity).
  assert (Hnew : FS.lookup (zips_path ++ ["plugin.test";
                                          zip_name "plugin.test" (Some "1.0.0")])
                           (release Packed.w0) = None) by reflexivity.
  refine (conj Hx (conj eq_refl (conj eq_refl (conj eq_refl _)))).
  exact (proj2 (proj2 (create_zip_outcome (permissive "home") "plugin.test" []
                         "plugin.test" (Some "1.0.0") Packed.w0 (snd run)
                         Hx eq_refl eq_refl Hrun))
               Hnew).
Defined.

Lemma unparsed_addon_is_skipped_witness :
  declared (release Broken.w0) ["plugin.bad"] = Raise ParseError
  /\ for_fold [["plugin.bad"]; ["plugin.b"]] (process_addon Sample.E)
              ([], false) Broken.w0
     = for_fold [["plugin.b"]] (process_addon Sample.E) ([], false)
                (with_stdout Broken.w0 [Excluding ["plugin.bad"] ParseError]).
Proof.
  assert (Hd : declared (release Broken.w0) ["plugin.bad"] = Raise ParseError)
    by reflexivity.
  refine (conj Hd _).
  exact (proj1 (unparsed_addon_is_skipped Sample.E ["plugin.bad"] [["plugin.b"]]
                  ([], false) Broken.w0 ParseError Hd)).
Defined.



Lemma corrupt_manifest_aborts_witness :
  FS.lookup addons_xml_path (release Stale.w_corrupt)
  = Some (File 0 (Blob "<addons>"))
  /\ exists w1,
      _remove_binaries Sample.E (with_latest Stale.w_corrupt None) = (Ok tt, w1)
      /\ FS.lookup addons_xml_path (release w1) = Some (File 0 (Blob "<addons>"))
      /\ __init__ Sample.E Stale.w_corrupt = (Raise ParseError, w1).
Proof.
  assert (Hf : FS.lookup addons_xml_path (release Stale.w_corrupt)
               = Some (File 0 (Blob "<addons>"))) by reflexivity.
  assert (Hc : forall r, Blob "<addons>" <> XmlDoc r) by discriminate.
  refine (conj Hf _).
  exact (corrupt_manifest_aborts Sample.E Stale.w_corrupt 0 (Blob "<addons>") Hf Hc).
Defined.


Lemma cleanup_touches_archives_only_witness :
  FS.lookup zips_path (release Output.w0) = Some (Dir 0 Output.zl)
  /\ NoDup (FS.names Output.zl)
  /\ exists w',
      _cleanup_old_zips Output.E Output.w0 = (Ok tt, w')
      /\ FS.lookup (zips_path ++ ["repository.home"; "addon.xml"]) (release w')
         = Some (File 5 (XmlDoc Output.home_decl)).
Proof.
  refine (conj zips_listed (conj zl_distinct _)).
  destruct (cleanup_touches_archives_only Output.E Output.w0 0 Output.zl
              zips_listed zl_distinct folders_distinct)
    as (w' & Hrun & _ & _ & _ & _ & Hkept).
  exists w'. split; [exact Hrun|].
  exact (Hkept "repository.home" 5 Output.home_folder "addon.xml"
               (or_intror (or_intror (or_introl eq_refl))) eq_refl).
Defined.

Lemma output_removable :
  forall id mt l e,
    In (id, Dir mt l) Output.zl -> In e (zips_in l) ->
    removable Output.E (zips_path ++ [id]) e = true.
Proof.
  intros id mt l e [H|[H|[H|[]]]]; try discriminate;
    injection H as <- <- <-; cbn;
    intros He; repeat (destruct He as [<-|He]; [reflexivity|]); destruct He.
Qed.

Lemma cleanup_twice_witness :
  let w' := snd (_cleanup_old_zips Output.E Output.w0) in
  _cleanup_old_zips Output.E Output.w0 = (Ok tt, w')
  /\ FS.lookup (zips_path ++ ["repository.home"; "repository.home-1.0.zip"])
               (release w') = None
  /\ _cleanup_old_zips Output.E w' = (Ok tt, w').
Proof.
  intros w'.
  assert (Hrun : _cleanup_old_zips Output.E Output.w0 = (Ok tt, w'))
    by (vm_compute; reflexivity).
  refine (conj Hrun (conj eq_refl _)).
  exact (cleanup_twice Output.E Output.w0 w' 0 Output.zl
           zips_listed zl_distinct folders_distinct output_removable Hrun).
Defined.

Lemma cleanup_keeps_candidates_witness :
  FS.lookup zips_path (release Output.w0) = Some (Dir 0 Output.zl)
  /\ NoDup (FS.names Output.zl)
  /\ exists w' zl',
      _cleanup_old_zips Output.E Output.w0 = (Ok tt, w')
      /\ FS.lookup zips_path (release w') = Some (Dir 0 zl')
      /\ FS.names zl' = FS.names Output.zl
      /\ candidates_in zl' = candidates_in Output.zl
      /\ collect_candidates (FS.names zl') w' = (Ok (candidates_in Output.zl), w').
Proof.
  refine (conj zips_listed (conj zl_distinct _)).
  exact (cleanup_keeps_candidates Output.E Output.w0 0 Output.zl
           zips_listed zl_distinct folders_distinct).
Defined.

Lemma candidate_is_newest_archive_witness :
  In Output.home_candidate (candidates_in Output.zl)
  /\ exists mt l ma r n,
      In ("repository.home", Dir mt l) Output.zl
      /\ FS.assoc "addon.xml" l = Some (File ma (XmlDoc r))
      /\ is_repository r = true
      /\ ["zips"; "repository.home"; "repository.home-2.0.zip"]
         = zips_path ++ ["repository.home"; "repository.home-2.0.zip"]
      /\ Py.endswith "repository.home-2.0.zip" ".zip" = true
      /\ In ("repository.home-2.0.zip", n) l
      /\ forall e, In e l -> Py.endswith (fst e) ".zip" = true ->
                   getmtime (snd e) <= getmtime n.
Proof.
  assert (Hin : In Output.home_candidate (candidates_in Output.zl))
    by (cbn; right; now left).
  refine (conj Hin _).
  exact (candidate_is_newest_archive Output.zl "repository.home"
           "repository.home-2.0.zip"
           ["zips"; "repository.home"; "repository.home-2.0.zip"] Hin).
Defined.

Lemma root_zips_listed :
  FS.lookup zips_path (release Root.w0) = Some (Dir 0 Output.zl).
Proof. reflexivity. Qed.

Lemma root_distinct : NoDup (FS.names (root Root.w0)).
Proof. cbn. distinct_names. Qed.

Lemma root_choice E :
  home_id E = "repository.home" ->
  choose E (candidates_in Output.zl) = Some Output.home_candidate.
Proof. intros H. unfold choose. rewrite H. reflexivity. Qed.

Lemma promotion_prefers_home_witness :
  FS.lookup zips_path (release Output.w0) = Some (Dir 0 Output.zl)
  /\ NoDup (FS.names Output.zl)
  /\ In Output.home_candidate (candidates_in Output.zl)
  /\ choose Output.E (candidates_in (rev Output.zl)) = Some Output.home_candidate
  /\ exists w1,
       _copy_repo_zip_to_root Output.E Root.w0 = (Ok tt, w1)
       /\ latest_repo_zip_name w1 = Some "repository.home-2.0.zip"
       /\ FS.assoc "repository.home-2.0.zip" (root w1) = Some (File 0 (ZipArchive [])).
Proof.
  assert (Hin : In Output.home_candidate (candidates_in Output.zl))
    by (cbn; right; now left).
  refine (conj zips_listed (conj zl_distinct (conj Hin _))).
  destruct (promotion_prefers_home Output.E Output.w0 0 Output.zl
              zips_listed zl_distinct) as (_ & Hhome & _).
  split.
  - assert (Hw : FS.lookup zips_path
                   (release (mkWorld [("zips", Dir 0 (rev Output.zl))] [] None []))
                 = Some (Dir 0 (rev Output.zl))) by reflexivity.
    exact (proj1 (Hhome _ _ _ Hin eq_refl _ 0 (rev Output.zl)
                    (Permutation_rev Output.zl) Hw (NoDup_nil _))).
  - destruct (Hhome _ _ _ Hin eq_refl Root.w0 0 Output.zl
                (Permutation_refl _) root_zips_listed root_distinct) as [_ Hrun].
    destruct (Hrun 5 (ZipArchive []) eq_refl eq_refl) as (w1 & H1 & _ & H2 & H3 & _).
    { discriminate. }
    exists w1. auto.
Defined.

Lemma promotion_replaces_root_archives_witness :
  exists w',
    _copy_repo_zip_to_root Output.E Root.w0 = (Ok tt, w')
    /\ latest_repo_zip_name w' = Some "repository.home-2.0.zip"
    /\ FS.assoc "repository.home-2.0.zip" (root w') = Some (File 0 (ZipArchive []))
    /\ FS.assoc "repository.home-1.0.zip" (root w') = None
    /\ FS.assoc "README.md" (root w') = Some empty_file.
Proof.
  assert (Hsrc : FS.lookup ["zips"; "repository.home"; "repository.home-2.0.zip"]
                           (release Root.w0) = Some (File 5 (ZipArchive [])))
    by reflexivity.
  assert (Hnodir : forall mr sub,
             FS.assoc "repository.home-2.0.zip" (root Root.w0) <> Some (Dir mr sub))
    by discriminate.
  destruct (promotion_replaces_root_archives Output.E Root.w0 0 Output.zl
              "repository.home" "repository.home-2.0.zip"
              ["zips"; "repository.home"; "repository.home-2.0.zip"]
              5 (ZipArchive [])
              root_zips_listed zl_distinct root_distinct
              (root_choice Output.E eq_refl) Hsrc eq_refl Hnodir)
    as (w' & Hrun & _ & Hlatest & Hnew & Hrest & _).
  exists w'. split; [exact Hrun|]. split; [exact Hlatest|]. split; [exact Hnew|].
  split.
  - exact (Hrest "repository.home-1.0.zip" ltac:(discriminate)).
  - exact (Hrest "README.md" ltac:(discriminate)).
Defined.

Lemma refused_promotion_leaves_no_archive_witness :
  deny_write ReadOnly.no_root_write (InRoot "repository.home-2.0.zip") = true
  /\ exists w',
      _copy_repo_zip_to_root ReadOnly.no_root_write Root.w0 = (Raise OSError, w')
      /\ FS.assoc "repository.home-1.0.zip" (root w') = None
      /\ latest_repo_zip_name w' = None.
Proof.
  assert (Hsrc : FS.lookup ["zips"; "repository.home"; "repository.home-2.0.zip"]
                           (release Root.w0) = Some (File 5 (ZipArchive [])))
    by reflexivity.
  refine (conj eq_refl _).
  destruct (refused_promotion_leaves_no_archive ReadOnly.no_root_write Root.w0 0
              Output.zl "repository.home" "repository.home-2.0.zip"
              ["zips"; "repository.home"; "repository.home-2.0.zip"]
              5 (ZipArchive [])
              root_zips_listed zl_distinct root_distinct
              (root_choice ReadOnly.no_root_write eq_refl) Hsrc eq_refl)
    as (w' & Hrun & _ & Hlatest & _ & Hgone & _).
  exists w'. split; [exact Hrun|]. split; [|exact Hlatest].
  exact (Hgone "repository.home-1.0.zip" (File 2 (ZipArchive [])) eq_refl eq_refl).
Defined.

Lemma index_update_settles_witness :
  let w1 := snd (_update_index_html TwoLinks.E TwoLinks.w0) in
  _update_index_html TwoLinks.E TwoLinks.w0 = (Ok tt, w1)
  /\ _update_index_html TwoLinks.E w1
     = (Ok tt, with_stdout w1 (stdout w1 ++ [IndexUpToDate])).
Proof.
  intros w1.
  assert (Hrun : _update_index_html TwoLinks.E TwoLinks.w0 = (Ok tt, w1))
    by (vm_compute; reflexivity).
  refine (conj Hrun _).
  exact (index_update_settles TwoLinks.E TwoLinks.w0 w1 "repository.home-2.0" 0
           TwoLinks.page eq_refl eq_refl eq_refl eq_refl eq_refl eq_refl eq_refl Hrun).
Defined.

Lemma remove_binaries_twice_witness :
  let w1 := snd (_remove_binaries Sample.E Compiled.w0) in
  _remove_binaries Sample.E Compiled.w0 = (Ok tt, w1)
  /\ release w1 = [("plugin.a", Dir 0 [("addon.xml", File 0 (XmlDoc Sample.decl_a))])]
  /\ no_target (Dir 0 (release w1)) = true
  /\ _remove_binaries Sample.E w1 = (Ok tt, w1).
Proof.
  intros w1.
  assert (Hallow : forall l, deny_remove Sample.E l = false) by reflexivity.
  assert (Hrun : _remove_binaries Sample.E Compiled.w0 = (Ok tt, w1))
    by (vm_compute; reflexivity).
  refine (conj Hrun (conj eq_refl _)).
  exact (remove_binaries_twice Sample.E Compiled.w0 w1 Hallow Hrun).
Defined.

Lemma convert_bytes_accurate_witness :
  (1280 < 1024 ^ 5)%N
  /\ convert_bytes 1280 = Text "1.2 KB"
  /\ exists (k : nat) (t : N) (x : string),
      nth_error UNITS k = Some x
      /\ convert_bytes 1280 = Text (format_tenths t ++ " " ++ x)%string
      /\ (k = 0%nat \/ (1024 ^ N.of_nat k <= 1280)%N)
      /\ (1280 < 1024 ^ N.of_nat (S k))%N
      /\ (2 * t * 1024 ^ N.of_nat k <= 20 * 1280 + 1024 ^ N.of_nat k)%N
      /\ (20 * 1280 <= 2 * t * 1024 ^ N.of_nat k + 1024 ^ N.of_nat k)%N.
Proof.
  assert (H : (1280 < 1024 ^ 5)%N) by reflexivity.
  assert (H1 : convert_bytes 1280 = Text "1.2 KB") by (vm_compute; reflexivity).
  refine (conj H (conj H1 _)).
  exact (proj1 (convert_bytes_accurate 1280 H)).
Defined.


Lemma merge_settles_witness :
  tag Sample.decl_a = "addon"
  /\ merge [Sample.decl_b; Sample.decl_a_old] Sample.decl_a
     = ([Sample.decl_b; Sample.decl_a], true)
  /\ merge [Sample.decl_b; Sample.decl_a] Sample.decl_a
     = ([Sample.decl_b; Sample.decl_a], false).
Proof.
  refine (conj eq_refl (conj eq_refl _)).
  exact (merge_settles [Sample.decl_b; Sample.decl_a_old] Sample.decl_a "plugin.a"
           eq_refl eq_refl eq_refl).
Defined.

Lemma sources_are_read_only_witness :
  well_formed (release Sample.w0) = true
  /\ contained (release Sample.w0) = true
  /\ nonzips (release (snd ((update_manifest Sample.E ;; later_stages Sample.E)
                              Sample.w0)))
     = Sample.tree.
Proof.
  assert (Hwf : well_formed (release Sample.w0) = true) by reflexivity.
  refine (conj Hwf (conj eq_refl _)).
  exact (sources_are_read_only Sample.E Sample.w0 Hwf eq_refl).
Defined.

Lemma discovery_after_removal_witness :
  let w1 := snd (_remove_binaries Sample.E Compiled.w_caches) in
  _remove_binaries Sample.E Compiled.w_caches = (Ok tt, w1)
  /\ get_addon_folders (release Compiled.w_caches) = [["plugin.a"]; ["plugin.pycache"]]
  /\ get_addon_folders (release w1) = [["plugin.a"]].
Proof.
  intros w1.
  assert (Hrun : _remove_binaries Sample.E Compiled.w_caches = (Ok tt, w1))
    by (vm_compute; reflexivity).
  refine (conj Hrun (conj eq_refl _)).
  exact (discovery_after_removal Sample.E Compiled.w_caches w1 Hrun).
Defined.

Lemma manifest_independent_of_order_witness :
  Forall (fun e => is_addon e = true) [Sample.decl_a_old]
  /\ Permutation [Sample.decl_b; Sample.decl_a] [Sample.decl_a; Sample.decl_b]
  /\ sorted_by_id (fst (merge_all ([Sample.decl_a_old], false)
                                  [Sample.decl_b; Sample.decl_a]))
     = sorted_by_id (fst (merge_all ([Sample.decl_a_old], false)
                                    [Sample.decl_a; Sample.decl_b])).
Proof.
  assert (Hk : Forall (fun e => is_addon e = true) [Sample.decl_a_old])
    by (repeat constructor).
  assert (Hwf : Forall (fun d => wf_decl d = true) [Sample.decl_b; Sample.decl_a])
    by (repeat constructor).
  assert (Hnd : NoDup (map id_key [Sample.decl_b; Sample.decl_a]))
    by (cbn; distinct_names).
  assert (Hp : Permutation [Sample.decl_b; Sample.decl_a]
                           [Sample.decl_a; Sample.decl_b]) by apply perm_swap.
  refine (conj Hk (conj Hp _)).
  exact (proj1 (proj2 (manifest_independent_of_order [Sample.decl_a_old]
                         [Sample.decl_b; Sample.decl_a]
                         [Sample.decl_a; Sample.decl_b] Hk Hwf Hnd Hp))).
Defined.
